(** * Caching lecture (caching_complete.py): cache helpers and caching strategies

    A shallow embedding of [caching-lecture-13/caching_complete.py].  The
    module keeps its cache in a Redis client ([redis_client]) and its
    products in a SQL database session ([db]).  Both are external services;
    they are modelled here by their documented command semantics (the
    [redis_*] commands on a keyspace, the queries and commits on a table) so
    that the helpers and the request handlers of the lecture file can be
    written as they are in the source.

    Conventions:
    - time is an integer clock in milliseconds ([now]); a handler runs at one
      instant of that clock;
    - a Python value that goes through [json.dumps]/[json.loads] is a [json]
      term, Python's [None] being [JNull];
    - a raised exception is the [Raise] outcome of a computation;
    - [SETEX] keeps its expiry in whole seconds ([int(now + seconds)]), and
      the remaining time that the handlers report is Python's [round] of
      the seconds left (a half goes to the even neighbour);
    - a column of a row holds a value of one of SQLite's storage classes
      ([NULL], [INTEGER], [TEXT]); what SQLite makes of a text with digits
      that is not a canonical decimal integer when it goes to an integer
      column is a field of the database ([reads]), so that nothing is
      assumed about it;
    - integers are unbounded ([Z]), as Python's are; the bounds of a signed
      64-bit integer are written out where Redis checks them. *)

From Stdlib Require Import ZArith Ascii String List Lia DecimalString DecimalZ DecimalPos.
From stdpp Require Import gmap strings list fin_maps sorting.

Open Scope Z_scope.
Open Scope string_scope.

(** ** Exceptions and outcomes *)

Inductive exn :=
| HTTPException (status_code : Z) (detail : string) (headers : list (string * string))
| ResponseError (msg : string)          (* redis.exceptions.ResponseError *)
| JSONDecodeError                       (* json.loads on malformed text *)
| TypeError (msg : string)
| KeyError (key : string)
| ValidationError                       (* pydantic.ValidationError *)
| DatabaseError (msg : string).         (* sqlalchemy.exc.SQLAlchemyError *)

Inductive outcome (A : Type) :=
| Ok (a : A)
| Raise (e : exn).
Arguments Ok {A} a.
Arguments Raise {A} e.

(** ** Integers as text: [str(n)], and the canonical decimal reading *)

Definition str (n : Z) : string := NilZero.string_of_int (Z.to_int n).

(** Reads a canonical decimal integer: optional [-], no leading zero, no
    [-0], no sign [+], no blanks.  This is what Redis accepts as the value
    of a counter. *)
Definition int_of_text (s : string) : option Z :=
  match NilZero.int_of_string s with
  | Some d => if String.eqb (str (Z.of_int d)) s then Some (Z.of_int d) else None
  | None => None
  end.

Definition quote : ascii := "034"%char.

Definition is_digit (c : ascii) : bool :=
  (48 <=? nat_of_ascii c)%nat && (nat_of_ascii c <=? 57)%nat.

Definition is_ws (c : ascii) : bool :=
  Ascii.eqb c " " || Ascii.eqb c "009" || Ascii.eqb c "010" || Ascii.eqb c "013".

Fixpoint skip_ws (s : string) : string :=
  match s with
  | String c s' => if is_ws c then skip_ws s' else s
  | EmptyString => EmptyString
  end.

Fixpoint span_digits (s : string) : string * string :=
  match s with
  | String c s' =>
      if is_digit c then let (d, r) := span_digits s' in (String c d, r)
      else (EmptyString, s)
  | EmptyString => (EmptyString, EmptyString)
  end.

(** ** JSON values: the Python values that [json.dumps] and [json.loads]
    exchange.  Numbers are integers (floats are outside the model: [loads]
    refuses a text with a fraction or an exponent), a character is a code
    point below 256, and a dict is the list of its items in insertion order,
    with string keys; of the items of a text that repeats a key [loads]
    keeps the last one, as [json.loads] does. *)

Module Json.

Unset Elimination Schemes.
Inductive json :=
| JNull
| JBool (b : bool)
| JInt (n : Z)
| JStr (s : string)
| JList (l : list json)
| JDict (l : list (string * json)).
Set Elimination Schemes.

Section JsonInd.
Variable P : json -> Prop.
Hypothesis Hnull : P JNull.
Hypothesis Hbool : forall b, P (JBool b).
Hypothesis Hint : forall n, P (JInt n).
Hypothesis Hstr : forall s, P (JStr s).
Hypothesis Hlist : forall l, Forall P l -> P (JList l).
Hypothesis Hdict : forall l, Forall (fun kv => P (snd kv)) l -> P (JDict l).

Fixpoint json_ind (v : json) : P v :=
  match v with
  | JNull => Hnull
  | JBool b => Hbool b
  | JInt n => Hint n
  | JStr s => Hstr s
  | JList l =>
      Hlist l ((fix go (l : list json) : Forall P l :=
                  match l with
                  | [] => List.Forall_nil P
                  | x :: l' => @List.Forall_cons _ P x l' (json_ind x) (go l')
                  end) l)
  | JDict l =>
      Hdict l ((fix go (l : list (string * json)) : Forall (fun kv => P (snd kv)) l :=
                  match l with
                  | [] => List.Forall_nil _
                  | kv :: l' => @List.Forall_cons _ (fun kv => P (snd kv)) kv l' (json_ind (snd kv)) (go l')
                  end) l)
  end.
End JsonInd.

(** Python truthiness, as used by [if cached:]. *)
Definition truthy (v : json) : bool :=
  match v with
  | JNull => false
  | JBool b => b
  | JInt n => negb (n =? 0)%Z
  | JStr s => negb (String.eqb s EmptyString)
  | JList l => match l with [] => false | _ => true end
  | JDict l => match l with [] => false | _ => true end
  end.

(** *** [json.dumps] (default options: [ensure_ascii], separators [", "]
    and [": "]) *)

Definition hex_digit (n : nat) : ascii :=
  match n with
  | 0 => "0" | 1 => "1" | 2 => "2" | 3 => "3" | 4 => "4" | 5 => "5" | 6 => "6"
  | 7 => "7" | 8 => "8" | 9 => "9" | 10 => "a" | 11 => "b" | 12 => "c"
  | 13 => "d" | 14 => "e" | _ => "f"
  end%nat%char.

Definition escape_char (c : ascii) : string :=
  let n := nat_of_ascii c in
  if (n =? 34)%nat then String "\" (String quote EmptyString)
  else if (n =? 92)%nat then "\\"
  else if (n =? 10)%nat then "\n"
  else if (n =? 13)%nat then "\r"
  else if (n =? 9)%nat then "\t"
  else if (n =? 8)%nat then "\b"
  else if (n =? 12)%nat then "\f"
  else if (n <? 32)%nat || (126 <? n)%nat then
    "\u00" +:+ String (hex_digit (n / 16)) (String (hex_digit (n mod 16)) EmptyString)
  else String c EmptyString.

Fixpoint escape (s : string) : string :=
  match s with
  | EmptyString => EmptyString
  | String c s' => escape_char c +:+ escape s'
  end.

Definition dumps_str (s : string) : string :=
  String quote (escape s +:+ String quote EmptyString).

Fixpoint dumps (v : json) : string :=
  match v with
  | JNull => "null"
  | JBool true => "true"
  | JBool false => "false"
  | JInt n => str n
  | JStr s => dumps_str s
  | JList l =>
      "[" +:+
      (fix items (l : list json) : string :=
         match l with
         | [] => EmptyString
         | [x] => dumps x
         | x :: l' => dumps x +:+ ", " +:+ items l'
         end) l +:+ "]"
  | JDict l =>
      "{" +:+
      (fix items (l : list (string * json)) : string :=
         match l with
         | [] => EmptyString
         | [(k, x)] => dumps_str k +:+ ": " +:+ dumps x
         | (k, x) :: l' => dumps_str k +:+ ": " +:+ dumps x +:+ ", " +:+ items l'
         end) l +:+ "}"
  end.

(** *** [json.loads] *)

Definition hex_value (c : ascii) : option nat :=
  let n := nat_of_ascii c in
  if is_digit c then Some (n - 48)%nat
  else if (97 <=? n)%nat && (n <=? 102)%nat then Some (n - 87)%nat
  else if (65 <=? n)%nat && (n <=? 70)%nat then Some (n - 55)%nat
  else None.

(** [\uXXXX]: the code point, when it is below 256. *)
Definition unicode_escape (h1 h2 h3 h4 : ascii) : option ascii :=
  match hex_value h1, hex_value h2, hex_value h3, hex_value h4 with
  | Some a, Some b, Some c, Some d =>
      if ((a =? 0) && (b =? 0))%nat then Some (ascii_of_nat (16 * c + d)) else None
  | _, _, _, _ => None
  end.

Definition simple_escape (e : ascii) : option ascii :=
  if Ascii.eqb e quote then Some quote
  else if Ascii.eqb e "\" then Some "\"%char
  else if Ascii.eqb e "/" then Some "/"%char
  else if Ascii.eqb e "b" then Some "008"%char
  else if Ascii.eqb e "f" then Some "012"%char
  else if Ascii.eqb e "n" then Some "010"%char
  else if Ascii.eqb e "r" then Some "013"%char
  else if Ascii.eqb e "t" then Some "009"%char
  else None.

Definition push (c : ascii) (r : option (string * string)) : option (string * string) :=
  match r with
  | Some (x, rest) => Some (String c x, rest)
  | None => None
  end.

(** The text after an opening quote, up to its closing quote. *)
Fixpoint parse_str_body (s : string) : option (string * string) :=
  match s with
  | EmptyString => None
  | String c s1 =>
      if Ascii.eqb c quote then Some (EmptyString, s1)
      else if Ascii.eqb c "\" then
        match s1 with
        | EmptyString => None
        | String e s2 =>
            if Ascii.eqb e "u" then
              match s2 with
              | String h1 (String h2 (String h3 (String h4 s3))) =>
                  match unicode_escape h1 h2 h3 h4 with
                  | Some x => push x (parse_str_body s3)
                  | None => None
                  end
              | _ => None
              end
            else
              match simple_escape e with
              | Some x => push x (parse_str_body s2)
              | None => None
              end
        end
      else if (nat_of_ascii c <? 32)%nat then None
      else push c (parse_str_body s1)
  end.

Definition parse_number (s : string) : option (json * string) :=
  let '(neg, s1) :=
    match s with
    | String c s' => if Ascii.eqb c "-" then (true, s') else (false, s)
    | EmptyString => (false, s)
    end in
  let '(digits, rest) := span_digits s1 in
  let float_tail :=
    match rest with
    | String c _ => Ascii.eqb c "." || Ascii.eqb c "e" || Ascii.eqb c "E"
    | EmptyString => false
    end in
  if float_tail then None
  else match int_of_text digits with
       | Some n => Some (JInt (if neg then - n else n), rest)
       | None => None
       end.

Fixpoint strip_prefix (p s : string) : option string :=
  match p with
  | EmptyString => Some s
  | String a p' =>
      match s with
      | String b s' => if Ascii.eqb a b then strip_prefix p' s' else None
      | EmptyString => None
      end
  end.

Definition parse_keyword (s : string) : option (json * string) :=
  match strip_prefix "null" s with
  | Some rest => Some (JNull, rest)
  | None =>
      match strip_prefix "true" s with
      | Some rest => Some (JBool true, rest)
      | None =>
          match strip_prefix "false" s with
          | Some rest => Some (JBool false, rest)
          | None => None
          end
      end
  end.

(** [d[k] = v] on a dict as the list of its items: the value of a key that
    is in the dict is replaced where it is, a new key goes to the end. *)
Fixpoint dict_set (d : list (string * json)) (k : string) (v : json)
  : list (string * json) :=
  match d with
  | [] => [(k, v)]
  | (k', v') :: d' => if String.eqb k' k then (k, v) :: d' else (k', v') :: dict_set d' k v
  end.

(** [dict(pairs)]: of the items with the same key the last one stays. *)
Definition dict_of (items : list (string * json)) : list (string * json) :=
  fold_left (fun d kv => dict_set d (fst kv) (snd kv)) items [].

Fixpoint parse_value (fuel : nat) (s : string) {struct fuel} : option (json * string) :=
  match fuel with
  | O => None
  | S fuel' =>
      match skip_ws s with
      | EmptyString => None
      | String c s1 =>
          if is_digit c || Ascii.eqb c "-" then parse_number (String c s1)
          else if Ascii.eqb c quote then
            match parse_str_body s1 with
            | Some (x, rest) => Some (JStr x, rest)
            | None => None
            end
          else if Ascii.eqb c "[" then
            match skip_ws s1 with
            | EmptyString => None
            | String c1 s2 =>
                if Ascii.eqb c1 "]" then Some (JList [], s2)
                else match parse_elems fuel' s1 with
                     | Some (l, rest) => Some (JList l, rest)
                     | None => None
                     end
            end
          else if Ascii.eqb c "{" then
            match skip_ws s1 with
            | EmptyString => None
            | String c1 s2 =>
                if Ascii.eqb c1 "}" then Some (JDict [], s2)
                else match parse_members fuel' s1 with
                     | Some (l, rest) => Some (JDict (dict_of l), rest)
                     | None => None
                     end
            end
          else parse_keyword (String c s1)
      end
  end
with parse_elems (fuel : nat) (s : string) {struct fuel} : option (list json * string) :=
  match fuel with
  | O => None
  | S fuel' =>
      match parse_value fuel' s with
      | None => None
      | Some (v, rest) =>
          match skip_ws rest with
          | EmptyString => None
          | String c rest' =>
              if Ascii.eqb c "]" then Some ([v], rest')
              else if Ascii.eqb c "," then
                match parse_elems fuel' rest' with
                | Some (l, r) => Some (v :: l, r)
                | None => None
                end
              else None
          end
      end
  end
with parse_members (fuel : nat) (s : string) {struct fuel}
  : option (list (string * json) * string) :=
  match fuel with
  | O => None
  | S fuel' =>
      match skip_ws s with
      | EmptyString => None
      | String c s1 =>
          if Ascii.eqb c quote then
            match parse_str_body s1 with
            | None => None
            | Some (k, s2) =>
                match skip_ws s2 with
                | EmptyString => None
                | String c2 s3 =>
                    if Ascii.eqb c2 ":" then
                      match parse_value fuel' s3 with
                      | None => None
                      | Some (v, s4) =>
                          match skip_ws s4 with
                          | EmptyString => None
                          | String c4 s5 =>
                              if Ascii.eqb c4 "}" then Some ([(k, v)], s5)
                              else if Ascii.eqb c4 "," then
                                match parse_members fuel' s5 with
                                | Some (l, r) => Some ((k, v) :: l, r)
                                | None => None
                                end
                              else None
                          end
                      end
                    else None
                end
            end
          else None
      end
  end.

(** [json.loads(s)]: one value, then only blanks; anything else raises
    [JSONDecodeError] ([None] here). *)
Definition loads (s : string) : option json :=
  match parse_value (S (String.length s)) s with
  | Some (v, rest) =>
      match skip_ws rest with
      | EmptyString => Some v
      | String _ _ => None
      end
  | None => None
  end.

End Json.
Export Json.



(** Auxiliary measures used to state the round trip of [dumps]/[loads]. *)

(** What may follow a number in a JSON text. *)
Definition number_end (rest : string) : bool :=
  match rest with
  | EmptyString => true
  | String c _ =>
      negb (is_digit c || Ascii.eqb c "." || Ascii.eqb c "e" || Ascii.eqb c "E")
  end.

Fixpoint dumps_list (l : list json) : string :=
  match l with
  | [] => EmptyString
  | [x] => dumps x
  | x :: l' => dumps x +:+ ", " +:+ dumps_list l'
  end.

Fixpoint dumps_items (l : list (string * json)) : string :=
  match l with
  | [] => EmptyString
  | [(k, x)] => dumps_str k +:+ ": " +:+ dumps x
  | (k, x) :: l' => dumps_str k +:+ ": " +:+ dumps x +:+ ", " +:+ dumps_items l'
  end.

Fixpoint nodes (v : json) : nat :=
  match v with
  | JList l => S ((fix go (l : list json) : nat :=
                     match l with [] => O | x :: l' => S (nodes x + go l') end) l)
  | JDict l => S ((fix go (l : list (string * json)) : nat :=
                     match l with [] => O | kv :: l' => S (nodes (snd kv) + go l') end) l)
  | _ => 1%nat
  end.

Fixpoint nodes_list (l : list json) : nat :=
  match l with [] => O | x :: l' => S (nodes x + nodes_list l') end.

Fixpoint nodes_items (l : list (string * json)) : nat :=
  match l with [] => O | kv :: l' => S (nodes (snd kv) + nodes_items l') end.

Definition parses (v : json) : Prop :=
  forall fuel rest, (nodes v < fuel)%nat -> number_end rest = true ->
    parse_value fuel (dumps v +:+ rest) = Some (v, rest).

(** The values of the model that are Python values: in a dict no key occurs
    twice. *)
Fixpoint keys_distinct (keys : list string) : bool :=
  match keys with
  | [] => true
  | k :: keys' => negb (existsb (String.eqb k) keys') && keys_distinct keys'
  end.

Fixpoint distinct_keys (v : json) : bool :=
  match v with
  | JList l => forallb distinct_keys l
  | JDict l =>
      keys_distinct (List.map fst l) && forallb (fun kv => distinct_keys (snd kv)) l
  | _ => true
  end.

(** ** Glob patterns, as the Redis [SCAN ... MATCH] option reads them:
    [*] any run of characters, [?] one character, [[...]] a class with
    ranges and [^] negation, [\x] the character [x] itself. *)

Module Glob.

Inductive token :=
| Star
| Any
| Lit (c : ascii)
| Class (negated : bool) (items : list (ascii * ascii)).

Definition range (a b : ascii) : ascii * ascii :=
  if (nat_of_ascii a <=? nat_of_ascii b)%nat then (a, b) else (b, a).

(** The items of a class, up to the closing bracket, and what follows it. *)
Fixpoint parse_class (p : string) : list (ascii * ascii) * string :=
  match p with
  | EmptyString => ([], EmptyString)
  | String c p1 =>
      if Ascii.eqb c "\" then
        match p1 with
        | String e p2 => let (items, r) := parse_class p2 in ((e, e) :: items, r)
        | EmptyString => ([(c, c)], EmptyString)
        end
      else if Ascii.eqb c "]" then ([], p1)
      else
        match p1 with
        | String d (String hi p3) =>
            if Ascii.eqb d "-" then
              let (items, r) := parse_class p3 in (range c hi :: items, r)
            else let (items, r) := parse_class p1 in ((c, c) :: items, r)
        | _ => let (items, r) := parse_class p1 in ((c, c) :: items, r)
        end
  end.

Fixpoint tokenize (fuel : nat) (p : string) : list token :=
  match fuel with
  | O => []
  | S fuel' =>
      match p with
      | EmptyString => []
      | String c p1 =>
          if Ascii.eqb c "*" then Star :: tokenize fuel' p1
          else if Ascii.eqb c "?" then Any :: tokenize fuel' p1
          else if Ascii.eqb c "[" then
            let '(neg, p2) :=
              match p1 with
              | String d p2 => if Ascii.eqb d "^" then (true, p2) else (false, p1)
              | EmptyString => (false, p1)
              end in
            let '(items, rest) := parse_class p2 in
            Class neg items :: tokenize fuel' rest
          else if Ascii.eqb c "\" then
            match p1 with
            | String e p2 => Lit e :: tokenize fuel' p2
            | EmptyString => [Lit c]
            end
          else Lit c :: tokenize fuel' p1
      end
  end.

Definition compile (p : string) : list token := tokenize (String.length p) p.

Definition in_class (d : ascii) (items : list (ascii * ascii)) : bool :=
  existsb (fun r => (nat_of_ascii (fst r) <=? nat_of_ascii d)%nat
                    && (nat_of_ascii d <=? nat_of_ascii (snd r))%nat) items.

Fixpoint matches (ts : list token) (s : string) : bool :=
  match ts with
  | [] => match s with EmptyString => true | String _ _ => false end
  | Star :: ts' =>
      (fix star (s : string) : bool :=
         matches ts' s ||
         match s with
         | String _ s' => star s'
         | EmptyString => false
         end) s
  | Any :: ts' =>
      match s with
      | String _ s' => matches ts' s'
      | EmptyString => false
      end
  | Lit c :: ts' =>
      match s with
      | String d s' => Ascii.eqb c d && matches ts' s'
      | EmptyString => false
      end
  | Class neg items :: ts' =>
      match s with
      | String d s' => xorb neg (in_class d items) && matches ts' s'
      | EmptyString => false
      end
  end.

Definition glob_match (pattern key : string) : bool := matches (compile pattern) key.

End Glob.
Export Glob.

(** ** The Redis client ([redis_client], a [fakeredis.FakeRedis] with
    [decode_responses=True]).

    The keyspace maps a key to a string value and an optional expiry time
    (milliseconds).  A key is expired once the clock is past its time; an
    expired key is absent for every command and is removed when a command
    touches it (lazy expiry).  Only string values occur in this program. *)

Record entry := Entry { value : string; expires_at : option Z }.

Abbreviation keyspace := (gmap string entry).

Definition expired (now : Z) (e : entry) : bool :=
  match expires_at e with
  | Some t => (t <? now)%Z
  | None => false
  end.

(** The entry a command sees under [key] at time [now]. *)
Definition live (now : Z) (r : keyspace) (key : string) : option entry :=
  match r !! key with
  | Some e => if expired now e then None else Some e
  | None => None
  end.

Definition reap (now : Z) (r : keyspace) (key : string) : keyspace :=
  match r !! key with
  | Some e => if expired now e then delete key r else r
  | None => r
  end.

(** ** Computations: a state, and a result or a raised exception *)

Definition M (S A : Type) : Type := S -> outcome A * S.

Definition ret {S A : Type} (a : A) : M S A := fun s => (Ok a, s).

Definition raise {S A : Type} (e : exn) : M S A := fun s => (Raise e, s).

Definition lift {S A : Type} (o : outcome A) : M S A := fun s => (o, s).

Definition bind {S A B : Type} (m : M S A) (k : A -> M S B) : M S B :=
  fun s =>
    match m s with
    | (Ok a, s') => k a s'
    | (Raise e, s') => (Raise e, s')
    end.

Notation "x <- m ;; k" := (bind m (fun x => k))
  (at level 100, m at next level, right associativity).
Notation "m ;;; k" := (bind m (fun _ => k))
  (at level 100, right associativity).

(** [for x in xs: body(x)] *)
Fixpoint for_each {S A : Type} (xs : list A) (body : A -> M S unit) : M S unit :=
  match xs with
  | [] => ret tt
  | x :: xs' => body x ;;; for_each xs' body
  end.

(** *** Commands *)

Definition INT64_MAX : Z := 9223372036854775807.
Definition INT64_MIN : Z := -9223372036854775808.

(** [GET key] *)
Definition redis_get (now : Z) (key : string) : M keyspace (option string) :=
  fun r => (Ok (value <$> live now r key), reap now r key).

(** The expiry that [SETEX] gives a key: the client keeps it in whole
    seconds, [int(time.time() + seconds)].  On the clock of a run, which is
    not negative, [int] is the floor. *)
Definition setex_time (now seconds : Z) : Z := (now + seconds * 1000) / 1000 * 1000.

(** [SETEX key seconds value]: a time that is not positive is an error and
    nothing is written. *)
Definition redis_setex (now : Z) (key : string) (seconds : Z) (v : string)
  : M keyspace unit :=
  fun r =>
    if (seconds <=? 0)%Z
    then (Raise (ResponseError "invalid expire time in setex"), r)
    else (Ok tt, <[key := Entry v (Some (setex_time now seconds))]> r).

(** [DEL key]: the number of keys removed. *)
Definition redis_delete (now : Z) (key : string) : M keyspace Z :=
  fun r =>
    (Ok match live now r key with Some _ => 1 | None => 0 end, delete key r).

(** The order in which the client returns keys. *)
Definition key_le (a b : string) : Prop := String.leb a b = true.

#[global] Instance key_le_dec (a b : string) : Decision (key_le a b) :=
  decide (String.leb a b = true).

(** [scan_iter(match=pattern)]: a full iteration returns the keys present
    for its whole duration; the keys that the caller deletes have already
    been returned.  It is modelled by the list of the keys that are present
    (not expired) when the iteration starts and match the pattern, sorted
    as the client returns them. *)
Definition redis_scan_iter (now : Z) (pattern : string) : M keyspace (list string) :=
  fun r =>
    (Ok (merge_sort key_le
           (filter (fun k => is_Some (live now r k) /\ glob_match pattern k = true)
              (map_to_list r).*1)), r).

(** [INCR key]: an absent key counts as 0; the expiry of the key is kept. *)
Definition redis_incr (now : Z) (key : string) : M keyspace Z :=
  fun r =>
    match live now r key with
    | None => (Ok 1, <[key := Entry "1" None]> r)
    | Some e =>
        match int_of_text (value e) with
        | Some n =>
            if (INT64_MIN <=? n)%Z && (n <=? INT64_MAX)%Z then
              if (n <? INT64_MAX)%Z
              then (Ok (n + 1), <[key := Entry (str (n + 1)) (expires_at e)]> r)
              else (Raise (ResponseError "increment or decrement would overflow"), r)
            else (Raise (ResponseError "value is not an integer or out of range"), r)
        | None => (Raise (ResponseError "value is not an integer or out of range"), r)
        end
    end.

(** [EXPIRE key seconds]: whether a timeout was set; a time that is not
    positive deletes the key. *)
Definition redis_expire (now : Z) (key : string) (seconds : Z) : M keyspace bool :=
  fun r =>
    match live now r key with
    | None => (Ok false, reap now r key)
    | Some e =>
        if (seconds <=? 0)%Z then (Ok true, delete key r)
        else (Ok true, <[key := Entry (value e) (Some (now + seconds * 1000))]> r)
    end.

(** [int(round(ms / 1000))]: Python rounds a half to the even neighbour. *)
Definition round_seconds (ms : Z) : Z :=
  let q := ms / 1000 in
  let r := ms mod 1000 in
  if (r <? 500)%Z then q
  else if (500 <? r)%Z then q + 1
  else if Z.even q then q else q + 1.

(** [TTL key]: [-2] without the key, [-1] without an expiry, else the
    remaining time rounded to seconds. *)
Definition redis_ttl (now : Z) (key : string) : M keyspace Z :=
  fun r =>
    (Ok match live now r key with
        | None => -2
        | Some e =>
            match expires_at e with
            | None => -1
            | Some t => round_seconds (t - now)
            end
        end, reap now r key).

(** ** Cache helper functions *)

(** [cache_get(key)]: [None] on a miss. *)
Definition cache_get (now : Z) (key : string) : M keyspace json :=
  value <- redis_get now key ;;
  match value with
  | Some text =>
      if negb (String.eqb text EmptyString) then
        match loads text with
        | Some v => ret v
        | None => raise JSONDecodeError
        end
      else ret JNull
  | None => ret JNull
  end.

(** [cache_set(key, value, ttl_seconds=300)] *)
Definition cache_set (now : Z) (key : string) (v : json) (ttl_seconds : Z)
  : M keyspace json :=
  redis_setex now key ttl_seconds (dumps v) ;;;
  ret JNull.

(** [cache_delete(key)] *)
Definition cache_delete (now : Z) (key : string) : M keyspace json :=
  redis_delete now key ;;;
  ret JNull.

(** [cache_delete_pattern(pattern)] *)
Definition cache_delete_pattern (now : Z) (pattern : string) : M keyspace json :=
  keys <- redis_scan_iter now pattern ;;
  for_each keys (fun key => redis_delete now key ;;; ret tt) ;;;
  ret JNull.

(** ** The database session ([db], an SQLAlchemy session on the table
    [products] of an SQLite database).

    A column holds a value of one of SQLite's storage classes: the columns
    are not typed strictly, and an update can leave in a row a value that
    [ProductResponse] does not accept.  The rows are kept in the order of
    their ids, which is the order in which the table is read.  Integers are
    not bounded in this model (the integers of a run are within 64 bits).

    [queries] counts the [db.query(ProductModel)] statements that were run:
    it is the call counter of the loader of the cache-aside strategy.
    [faults] is the schedule of the coming round trips to the database: a
    round trip whose turn is [true] raises.  [reads] says what the database
    and the validation of [ProductResponse] make of a text that is assigned
    to an integer column and is neither a plain decimal integer nor without
    any digit: this depends on the number syntax of both libraries and is
    left open. *)

Inductive cell :=
| NULL
| INTEGER (n : Z)
| TEXT (s : string).

Record ProductModel := {
  id : Z;
  name : cell;
  description : cell;
  price : cell;
  category : cell;
}.

Record ProductCreate := {
  new_name : string;
  new_description : string;
  new_price : Z;
  new_category : string;
}.

(** [price_of_text s]: the [int] that [ProductResponse] reads from [price]
    after the text [s] was written to it, [None] when the row no longer
    validates.  [id_of_text s]: the id that the row takes when [s] is
    assigned to [id], [None] when the database refuses the text. *)
Record lax := Lax {
  price_of_text : string -> option Z;
  id_of_text : string -> option Z;
}.

Record database := Database {
  products : list ProductModel;
  queries : nat;
  faults : list bool;
  reads : lax;
}.

Definition round_trip : M database unit :=
  fun d =>
    match faults d with
    | [] => (Ok tt, d)
    | fault :: rest =>
        let d' := Database (products d) (queries d) rest (reads d) in
        if fault then (Raise (DatabaseError "database round trip failed"), d')
        else (Ok tt, d')
    end.

Definition count_query : M database unit :=
  fun d => (Ok tt, Database (products d) (S (queries d)) (faults d) (reads d)).

Definition rows : M database (list ProductModel) :=
  fun d => (Ok (products d), d).

Definition set_rows (l : list ProductModel) : M database unit :=
  fun d => (Ok tt, Database l (queries d) (faults d) (reads d)).

(** [db.query(ProductModel).filter(ProductModel.id == product_id).first()] *)
Definition query_first (product_id : Z) : M database (option ProductModel) :=
  count_query ;;;
  round_trip ;;;
  l <- rows ;;
  ret (List.find (fun p => (id p =? product_id)%Z) l).

(** [ProductModel.category == category] *)
Definition in_category (c : option string) (p : ProductModel) : bool :=
  match c with
  | Some c =>
      match category p with
      | TEXT s => String.eqb s c
      | _ => false
      end
  | None => true
  end.

(** [query.count()] *)
Definition query_count (c : option string) : M database Z :=
  count_query ;;;
  round_trip ;;;
  l <- rows ;;
  ret (Z.of_nat (length (List.filter (in_category c) l))).

(** [query.offset(offset).limit(limit).all()] *)
Definition query_all (c : option string) (offset limit : Z)
  : M database (list ProductModel) :=
  count_query ;;;
  round_trip ;;;
  l <- rows ;;
  ret (take (Z.to_nat limit) (drop (Z.to_nat offset) (List.filter (in_category c) l))).

Definition next_id (l : list ProductModel) : Z :=
  1 + fold_right (fun p m => Z.max (id p) m) 0 l.

(** [db.add(db_product); db.commit(); db.refresh(db_product)] *)
Definition add_commit_refresh (product : ProductCreate) : M database ProductModel :=
  round_trip ;;;
  l <- rows ;;
  let db_product :=
    {| id := next_id l; name := TEXT (new_name product);
       description := TEXT (new_description product);
       price := INTEGER (new_price product);
       category := TEXT (new_category product) |} in
  set_rows (l ++ [db_product]) ;;;
  round_trip ;;;
  ret db_product.

(** *** Updates *)

Definition cell_value (c : cell) : json :=
  match c with
  | NULL => JNull
  | INTEGER n => JInt n
  | TEXT s => JStr s
  end.

(** The attributes of a loaded row, as the Python values they are. *)
Record attributes := {
  attr_id : json;
  attr_name : json;
  attr_description : json;
  attr_price : json;
  attr_category : json;
}.

Definition loaded (p : ProductModel) : attributes :=
  {| attr_id := JInt (id p); attr_name := cell_value (name p);
     attr_description := cell_value (description p);
     attr_price := cell_value (price p);
     attr_category := cell_value (category p) |}.

(** [if hasattr(product, key): setattr(product, key, value)], for the
    columns of the table: the attribute takes the value as it is.  A name
    that is not a column changes nothing that is stored. *)
Definition setattr (o : attributes) (key : string) (v : json) : attributes :=
  if String.eqb key "id" then
    {| attr_id := v; attr_name := attr_name o; attr_description := attr_description o;
       attr_price := attr_price o; attr_category := attr_category o |}
  else if String.eqb key "name" then
    {| attr_id := attr_id o; attr_name := v; attr_description := attr_description o;
       attr_price := attr_price o; attr_category := attr_category o |}
  else if String.eqb key "description" then
    {| attr_id := attr_id o; attr_name := attr_name o; attr_description := v;
       attr_price := attr_price o; attr_category := attr_category o |}
  else if String.eqb key "price" then
    {| attr_id := attr_id o; attr_name := attr_name o;
       attr_description := attr_description o;
       attr_price := v; attr_category := attr_category o |}
  else if String.eqb key "category" then
    {| attr_id := attr_id o; attr_name := attr_name o;
       attr_description := attr_description o;
       attr_price := attr_price o; attr_category := v |}
  else o.

(** [for key, value in updates.items(): ...] *)
Fixpoint apply_updates (o : attributes) (updates : list (string * json)) : attributes :=
  match updates with
  | [] => o
  | (key, v) :: rest => apply_updates (setattr o key v) rest
  end.

Fixpoint has_digit (s : string) : bool :=
  match s with
  | EmptyString => false
  | String c s' => is_digit c || has_digit s'
  end.

(** What SQLite stores in a column of TEXT affinity ([VARCHAR]) for a value
    that the driver binds: a number as its text.  [None]: the driver does
    not bind the value (a list or a dict). *)
Definition text_affinity (v : json) : option cell :=
  match v with
  | JNull => Some NULL
  | JBool b => Some (TEXT (if b then "1" else "0"))
  | JInt n => Some (TEXT (str n))
  | JStr s => Some (TEXT s)
  | JList _ | JDict _ => None
  end.

(** What is read back from a column of INTEGER affinity: a text that is a
    decimal integer is stored as that integer, a text without a digit stays
    a text; for another text see [price_of_text]. *)
Definition integer_affinity (r : lax) (v : json) : option cell :=
  match v with
  | JNull => Some NULL
  | JBool b => Some (INTEGER (if b then 1 else 0))
  | JInt n => Some (INTEGER n)
  | JStr s =>
      Some match int_of_text s with
           | Some n =>
               if (INT64_MIN <=? n)%Z && (n <=? INT64_MAX)%Z then INTEGER n
               else match price_of_text r s with
                    | Some n' => INTEGER n'
                    | None => TEXT s
                    end
           | None =>
               if has_digit s then
                 match price_of_text r s with
                 | Some n' => INTEGER n'
                 | None => TEXT s
                 end
               else TEXT s
           end
  | JList _ | JDict _ => None
  end.

(** The id that an assignment to the primary key gives the row.  [None]:
    the update is refused ([None] for the key, a text that is not an
    integer, a value that the driver does not bind). *)
Definition primary_key (r : lax) (v : json) : option Z :=
  match v with
  | JInt n => Some n
  | JBool b => Some (if b then 1 else 0)
  | JStr s => if has_digit s then id_of_text r s else None
  | JNull | JList _ | JDict _ => None
  end.

(** The row that the [UPDATE] of a flush writes for the attributes. *)
Definition flushed (r : lax) (o : attributes) : option ProductModel :=
  match primary_key r (attr_id o), text_affinity (attr_name o),
        text_affinity (attr_description o), integer_affinity r (attr_price o),
        text_affinity (attr_category o) with
  | Some i, Some n, Some d, Some p, Some c =>
      Some {| id := i; name := n; description := d; price := p; category := c |}
  | _, _, _, _, _ => None
  end.

Fixpoint insert_row (p : ProductModel) (l : list ProductModel) : list ProductModel :=
  match l with
  | [] => [p]
  | q :: l' => if (id p <? id q)%Z then p :: l else q :: insert_row p l'
  end.

(** The table after the row with the id [old_id] has become [p']: the rows
    are read in the order of their ids. *)
Definition replace_row (old_id : Z) (p' : ProductModel) (l : list ProductModel)
  : list ProductModel :=
  insert_row p' (List.filter (fun p => negb (id p =? old_id)%Z) l).

(** The [db.commit(); db.refresh(product)] that follow the assignments. *)
Definition commit_refresh (old : ProductModel) (o : attributes)
  : M database ProductModel :=
  fun d =>
    match flushed (reads d) o with
    | None => (Raise (DatabaseError "the update is refused"), d)
    | Some p' =>
        (round_trip ;;;
         l <- rows ;;
         if negb (id p' =? id old)%Z
            && existsb (fun p => (id p =? id p')%Z) l
         then raise (DatabaseError "UNIQUE constraint failed: products.id")
         else
           set_rows (replace_row (id old) p' l) ;;;
           round_trip ;;;
           ret p') d
    end.

(** [db.delete(product); db.commit()] *)
Definition delete_commit (product : ProductModel) : M database unit :=
  round_trip ;;;
  l <- rows ;;
  set_rows (List.filter (fun p => negb (id p =? id product)%Z) l).

(** The attributes of a row as a dict. *)
Definition product_dict (p : ProductModel) : json :=
  JDict [("id", JInt (id p)); ("name", cell_value (name p));
         ("description", cell_value (description p));
         ("price", cell_value (price p));
         ("category", cell_value (category p))].

(** [ProductResponse] accepts the row: an [int] for [price], a [str] for
    [name], [description] and [category]. *)
Definition validates (p : ProductModel) : bool :=
  match name p, description p, price p, category p with
  | TEXT _, TEXT _, INTEGER _, TEXT _ => true
  | _, _, _, _ => false
  end.

(** [ProductResponse.from_orm(product).dict()] *)
Definition from_orm (p : ProductModel) : outcome json :=
  if validates p then Ok (product_dict p) else Raise ValidationError.

(** [[ProductResponse.from_orm(p).dict() for p in products]] *)
Fixpoint from_orm_all (l : list ProductModel) : outcome (list json) :=
  match l with
  | [] => Ok []
  | p :: l' =>
      match from_orm p with
      | Ok product_data =>
          match from_orm_all l' with
          | Ok data => Ok (product_data :: data)
          | Raise e => Raise e
          end
      | Raise e => Raise e
      end
  end.

(** ** The application: a database session and the Redis client *)

Record world := World { db : database; cache : keyspace }.

Definition on_db {A : Type} (m : M database A) : M world A :=
  fun w => let (a, d) := m (db w) in (a, World d (cache w)).

Definition on_cache {A : Type} (m : M keyspace A) : M world A :=
  fun w => let (a, r) := m (cache w) in (a, World (db w) r).

Definition not_found {A : Type} : M world A :=
  raise (HTTPException 404 "Product not found" []).

(** *** Section 1: cache aside *)

Definition cache_hit_response (cached : json) : json :=
  JDict [("source", JStr "🟢 CACHE HIT (Redis) - No database query!");
         ("product", cached);
         ("latency", JStr "~0.1ms")].

Definition cache_miss_response (product_data : json) : json :=
  JDict [("source", JStr "🔴 CACHE MISS - Queried database, stored in cache");
         ("product", product_data);
         ("latency", JStr "~50ms");
         ("note", JStr "Next request will be a CACHE HIT (0.1ms)")].

Definition get_product_cache_aside (now : Z) (product_id : Z) : M world json :=
  let cache_key := "product:" +:+ str product_id in
  cached <- on_cache (cache_get now cache_key) ;;
  if truthy cached then ret (cache_hit_response cached)
  else
    product <- on_db (query_first product_id) ;;
    match product with
    | None => not_found
    | Some product =>
        product_data <- lift (from_orm product) ;;
        on_cache (cache_set now cache_key product_data 3600) ;;;
        ret (cache_miss_response product_data)
    end.

(** *** Section 2: write through *)

Definition create_product_write_through (now : Z) (product : ProductCreate)
  : M world json :=
  db_product <- on_db (add_commit_refresh product) ;;
  product_data <- lift (from_orm db_product) ;;
  let cache_key := "product:" +:+ str (id db_product) in
  on_cache (cache_set now cache_key product_data 3600) ;;;
  on_cache (cache_delete_pattern now "products:list:*") ;;;
  ret (JDict [("strategy", JStr "WRITE THROUGH");
              ("product", product_data);
              ("cache_updated", JBool true);
              ("note", JStr "Database AND cache updated simultaneously")]).

Definition update_product_write_through (now : Z) (product_id : Z)
  (updates : list (string * json)) : M world json :=
  product <- on_db (query_first product_id) ;;
  match product with
  | None => not_found
  | Some product =>
      product' <- on_db (commit_refresh product (apply_updates (loaded product) updates)) ;;
      product_data <- lift (from_orm product') ;;
      on_cache (cache_set now ("product:" +:+ str product_id) product_data 3600) ;;;
      ret (JDict [("strategy", JStr "WRITE THROUGH");
                  ("product", product_data);
                  ("cache_updated", JBool true)])
  end.

(** *** Section 4: session storage (logout) *)

Definition logout_session (now : Z) (session_token : string) : M keyspace json :=
  deleted <- redis_delete now ("session:" +:+ session_token) ;;
  if (deleted =? 0)%Z then raise (HTTPException 404 "Session not found" [])
  else ret (JDict [("message", JStr "Logged out successfully");
                   ("session_revoked", JBool true);
                   ("note", JStr "Session token is now invalid immediately")]).

(** *** Section 5: rate limiting *)

Definition RATE_LIMIT : Z := 10.

(** The counter of the window: [INCR], then [EXPIRE] on the first request.
    [window] is the literal 60 of the source. *)
Definition count_request (now : Z) (rate_key : string) (window : Z) : M keyspace Z :=
  request_count <- redis_incr now rate_key ;;
  (if (request_count =? 1)%Z
   then redis_expire now rate_key window ;;; ret tt
   else ret tt) ;;;
  ret request_count.

Definition rate_key_of (now : Z) (client_ip : string) : string :=
  let current_minute := Z.quot now 60000 in
  "rate:" +:+ client_ip +:+ ":" +:+ str current_minute.

(** The [HTTPException] of a refused request. *)
Definition too_many_requests (ttl : Z) : exn :=
  HTTPException 429
    ("Rate limit exceeded. Try again in " +:+ str ttl +:+ " seconds.")
    [("Retry-After", str ttl)].

Definition search_results (query : string) : json :=
  JList (List.map
           (fun i => JDict [("result",
                             JStr ("Result for '" +:+ query +:+ "' #" +:+ str i))])
           [0; 1; 2]).

Definition search_response (query : string) (request_count resets_in : Z) : json :=
  JDict [("query", JStr query);
         ("results", search_results query);
         ("rate_limit_status",
          JDict [("requests_this_minute", JInt request_count);
                 ("limit", JInt RATE_LIMIT);
                 ("remaining", JInt (RATE_LIMIT - request_count));
                 ("resets_in", JStr (str resets_in +:+ " seconds"))])].

Definition rate_limited_search (now : Z) (client_ip query : string) : M keyspace json :=
  let rate_key := rate_key_of now client_ip in
  request_count <- count_request now rate_key 60 ;;
  if (RATE_LIMIT <? request_count)%Z then
    ttl <- redis_ttl now rate_key ;;
    raise (too_many_requests ttl)
  else
    resets_in <- redis_ttl now rate_key ;;
    ret (search_response query request_count resets_in).

(** *** Section 6: database query caching *)

Definition pad2 (n : Z) : string := if (n <? 10)%Z then "0" +:+ str n else str n.

(** [time.strftime("%H:%M:%S")], read on the UTC clock. *)
Definition strftime_HMS (now : Z) : string :=
  let s := (now / 1000) mod 86400 in
  pad2 (s / 3600) +:+ ":" +:+ pad2 ((s / 60) mod 60) +:+ ":" +:+ pad2 (s mod 60).

(** [{"source": source, **cached}] *)
Definition with_source (source : string) (cached : list (string * json)) : json :=
  JDict (fold_left (fun d kv => dict_set d (fst kv) (snd kv)) cached
           [("source", JStr source)]).

Definition list_cache_key (c : option string) (page limit : Z) : string :=
  "products:list:" +:+
  match c with
  | Some c => if String.eqb c EmptyString then "all" else c
  | None => "all"
  end +:+ ":page" +:+ str page +:+ ":limit" +:+ str limit.

(** [page] and [limit] are checked by the framework ([ge=1], [le=100])
    before the handler runs; a refused request is answered with status 422. *)
Definition get_products_with_cache (now : Z) (c : option string) (page limit : Z)
  : M world json :=
  if negb ((1 <=? page)%Z && (1 <=? limit)%Z && (limit <=? 100)%Z)
  then raise (HTTPException 422 "Unprocessable Entity" [])
  else
    let cache_key := list_cache_key c page limit in
    cached <- on_cache (cache_get now cache_key) ;;
    if truthy cached then
      match cached with
      | JDict items => ret (with_source "🟢 CACHE HIT - No database query!" items)
      | _ => raise (TypeError "argument after ** must be a mapping")
      end
    else
      let c := match c with
               | Some s => if String.eqb s EmptyString then None else Some s
               | None => None
               end in
      total <- on_db (query_count c) ;;
      products <- on_db (query_all c ((page - 1) * limit) limit) ;;
      data <- lift (from_orm_all products) ;;
      let result :=
        [("data", JList data);
         ("total", JInt total);
         ("page", JInt page);
         ("cached_at", JStr (strftime_HMS now))] in
      on_cache (cache_set now cache_key (JDict result) 300) ;;;
      ret (with_source "🔴 CACHE MISS - Queried database" result).

(** *** Section 8: cache invalidation *)

(** The loop over [scan_iter("products:list:*")]: the keys it appended to
    [invalidated] and its [count]. *)
Fixpoint delete_scanned (now : Z) (keys : list string) (invalidated : list string)
  (count : Z) : M keyspace (list string * Z) :=
  match keys with
  | [] => ret (invalidated, count)
  | key :: keys' =>
      redis_delete now key ;;;
      delete_scanned now keys' (invalidated ++ [key])%list (count + 1)
  end.

Definition invalidate_product (now : Z) (product_id : Z) : M keyspace (list string * Z) :=
  let invalidated : list string := [] in
  cache_delete now ("product:" +:+ str product_id) ;;;
  let invalidated := (invalidated ++ ["product:" +:+ str product_id])%list in
  let count := 0 in
  keys <- redis_scan_iter now "products:list:*" ;;
  delete_scanned now keys invalidated count.

Definition delete_product_with_cache_invalidation (now : Z) (product_id : Z)
  : M world json :=
  product <- on_db (query_first product_id) ;;
  match product with
  | None => not_found
  | Some product =>
      on_db (delete_commit product) ;;;
      r <- on_cache (invalidate_product now product_id) ;;
      ret (JDict [("message", JStr "Product deleted");
                  ("cache_invalidated", JList (List.map JStr (fst r)));
                  ("note", JStr "All related cache keys cleared to prevent stale data")])
  end.

(** *** Seed data *)

Definition seed_products : list ProductModel :=
  [ {| id := 1; name := TEXT "MacBook Pro"; description := TEXT "Apple laptop";
       price := INTEGER 199900; category := TEXT "electronics" |};
    {| id := 2; name := TEXT "iPhone 15"; description := TEXT "Apple phone";
       price := INTEGER 99900; category := TEXT "electronics" |};
    {| id := 3; name := TEXT "Python Book"; description := TEXT "Learn Python";
       price := INTEGER 3999; category := TEXT "books" |};
    {| id := 4; name := TEXT "FastAPI Guide"; description := TEXT "Learn FastAPI";
       price := INTEGER 2999; category := TEXT "books" |} ].

(** A reading, for the examples, that takes no text for an integer. *)
Definition no_text : lax := Lax (fun _ => None) (fun _ => None).

Definition seeded : world := World (Database seed_products 0 [] no_text) ∅.

(** ** Notions used to state the properties *)

(** What [cache_get] answers for an entry. *)
Definition decode (e : option entry) : outcome json :=
  match e with
  | Some e =>
      if String.eqb (value e) EmptyString then Ok JNull
      else match loads (value e) with
           | Some v => Ok v
           | None => Raise JSONDecodeError
           end
  | None => Ok JNull
  end.

(** What [cache_get] returns for a key that is not in the cache. *)
Definition Miss : outcome json := Ok JNull.


(** The keys that a scan with [pattern] returns at time [now]. *)
Definition scanned (now : Z) (pattern : string) (r : keyspace) (k : string) : Prop :=
  is_Some (live now r k) /\ glob_match pattern k = true.

(** The keyspace after [DEL] of each key of a list. *)
Definition delete_all (keys : list string) (r : keyspace) : keyspace :=
  fold_left (fun r k => delete k r) keys r.

(** The helper answers with the number of keys it removed. *)
Definition returns_removed_count (now : Z) (pattern : string) (r : keyspace) : Prop :=
  let (res, r') := cache_delete_pattern now pattern r in
  res = Ok (JInt (Z.of_nat (size r - size r'))).

(** The helper answers true when it removed the key and false when the key
    was absent. *)
Definition reports_removal (now : Z) (key : string) (r : keyspace) : Prop :=
  exists v, fst (cache_delete now key r) = Ok v /\
            truthy v = bool_decide (is_Some (live now r key)).

Definition cached_lists : keyspace :=
  <["products:list:all:page1:limit10" := Entry "{}" (Some 300000)]>
  (<["products:list:books:page1:limit10" := Entry "{}" (Some 300000)]>
  (<["product:1" := Entry "{}" (Some 3600000)]> ∅)).

(** Requests for the search endpoint, served one after the other, each at
    its own time. *)
Fixpoint serve_searches (times : list Z) (client_ip query : string) (r : keyspace)
  : list (outcome json) * keyspace :=
  match times with
  | [] => ([], r)
  | t :: times' =>
      let (o, r1) := rate_limited_search t client_ip query r in
      let (os, r2) := serve_searches times' client_ip query r1 in
      (o :: os, r2)
  end.

Definition allowed (o : outcome json) : bool :=
  match o with
  | Ok _ => true
  | Raise _ => false
  end.

(** The ["remaining"] of the rate limit status of a response. *)
Definition remaining (o : outcome json) : option Z :=
  match o with
  | Ok (JDict [_; _; (_, JDict [_; _; (_, JInt n); _])]) => Some n
  | _ => None
  end.

(** The answer to the request number [count] of a window, [ttl] being the
    seconds that the client reports for the counter. *)
Definition search_outcome (query : string) (count ttl : Z) : outcome json :=
  if (count <=? RATE_LIMIT)%Z then Ok (search_response query count ttl)
  else Raise (too_many_requests ttl).

(** The seconds left, at [t], to a window opened at [t0]. *)
Definition window_ttl (t0 t : Z) : Z := round_seconds (t0 + 60000 - t).

Fixpoint search_outcomes (t0 : Z) (query : string) (count : Z) (times : list Z)
  : list (outcome json) :=
  match times with
  | [] => []
  | t :: times' =>
      search_outcome query count (window_ttl t0 t)
      :: search_outcomes t0 query (count + 1) times'
  end.

(** Of six requests, the first five are allowed and the sixth is refused. *)
Definition sixth_refused (outs : list (outcome json)) : Prop :=
  allowed <$> outs = [true; true; true; true; true; false].

Definition product_key (product_id : Z) : string := "product:" +:+ str product_id.


(** Requests for one product, served one after the other, each at its own
    time. *)
Fixpoint serve_products (times : list Z) (product_id : Z) (w : world)
  : list (outcome json) * world :=
  match times with
  | [] => ([], w)
  | t :: times' =>
      let (o, w1) := get_product_cache_aside t product_id w in
      let (os, w2) := serve_products times' product_id w1 in
      (o :: os, w2)
  end.

(** The response says that it was served from the cache. *)
Definition is_hit (o : outcome json) : bool :=
  match o with
  | Ok (JDict ((_, JStr source) :: _)) =>
      String.eqb source "🟢 CACHE HIT (Redis) - No database query!"
  | _ => false
  end.


(** A world whose next round trip to the database fails. *)
Definition failing : world := World (Database seed_products 0 [true] no_text) cached_lists.


(** ** The other handlers of the lecture file *)

(** *** Python helpers *)

(** [str.lower()], on code points below 256. *)
Definition lower_char (c : ascii) : ascii :=
  let n := nat_of_ascii c in
  if ((65 <=? n) && (n <=? 90) || (192 <=? n) && (n <=? 214)
      || (216 <=? n) && (n <=? 222))%nat
  then ascii_of_nat (n + 32)
  else c.

Fixpoint lower (s : string) : string :=
  match s with
  | EmptyString => EmptyString
  | String c s' => String (lower_char c) (lower s')
  end.

Fixpoint dict_get (items : list (string * json)) (key : string) : option json :=
  match items with
  | [] => None
  | (k, v) :: items' => if String.eqb k key then Some v else dict_get items' key
  end.

(** [v[key]] for a string [key]. *)
Definition subscript (v : json) (key : string) : outcome json :=
  match v with
  | JDict items =>
      match dict_get items key with
      | Some x => Ok x
      | None => Raise (KeyError key)
      end
  | JList _ => Raise (TypeError "list indices must be integers or slices, not str")
  | JStr _ => Raise (TypeError "string indices must be integers")
  | JInt _ => Raise (TypeError "'int' object is not subscriptable")
  | JBool _ => Raise (TypeError "'bool' object is not subscriptable")
  | JNull => Raise (TypeError "'NoneType' object is not subscriptable")
  end.

(** [str(time.time())] on the millisecond clock: the seconds, a point, and
    the milliseconds without their trailing zeros. *)
Definition time_repr (now : Z) : string :=
  let a := Z.abs now in
  let ms := a mod 1000 in
  (if (now <? 0)%Z then "-" else EmptyString) +:+ str (a / 1000) +:+ "." +:+
  (if (ms mod 100 =? 0)%Z then str (ms / 100)
   else if (ms mod 10 =? 0)%Z then pad2 (ms / 10)
   else (if (ms <? 100)%Z then "0" else EmptyString) +:+ pad2 ms).

(** *** Section 3: TTL (trending topics, weather) *)

Definition trending_topics : json :=
  JList [JStr "#Python"; JStr "#FastAPI"; JStr "#Redis"; JStr "#Caching"; JStr "#Backend"].

(** [time.sleep(0.1)] moves the clock by 100 milliseconds before the topics
    are computed and stored. *)
Definition get_trending_topics (now : Z) : M keyspace json :=
  let cache_key := "trending:topics" in
  cached <- cache_get now cache_key ;;
  if truthy cached then
    ttl_remaining <- redis_ttl now cache_key ;;
    topics <- lift (subscript cached "topics") ;;
    ret (JDict [("source", JStr "🟢 CACHE HIT");
                ("topics", topics);
                ("ttl_remaining_seconds", JInt ttl_remaining);
                ("note", JStr ("Cache expires in " +:+ str ttl_remaining
                               +:+ "s. No expensive computation!"))])
  else
    let now := now + 100 in
    let trending :=
      JDict [("topics", trending_topics);
             ("computed_at", JStr (strftime_HMS now));
             ("computation_cost", JStr "Very expensive! (simulated)")] in
    cache_set now cache_key trending 300 ;;;
    topics <- lift (subscript trending "topics") ;;
    ret (JDict [("source", JStr "🔴 CACHE MISS - Computed trending topics");
                ("topics", topics);
                ("cached_for", JStr "300 seconds");
                ("note", JStr "Next 300 seconds → instant responses from cache")]).

Definition weather_key (city : string) : string := "weather:" +:+ lower city.

Definition weather_data (now : Z) (city : string) : json :=
  JDict [("city", JStr city);
         ("temperature", JInt 18);
         ("condition", JStr "Partly cloudy");
         ("humidity", JInt 65);
         ("fetched_at", JStr (strftime_HMS now))].

Definition weather_hit (city : string) (cached : json) (ttl_remaining : Z) : json :=
  JDict [("source", JStr "🟢 CACHE HIT - No external API call!");
         ("city", JStr city);
         ("weather", cached);
         ("ttl_remaining", JInt ttl_remaining);
         ("savings", JStr "Saved 1 API call (rate limit + cost)")].

Definition weather_miss (city : string) (data : json) : json :=
  JDict [("source", JStr "🔴 CACHE MISS - Called external weather API");
         ("city", JStr city);
         ("weather", data);
         ("cached_for", JStr "600 seconds (10 minutes)")].

Definition get_weather (now : Z) (city : string) : M keyspace json :=
  let cache_key := weather_key city in
  cached <- cache_get now cache_key ;;
  if truthy cached then
    ttl_remaining <- redis_ttl now cache_key ;;
    ret (weather_hit city cached ttl_remaining)
  else
    let data := weather_data now city in
    cache_set now cache_key data 600 ;;;
    ret (weather_miss city data).

(** *** Section 4: session storage (login, me) *)

Definition session_key (session_token : string) : string :=
  "session:" +:+ session_token.

(** The [user_id] and [role] of the two accounts of the lecture. *)
Definition credentials (username password : string) : option (Z * string) :=
  if String.eqb username "alice" && String.eqb password "password123"
  then Some (1, "user")
  else if String.eqb username "admin" && String.eqb password "admin123"
  then Some (99, "admin")
  else None.

Definition session_data (now : Z) (user_id : Z) (username role : string) : json :=
  JDict [("user_id", JInt user_id);
         ("username", JStr username);
         ("role", JStr role);
         ("created_at", JStr (strftime_HMS now))].

Definition login_response (session_token : string) : json :=
  JDict [("session_token", JStr session_token);
         ("expires_in", JStr "30 minutes");
         ("storage", JStr "Redis (in-memory) - NOT database");
         ("benefit", JStr "All auth checks now ~0.1ms instead of ~50ms")].

(** [sha256_hexdigest] is [hashlib.sha256(text.encode()).hexdigest()]. *)
Definition new_session_token (sha256_hexdigest : string -> string) (now : Z)
  (username : string) : string :=
  sha256_hexdigest (username +:+ time_repr now).

Definition login_with_session (sha256_hexdigest : string -> string) (now : Z)
  (username password : string) : M keyspace json :=
  match credentials username password with
  | None => raise (HTTPException 401 "Invalid credentials" [])
  | Some (user_id, role) =>
      let session_token := new_session_token sha256_hexdigest now username in
      redis_setex now (session_key session_token) 1800
        (dumps (session_data now user_id username role)) ;;;
      ret (login_response session_token)
  end.

Definition session_user_response (user : json) (ttl : Z) : json :=
  JDict [("user", user);
         ("session_expires_in", JStr (str ttl +:+ " seconds"));
         ("source", JStr "Redis (in-memory) - No DB query!");
         ("latency", JStr "~0.1ms")].

Definition get_session_user (now : Z) (session_token : string) : M keyspace json :=
  session_data <- redis_get now (session_key session_token) ;;
  match session_data with
  | None => raise (HTTPException 401 "Session expired or invalid" [])
  | Some text =>
      if String.eqb text EmptyString
      then raise (HTTPException 401 "Session expired or invalid" [])
      else
        match loads text with
        | None => raise JSONDecodeError
        | Some user =>
            ttl <- redis_ttl now (session_key session_token) ;;
            ret (session_user_response user ttl)
        end
  end.

(** *** Section 7: HTTP caching (ETags) *)

Record Response := {
  status_code : Z;
  content : string;
  media_type : option string;
  headers : list (string * string);
}.

Fixpoint insert_sorted (kv : string * json) (l : list (string * json))
  : list (string * json) :=
  match l with
  | [] => [kv]
  | kv' :: l' =>
      if String.leb (fst kv) (fst kv') then kv :: l else kv' :: insert_sorted kv l'
  end.

(** The value that [json.dumps(v, sort_keys=True)] writes: every dict with
    its items in the order of their keys. *)
Fixpoint sort_keys (v : json) : json :=
  match v with
  | JList l => JList (List.map sort_keys l)
  | JDict l =>
      JDict (fold_right insert_sorted []
               (List.map (fun kv => (fst kv, sort_keys (snd kv))) l))
  | _ => v
  end.

(** [md5_hexdigest] is [hashlib.md5(text.encode()).hexdigest()]. *)
Definition etag_of (md5_hexdigest : string -> string) (product_data : json) : string :=
  String quote (md5_hexdigest (dumps (sort_keys product_data))) +:+ String quote EmptyString.

Definition etag_body (product_data : json) (etag : string) : json :=
  JDict [("product", product_data);
         ("caching_info",
          JDict [("etag", JStr etag);
                 ("instruction",
                  JStr ("Send 'If-None-Match: " +:+ etag +:+ "' on next request"));
                 ("benefit",
                  JStr "If unchanged, server returns 304 (no body = saves bandwidth)")])].

Definition get_product_with_etag (md5_hexdigest : string -> string)
  (product_id : Z) (if_none_match : option string) : M world Response :=
  product <- on_db (query_first product_id) ;;
  match product with
  | None => not_found
  | Some product =>
      product_data <- lift (from_orm product) ;;
      let etag := etag_of md5_hexdigest product_data in
      let client_etag := if_none_match in
      if bool_decide (client_etag = Some etag) then
        ret {| status_code := 304; content := EmptyString; media_type := None;
               headers := [("ETag", etag)] |}
      else
        ret {| status_code := 200;
               content := dumps (etag_body product_data etag);
               media_type := Some "application/json";
               headers := [("ETag", etag); ("Cache-Control", "max-age=3600")] |}
  end.

(** *** Seed data (startup) *)

Definition seed_data : list ProductCreate :=
  [ {| new_name := "MacBook Pro"; new_description := "Apple laptop";
       new_price := 199900; new_category := "electronics" |};
    {| new_name := "iPhone 15"; new_description := "Apple phone";
       new_price := 99900; new_category := "electronics" |};
    {| new_name := "Python Book"; new_description := "Learn Python";
       new_price := 3999; new_category := "books" |};
    {| new_name := "FastAPI Guide"; new_description := "Learn FastAPI";
       new_price := 2999; new_category := "books" |} ].

(** [db.add_all(products)]: each row gets the next id of the table. *)
Definition add_all (ps : list ProductCreate) (l : list ProductModel)
  : list ProductModel :=
  fold_left
    (fun l p => l ++ [ {| id := next_id l; name := TEXT (new_name p);
                          description := TEXT (new_description p);
                          price := INTEGER (new_price p);
                          category := TEXT (new_category p) |} ])%list
    ps l.

Definition seed : M database unit :=
  n <- query_count None ;;
  if (n =? 0)%Z then
    round_trip ;;;
    l <- rows ;;
    set_rows (add_all seed_data l)
  else ret tt.

(** ** Notions used to state the further properties *)

(** [category or 'all'] *)
Definition category_text (c : option string) : string :=
  match c with
  | Some c => if String.eqb c EmptyString then "all" else c
  | None => "all"
  end.

(** The category that the query of a miss filters on. *)
Definition category_filter (c : option string) : option string :=
  match c with
  | Some s => if String.eqb s EmptyString then None else Some s
  | None => None
  end.

(** The rows of one page of a category. *)
Definition page_rows (c : option string) (page limit : Z) (l : list ProductModel)
  : list ProductModel :=
  take (Z.to_nat limit)
    (drop (Z.to_nat ((page - 1) * limit)) (List.filter (in_category (category_filter c)) l)).

Definition list_result (now : Z) (c : option string) (page limit : Z)
  (l : list ProductModel) : list (string * json) :=
  [("data", JList (List.map product_dict (page_rows c page limit l)));
   ("total", JInt (Z.of_nat (length (List.filter (in_category (category_filter c)) l))));
   ("page", JInt page);
   ("cached_at", JStr (strftime_HMS now))].

Fixpoint has_colon (s : string) : bool :=
  match s with
  | EmptyString => false
  | String c s' => Ascii.eqb c ":" || has_colon s'
  end.

(** A toy digest for the examples: the text itself. *)
Definition plain_digest (text : string) : string := text.

Definition trending_data (now : Z) : json :=
  JDict [("topics", trending_topics);
         ("computed_at", JStr (strftime_HMS now));
         ("computation_cost", JStr "Very expensive! (simulated)")].

Definition trending_hit (topics : json) (ttl_remaining : Z) : json :=
  JDict [("source", JStr "🟢 CACHE HIT");
         ("topics", topics);
         ("ttl_remaining_seconds", JInt ttl_remaining);
         ("note", JStr ("Cache expires in " +:+ str ttl_remaining
                        +:+ "s. No expensive computation!"))].

Definition trending_miss : json :=
  JDict [("source", JStr "🔴 CACHE MISS - Computed trending topics");
         ("topics", trending_topics);
         ("cached_for", JStr "300 seconds");
         ("note", JStr "Next 300 seconds → instant responses from cache")].

Definition logout_response : json :=
  JDict [("message", JStr "Logged out successfully");
         ("session_revoked", JBool true);
         ("note", JStr "Session token is now invalid immediately")].

Definition session_invalid : exn := HTTPException 401 "Session expired or invalid" [].

Definition session_not_found : exn := HTTPException 404 "Session not found" [].

(** A computation on the keyspace that works on one key: it leaves every
    other key as it is, and its result and what it leaves under the key
    depend on nothing but the entry under the key. *)
Definition touches_only {A : Type} (key : string) (m : M keyspace A) : Prop :=
  forall r : keyspace,
    (forall k, k <> key -> snd (m r) !! k = r !! k) /\
    (forall r' : keyspace, r !! key = r' !! key ->
       fst (m r) = fst (m r') /\ snd (m r) !! key = snd (m r') !! key).

(** The rows that the page query of a list request returns. *)
Definition page_of (c : option string) (limit : Z) (d : database) (page : Z)
  : list ProductModel :=
  match fst (query_all c ((page - 1) * limit) limit d) with
  | Ok l => l
  | Raise _ => []
  end.

(** The pages 1 to [n], one after the other. *)
Definition pages_upto (c : option string) (limit : Z) (d : database) (n : nat)
  : list ProductModel :=
  concat (List.map (fun page => page_of c limit d (Z.of_nat page)) (seq 1 n)).

(** A handler that changes no row of the products table. *)
Definition changes_no_row {A : Type} (m : M world A) : Prop :=
  forall w, products (db (snd (m w))) = products (db w).


Definition product_not_found : exn := HTTPException 404 "Product not found" [].

(** The text that the ETag of a product is the digest of. *)
Definition etag_text (p : ProductModel) : string := dumps (sort_keys (product_dict p)).

Definition update_response (p : ProductModel) : json :=
  JDict [("strategy", JStr "WRITE THROUGH");
         ("product", product_dict p);
         ("cache_updated", JBool true)].
(** ** Round trip of the text formats *)

#[local] Arguments String.append !s1 s2 / : simpl nomatch.

Lemma append_assoc (a b c : string) : (a +:+ b) +:+ c = a +:+ (b +:+ c).
Proof. induction a; simpl; congruence. Qed.

Lemma append_length (a b : string) :
  String.length (a +:+ b) = (String.length a + String.length b)%nat.
Proof. induction a; simpl; congruence. Qed.

Lemma to_int_proper n : Z.to_int n <> Decimal.Pos Decimal.Nil /\ Z.to_int n <> Decimal.Neg Decimal.Nil.
Proof.
  destruct n as [|p|p]; simpl; split; try discriminate;
    intros [= H]; exact (Unsigned.to_uint_nonnil p H).
Qed.

Lemma int_of_text_str n : int_of_text (str n) = Some n.
Proof.
  unfold int_of_text, str.
  destruct (to_int_proper n) as [H1 H2].
  rewrite NilZero.isi by assumption.
  rewrite DecimalZ.of_to. now rewrite String.eqb_refl.
Qed.

Lemma int_of_text_canonical s n : int_of_text s = Some n -> s = str n.
Proof.
  unfold int_of_text. destruct (NilZero.int_of_string s) as [d|]; [|discriminate].
  destruct (String.eqb_spec (str (Z.of_int d)) s) as [E|]; [|discriminate].
  intros [= <-]. now symmetry.
Qed.


Lemma span_digits_uint d rest :
  number_end rest = true ->
  span_digits (NilEmpty.string_of_uint d +:+ rest) = (NilEmpty.string_of_uint d, rest).
Proof.
  intros Hrest.
  induction d; simpl; try (rewrite IHd; reflexivity).
  destruct rest as [|c r]; [reflexivity|]. simpl in *.
  destruct (is_digit c); [discriminate|reflexivity].
Qed.

Lemma str_neg p : str (Z.neg p) = String "-" (str (Z.pos p)).
Proof.
  unfold str. simpl. unfold NilZero.string_of_uint.
  reflexivity.
Qed.

Lemma str_nonneg n :
  0 <= n -> exists d, d <> Decimal.Nil /\ str n = NilEmpty.string_of_uint d.
Proof.
  intros Hn. destruct n as [|p|p]; [| |lia].
  - exists (Decimal.D0 Decimal.Nil). split; [discriminate|reflexivity].
  - exists (Pos.to_uint p). split; [apply Unsigned.to_uint_nonnil|].
    unfold str. simpl. unfold NilZero.string_of_uint.
    pose proof (Unsigned.to_uint_nonnil p). now destruct (Pos.to_uint p).
Qed.

Lemma uint_head d :
  d <> Decimal.Nil ->
  exists c s, NilEmpty.string_of_uint d = String c s /\ is_digit c = true.
Proof. destruct d; [congruence|..]; intros _; simpl; eauto. Qed.

Lemma parse_number_nonneg n rest :
  0 <= n -> number_end rest = true ->
  parse_number (str n +:+ rest) = Some (JInt n, rest).
Proof.
  intros Hn Hrest.
  destruct (str_nonneg n Hn) as (d & Hd & E).
  destruct (uint_head d Hd) as (c & s & Ec & Hc).
  unfold parse_number.
  assert (Hm : Ascii.eqb c "-" = false).
  { apply Ascii.eqb_neq. intros ->. discriminate. }
  assert (Et : str n +:+ rest = String c (s +:+ rest)) by (now rewrite E, Ec).
  rewrite Et. cbv beta iota. rewrite Hm. rewrite <- Et, E.
  rewrite span_digits_uint by assumption.
  rewrite <- E, int_of_text_str.
  destruct rest as [|c' r]; [reflexivity|].
  simpl in Hrest. apply negb_true_iff in Hrest.
  repeat (apply orb_false_iff in Hrest; destruct Hrest as [Hrest ?]).
  simpl. now repeat match goal with H : _ = false |- _ => rewrite H end.
Qed.

Lemma parse_number_str n rest :
  number_end rest = true -> parse_number (str n +:+ rest) = Some (JInt n, rest).
Proof.
  intros Hrest. destruct (Z_lt_le_dec n 0) as [Hneg|Hpos];
    [|now apply parse_number_nonneg].
  destruct n as [|p|p]; try lia.
  assert (H := parse_number_nonneg (Z.pos p) rest ltac:(lia) Hrest).
  destruct (str_nonneg (Z.pos p) ltac:(lia)) as (d & Hd & E).
  destruct (uint_head d Hd) as (c & s & Ec & Hc).
  rewrite str_neg. unfold parse_number in *. simpl.
  assert (Et : str (Z.pos p) +:+ rest = String c (s +:+ rest)) by (now rewrite E, Ec).
  rewrite Et in H. cbv beta iota in H.
  assert (Hm : Ascii.eqb c "-" = false).
  { apply Ascii.eqb_neq. intros ->. discriminate. }
  rewrite Hm in H. rewrite <- Et in H.
  destruct (span_digits (str (Z.pos p) +:+ rest)) as [digits r].
  destruct (match r with String c0 _ => _ | EmptyString => false end); [discriminate|].
  destruct (int_of_text digits) as [m|]; [|discriminate].
  now injection H as -> ->.
Qed.

Lemma parse_str_body_escape_char c t :
  parse_str_body (escape_char c +:+ t) = push c (parse_str_body t).
Proof.
  destruct c as [[] [] [] [] [] [] [] []]; reflexivity.
Qed.

Lemma parse_str_body_escape s rest :
  parse_str_body (escape s +:+ String quote rest) = Some (s, rest).
Proof.
  induction s as [|c s IH]; simpl.
  - reflexivity.
  - rewrite append_assoc, parse_str_body_escape_char, IH. reflexivity.
Qed.



Lemma dumps_JList l : dumps (JList l) = "[" +:+ dumps_list l +:+ "]".
Proof.
  reflexivity.
Qed.

Lemma dumps_JDict l : dumps (JDict l) = "{" +:+ dumps_items l +:+ "}".
Proof.
  reflexivity.
Qed.




Lemma nodes_JList l : nodes (JList l) = S (nodes_list l).
Proof. reflexivity. Qed.

Lemma nodes_JDict l : nodes (JDict l) = S (nodes_items l).
Proof. reflexivity. Qed.

Lemma digit_or_minus_head c :
  is_digit c || Ascii.eqb c "-" = true ->
  is_ws c = false /\ Ascii.eqb c "]" = false /\ Ascii.eqb c "}" = false.
Proof. destruct c as [[] [] [] [] [] [] [] []]; cbv; intuition discriminate. Qed.

Lemma str_head n :
  exists c s, str n = String c s /\ is_digit c || Ascii.eqb c "-" = true.
Proof.
  destruct (Z_lt_le_dec n 0) as [Hneg|Hpos].
  - destruct n as [|p|p]; try lia. rewrite str_neg. eauto.
  - destruct (str_nonneg n Hpos) as (d & Hd & E).
    destruct (uint_head d Hd) as (c & s & Ec & Hc).
    exists c, s. rewrite E, Ec, Hc. auto.
Qed.

(** The first character of a serialised value. *)
Lemma dumps_head v rest :
  exists c s, dumps v +:+ rest = String c s /\
    is_ws c = false /\ Ascii.eqb c "]" = false /\ Ascii.eqb c "}" = false.
Proof.
  destruct v as [|[]|n|s|l|l]; try (do 2 eexists; split; [reflexivity|]; cbv; auto).
  destruct (str_head n) as (c & s & E & Hc).
  exists c, (s +:+ rest). simpl. rewrite E. split; [reflexivity|].
  now apply digit_or_minus_head.
Qed.

Lemma parse_value_ws fuel s : parse_value fuel (String " " s) = parse_value fuel s.
Proof. destruct fuel; reflexivity. Qed.

Lemma parse_elems_ws fuel s : parse_elems fuel (String " " s) = parse_elems fuel s.
Proof. destruct fuel; [reflexivity|]. simpl. now rewrite parse_value_ws. Qed.

Lemma parse_members_ws fuel s : parse_members fuel (String " " s) = parse_members fuel s.
Proof. destruct fuel; reflexivity. Qed.


Lemma parse_elems_dumps l :
  l <> [] -> Forall parses l ->
  forall fuel rest, (nodes_list l < fuel)%nat ->
    parse_elems fuel (dumps_list l +:+ String "]" rest) = Some (l, rest).
Proof.
  intros Hne HP. induction HP as [|x l Hx HP IH]; [congruence|].
  intros fuel rest Hfuel. destruct fuel as [|fuel]; [lia|].
  simpl in Hfuel. destruct l as [|y l].
  - simpl. rewrite Hx by (reflexivity || lia). reflexivity.
  - change (dumps_list (x :: y :: l)) with (dumps x +:+ ", " +:+ dumps_list (y :: l)).
    rewrite !append_assoc. simpl parse_elems.
    rewrite Hx by (reflexivity || lia). simpl.
    rewrite parse_elems_ws, IH by (congruence || simpl in *; lia). reflexivity.
Qed.

Lemma parse_member_key fuel k s :
  parse_members (S fuel) (dumps_str k +:+ String ":" (String " " s)) =
  match parse_value fuel s with
  | None => None
  | Some (v, s4) =>
      match skip_ws s4 with
      | EmptyString => None
      | String c4 s5 =>
          if Ascii.eqb c4 "}" then Some ([(k, v)], s5)
          else if Ascii.eqb c4 "," then
            match parse_members fuel s5 with
            | Some (l, r) => Some ((k, v) :: l, r)
            | None => None
            end
          else None
      end
  end.
Proof.
  unfold dumps_str. simpl.
  rewrite append_assoc. simpl. rewrite parse_str_body_escape. simpl.
  now rewrite parse_value_ws.
Qed.

Lemma parse_members_dumps l :
  l <> [] -> Forall (fun kv => parses (snd kv)) l ->
  forall fuel rest, (nodes_items l < fuel)%nat ->
    parse_members fuel (dumps_items l +:+ String "}" rest) = Some (l, rest).
Proof.
  intros Hne HP. induction HP as [|[k x] l Hx HP IH]; [congruence|].
  intros fuel rest Hfuel. destruct fuel as [|fuel]; [lia|].
  simpl in Hfuel, Hx. destruct l as [|y l].
  - change (dumps_items [(k, x)]) with (dumps_str k +:+ ": " +:+ dumps x).
    rewrite !append_assoc.
    change (": " +:+ ?s) with (String ":" (String " " s)).
    rewrite parse_member_key, Hx by (reflexivity || lia). reflexivity.
  - change (dumps_items ((k, x) :: y :: l))
      with (dumps_str k +:+ ": " +:+ dumps x +:+ ", " +:+ dumps_items (y :: l)).
    rewrite !append_assoc.
    change (": " +:+ ?s) with (String ":" (String " " s)).
    rewrite parse_member_key, Hx by (reflexivity || lia). simpl.
    rewrite parse_members_ws, IH by (congruence || simpl in *; lia). reflexivity.
Qed.

Lemma dict_set_new d k v :
  existsb (String.eqb k) (List.map fst d) = false -> dict_set d k v = (d ++ [(k, v)])%list.
Proof.
  induction d as [|[k' v'] d IH]; simpl; [reflexivity|].
  rewrite (String.eqb_sym k k'). destruct (String.eqb k' k); [discriminate|].
  simpl. intros H. now rewrite IH.
Qed.

Lemma dict_of_acc l : forall acc,
  keys_distinct (List.map fst l) = true ->
  (forall k, In k (List.map fst l) -> existsb (String.eqb k) (List.map fst acc) = false) ->
  fold_left (fun d kv => dict_set d (fst kv) (snd kv)) l acc = (acc ++ l)%list.
Proof.
  induction l as [|[k v] l IH]; intros acc Hd Hacc; simpl.
  - now rewrite app_nil_r.
  - simpl in Hd. apply andb_true_iff in Hd as [Hk Hd]. apply negb_true_iff in Hk.
    rewrite dict_set_new by (apply Hacc; now left).
    rewrite IH; [now rewrite <- app_assoc|assumption|].
    intros k' Hk'. rewrite map_app, existsb_app. simpl.
    rewrite (Hacc k') by (now right). simpl. rewrite orb_false_r.
    destruct (String.eqb_spec k' k) as [->|]; [|reflexivity].
    assert (existsb (String.eqb k) (List.map fst l) = true); [|congruence].
    apply existsb_exists. exists k. split; [assumption|apply String.eqb_refl].
Qed.

Lemma dict_of_distinct l : keys_distinct (List.map fst l) = true -> dict_of l = l.
Proof. intros H. unfold dict_of. now rewrite dict_of_acc. Qed.

Lemma parse_value_dumps v : distinct_keys v = true -> parses v.
Proof.
  induction v as [|b|n|s|l IH|l IH] using json_ind;
    intros Hd fuel rest Hfuel Hrest; (destruct fuel as [|fuel]; [simpl in Hfuel; lia|]).
  - reflexivity.
  - destruct b; reflexivity.
  - destruct (str_head n) as (c & s & E & Hc).
    destruct (digit_or_minus_head c Hc) as (Hws & _).
    change (dumps (JInt n)) with (str n).
    assert (Et : str n +:+ rest = String c (s +:+ rest)) by now rewrite E.
    rewrite Et. simpl. rewrite Hws, Hc. rewrite <- Et.
    now apply parse_number_str.
  - change (dumps (JStr s)) with (dumps_str s). unfold dumps_str. simpl.
    rewrite append_assoc. simpl. now rewrite parse_str_body_escape.
  - assert (IH' : Forall parses l).
    { change (forallb distinct_keys l = true) in Hd.
      rewrite forallb_forall in Hd. apply List.Forall_forall. intros x Hx.
      rewrite List.Forall_forall in IH. auto. }
    clear IH Hd. rename IH' into IH.
    rewrite dumps_JList. rewrite nodes_JList in Hfuel.
    destruct l as [|x l]; [reflexivity|].
    rewrite !append_assoc.
    assert (Hl : parse_elems fuel (dumps_list (x :: l) +:+ String "]" rest)
                 = Some (x :: l, rest))
      by (apply parse_elems_dumps; (congruence || assumption || lia)).
    destruct (dumps_head x
                (match l with [] => EmptyString | _ => ", " +:+ dumps_list l end
                 +:+ String "]" rest)) as (c & s & E & Hws & Hb & _).
    assert (Et : dumps_list (x :: l) +:+ String "]" rest = String c s).
    { rewrite <- E. destruct l; [reflexivity|]. simpl. now rewrite !append_assoc. }
    change ("]" +:+ rest) with (String "]" rest).
    rewrite Et in *. simpl. now rewrite Hws, Hb, Hl.
  - change (keys_distinct (List.map fst l)
            && forallb (fun kv => distinct_keys (snd kv)) l = true) in Hd.
    apply andb_true_iff in Hd as [Hkeys Hd].
    assert (IH' : Forall (fun kv => parses (snd kv)) l).
    { rewrite forallb_forall in Hd. apply List.Forall_forall. intros x Hx.
      rewrite List.Forall_forall in IH. auto. }
    clear IH Hd. rename IH' into IH.
    rewrite dumps_JDict. rewrite nodes_JDict in Hfuel.
    destruct l as [|[k x] l]; [reflexivity|].
    rewrite !append_assoc.
    assert (Hl : parse_members fuel (dumps_items ((k, x) :: l) +:+ String "}" rest)
                 = Some ((k, x) :: l, rest))
      by (apply parse_members_dumps; (congruence || assumption || lia)).
    assert (Et : exists s, dumps_items ((k, x) :: l) +:+ String "}" rest = String quote s).
    { destruct l; simpl; unfold dumps_str; simpl; eauto. }
    destruct Et as (s & Et).
    change ("}" +:+ rest) with (String "}" rest).
    rewrite Et in *. simpl. rewrite Hl. now rewrite (dict_of_distinct _ Hkeys).
Qed.

Lemma dumps_nonempty v : dumps v <> EmptyString.
Proof.
  destruct (dumps_head v EmptyString) as (c & s & E & _).
  intros H. rewrite H in E. discriminate.
Qed.

Lemma nodes_le_length v : (nodes v <= String.length (dumps v))%nat.
Proof.
  induction v as [|b|n|s|l IH|l IH] using json_ind.
  - simpl; lia.
  - destruct b; simpl; lia.
  - destruct (str_head n) as (c & s & E & _). simpl. rewrite E. simpl. lia.
  - simpl. lia.
  - rewrite dumps_JList, nodes_JList. simpl. rewrite append_length. simpl.
    enough (nodes_list l <= String.length (dumps_list l) + 1)%nat by lia.
    induction IH as [|x l Hx IH IHl]; [simpl; lia|].
    destruct l as [|y l]; [simpl in *; lia|].
    change (dumps_list (x :: y :: l)) with (dumps x +:+ ", " +:+ dumps_list (y :: l)).
    rewrite !append_length. simpl in *. lia.
  - rewrite dumps_JDict, nodes_JDict. simpl. rewrite append_length. simpl.
    enough (nodes_items l <= String.length (dumps_items l) + 1)%nat by lia.
    induction IH as [|[k x] l Hx IH IHl]; [simpl; lia|].
    destruct l as [|y l].
    + change (dumps_items [(k, x)]) with (dumps_str k +:+ ": " +:+ dumps x).
      rewrite !append_length. simpl in *. lia.
    + change (dumps_items ((k, x) :: y :: l))
        with (dumps_str k +:+ ": " +:+ dumps x +:+ ", " +:+ dumps_items (y :: l)).
      rewrite !append_length. simpl in *. lia.
Qed.

Lemma append_empty_r (s : string) : s +:+ EmptyString = s.
Proof. induction s; simpl; congruence. Qed.

(** [json.loads(json.dumps(v)) == v]. *)
Lemma loads_dumps v : distinct_keys v = true -> loads (dumps v) = Some v.
Proof.
  intros Hd. unfold loads.
  pose proof (parse_value_dumps v Hd (S (String.length (dumps v))) EmptyString) as H.
  rewrite append_empty_r in H. rewrite H; [reflexivity| |reflexivity].
  pose proof (nodes_le_length v). lia.
Qed.

(** ** The cache helpers on the keyspace *)

Lemma run_bind {S A B : Type} (m : M S A) (k : A -> M S B) (s : S) :
  bind m k s =
  match m s with
  | (Ok a, s') => k a s'
  | (Raise e, s') => (Raise e, s')
  end.
Proof. reflexivity. Qed.

Lemma run_ret {S A : Type} (a : A) (s : S) : ret a s = (Ok a, s).
Proof. reflexivity. Qed.

Lemma run_raise {S A : Type} (e : exn) (s : S) : @raise S A e s = (Raise e, s).
Proof. reflexivity. Qed.

Lemma run_lift {S A : Type} (o : outcome A) (s : S) : lift o s = (o, s).
Proof. reflexivity. Qed.

Lemma from_orm_valid p : validates p = true -> from_orm p = Ok (product_dict p).
Proof. unfold from_orm. now intros ->. Qed.

Lemma from_orm_invalid p : validates p = false -> from_orm p = Raise ValidationError.
Proof. unfold from_orm. now intros ->. Qed.

Lemma from_orm_ok p v : from_orm p = Ok v -> validates p = true /\ v = product_dict p.
Proof. unfold from_orm. destruct (validates p); [|discriminate]. intros [= <-]. auto. Qed.

(** Runs the next steps of a computation. *)
Ltac mrun :=
  repeat first [rewrite run_bind | rewrite run_ret | rewrite run_raise
               | progress cbv beta iota].

Lemma live_insert_eq now (r : keyspace) key e :
  live now (<[key := e]> r) key = if expired now e then None else Some e.
Proof. unfold live. now rewrite lookup_insert_eq. Qed.

Lemma live_insert_ne now (r : keyspace) key k e :
  key <> k -> live now (<[key := e]> r) k = live now r k.
Proof. intros H. unfold live. now rewrite lookup_insert_ne. Qed.

Lemma live_delete_eq now (r : keyspace) key : live now (delete key r) key = None.
Proof. unfold live. now rewrite lookup_delete_eq. Qed.

Lemma live_reap now now' (r : keyspace) key k :
  now <= now' -> live now' (reap now r key) k = live now' r k.
Proof.
  intros Hle. unfold reap, live.
  destruct (r !! key) as [e|] eqn:E; [|reflexivity].
  destruct (expired now e) eqn:Ex; [|reflexivity].
  destruct (decide (key = k)) as [->|Hne].
  - rewrite lookup_delete_eq, E.
    unfold expired in *. destruct (expires_at e) as [t|]; [|discriminate].
    apply Z.ltb_lt in Ex. destruct (Z.ltb_spec t now'); [reflexivity|lia].
  - now rewrite lookup_delete_ne.
Qed.

Lemma cache_get_eq now key (r : keyspace) :
  cache_get now key r = (decode (live now r key), reap now r key).
Proof.
  unfold cache_get. rewrite run_bind. unfold redis_get.
  destruct (live now r key) as [e|]; simpl; [|reflexivity].
  destruct (String.eqb (value e) EmptyString); simpl; [reflexivity|].
  now destruct (loads (value e)).
Qed.

(** The expiry of [SETEX] is at most [seconds] after the command, and less
    than one second before that. *)
Lemma setex_time_le now seconds : setex_time now seconds <= now + seconds * 1000.
Proof.
  unfold setex_time. pose proof (Z.mul_div_le (now + seconds * 1000) 1000 ltac:(lia)). lia.
Qed.

Lemma setex_time_gt now seconds : now + (seconds - 1) * 1000 < setex_time now seconds.
Proof.
  unfold setex_time.
  pose proof (Z.div_mod (now + seconds * 1000) 1000 ltac:(lia)).
  pose proof (Z.mod_pos_bound (now + seconds * 1000) 1000 ltac:(lia)). lia.
Qed.


Lemma round_seconds_bounds ms seconds :
  0 <= ms <= seconds * 1000 -> 0 <= round_seconds ms <= seconds.
Proof.
  intros H. unfold round_seconds.
  pose proof (Z.div_mod ms 1000 ltac:(lia)).
  pose proof (Z.mod_pos_bound ms 1000 ltac:(lia)).
  assert (0 <= ms / 1000) by (apply Z.div_pos; lia).
  destruct (Z.ltb_spec (ms mod 1000) 500); [lia|].
  destruct (Z.ltb_spec 500 (ms mod 1000)); [lia|].
  destruct (Z.even (ms / 1000)); lia.
Qed.

Lemma cache_set_eq now key v ttl (r : keyspace) :
  0 < ttl ->
  cache_set now key v ttl r =
  (Ok JNull, <[key := Entry (dumps v) (Some (setex_time now ttl))]> r).
Proof.
  intros H. unfold cache_set. rewrite run_bind. unfold redis_setex.
  destruct (Z.leb_spec ttl 0); [lia|reflexivity].
Qed.

Lemma decode_dumps v t :
  distinct_keys v = true -> decode (Some (Entry (dumps v) t)) = Ok v.
Proof.
  intros Hd. simpl. destruct (String.eqb_spec (dumps v) EmptyString) as [E|_].
  - now destruct (dumps_nonempty v).
  - now rewrite loads_dumps.
Qed.

Lemma cell_value_distinct c : distinct_keys (cell_value c) = true.
Proof. now destruct c. Qed.

Lemma product_dict_distinct p : distinct_keys (product_dict p) = true.
Proof.
  unfold product_dict. cbn -[cell_value]. now rewrite !cell_value_distinct.
Qed.

(** ** Set then get *)




(** ** Deleting keys *)

Lemma delete_all_lookup keys (r : keyspace) k :
  delete_all keys r !! k = if decide (k ∈ keys) then None else r !! k.
Proof.
  unfold delete_all. revert r.
  induction keys as [|x keys IH]; intros r; simpl.
  - destruct (decide (k ∈ [])) as [H|H]; [|reflexivity]. now apply elem_of_nil in H.
  - rewrite IH.
    destruct (decide (k ∈ keys)) as [H1|H1], (decide (k ∈ x :: keys)) as [H2|H2];
      try reflexivity.
    + exfalso. apply H2. now right.
    + apply elem_of_cons in H2 as [->|?]; [apply lookup_delete_eq|contradiction].
    + apply lookup_delete_ne. intros ->. apply H2. left.
Qed.

Lemma delete_all_size keys (r : keyspace) :
  NoDup keys -> (forall k, k ∈ keys -> is_Some (r !! k)) ->
  size (delete_all keys r) = (size r - length keys)%nat.
Proof.
  unfold delete_all. intros Hnd. revert r.
  induction Hnd as [|x keys Hx Hnd IH]; intros r Hin; simpl; [lia|].
  rewrite IH.
  - rewrite map_size_delete_Some by (apply Hin; left). lia.
  - intros k Hk. rewrite lookup_delete_ne; [apply Hin; now right|].
    intros ->. contradiction.
Qed.

Lemma for_each_delete now keys (r : keyspace) :
  for_each keys (fun key => redis_delete now key ;;; ret tt) r
  = (Ok tt, delete_all keys r).
Proof.
  revert r. induction keys as [|x keys IH]; intros r; [reflexivity|].
  simpl. rewrite run_bind. unfold redis_delete at 1. rewrite run_bind. simpl.
  apply IH.
Qed.

Lemma delete_scanned_eq now keys invalidated count (r : keyspace) :
  delete_scanned now keys invalidated count r
  = (Ok ((invalidated ++ keys)%list, count + Z.of_nat (length keys)),
     delete_all keys r).
Proof.
  revert invalidated count r.
  induction keys as [|x keys IH]; intros invalidated count r; simpl.
  - unfold ret. now rewrite app_nil_r, Z.add_0_r.
  - rewrite run_bind. unfold redis_delete at 1. rewrite IH.
    rewrite <- app_assoc. simpl. do 3 f_equal. lia.
Qed.

Lemma scan_iter_eq now pattern (r : keyspace) :
  exists keys, redis_scan_iter now pattern r = (Ok keys, r) /\
    NoDup keys /\ (forall k, k ∈ keys <-> scanned now pattern r k).
Proof.
  unfold redis_scan_iter. eexists. split; [reflexivity|]. split.
  - rewrite merge_sort_Permutation. apply NoDup_filter, NoDup_fst_map_to_list.
  - intros k. rewrite merge_sort_Permutation, list_elem_of_filter. unfold scanned. split.
    + intros [H _]. exact H.
    + intros H. split; [exact H|].
      destruct H as [[e He] _]. unfold live in He.
      destruct (r !! k) as [e'|] eqn:E; [|discriminate].
      apply list_elem_of_fmap. exists (k, e'). split; [reflexivity|].
      now apply elem_of_map_to_list.
Qed.

Lemma scanned_present now pattern (r : keyspace) k :
  scanned now pattern r k -> is_Some (r !! k).
Proof.
  intros [[e He] _]. unfold live in He.
  destruct (r !! k); [eauto|discriminate].
Qed.

(** C8, counterexample: [cache_delete] of a cached key removes it and
    answers [None], which is not true. *)
Lemma C8_delete_answers_none : ~ reports_removal 0 "product:1" cached_lists.
Proof.
  intros [v [H1 H2]]. vm_compute in H1. injection H1 as <-.
  vm_compute in H2. discriminate.
Qed.

(** C8, amended: for every key and keyspace, [cache_delete(key)] removes
    the key when it is there and changes nothing else, returns [None] in
    both cases and never raises; the count of removed keys (1 when the key
    was there and not expired, 0 otherwise) is the answer of the client's
    [delete], which the helper drops and which [logout_session] reads.
    Deleting twice is deleting once: the second delete finds no key,
    counts 0, and leaves the keyspace as it is. *)
Theorem C8_cache_delete now now' key (r : keyspace) :
  cache_delete now key r = (Ok JNull, delete key r) /\
  redis_delete now key r
    = (Ok match live now r key with Some _ => 1 | None => 0 end, delete key r) /\
  (forall k, k <> key -> delete key r !! k = r !! k) /\
  delete key r !! key = None /\
  cache_delete now' key (delete key r) = (Ok JNull, delete key r) /\
  redis_delete now' key (delete key r) = (Ok 0, delete key r).
Proof.
  repeat split.
  - intros k Hk. now apply lookup_delete_ne.
  - apply lookup_delete_eq.
  - unfold cache_delete. rewrite run_bind. unfold redis_delete. simpl.
    unfold ret. f_equal. apply delete_id, lookup_delete_eq.
  - unfold redis_delete. rewrite live_delete_eq. f_equal.
    apply delete_id, lookup_delete_eq.
Qed.

Lemma C8_cache_delete_witness :
  cache_delete 0 "product:1" cached_lists = (Ok JNull, delete "product:1" cached_lists) /\
  redis_delete 0 "product:1" cached_lists = (Ok 1, delete "product:1" cached_lists) /\
  redis_delete 1 "product:1" (delete "product:1" cached_lists)
  = (Ok 0, delete "product:1" cached_lists).
Proof.
  destruct (C8_cache_delete 0 1 "product:1" cached_lists)
    as (H1 & H2 & _ & _ & _ & H6).
  split; [exact H1|]. split; [exact H2|exact H6].
Defined.

(** ** Keys and patterns *)

Lemma matches_star s : matches [Star] s = true.
Proof. induction s as [|c s IH]; [reflexivity|]. simpl in *. now rewrite IH. Qed.

Lemma list_key_matches s : glob_match "products:list:*" ("products:list:" +:+ s) = true.
Proof.
  unfold glob_match. change (compile "products:list:*") with
    ([Lit "p"; Lit "r"; Lit "o"; Lit "d"; Lit "u"; Lit "c"; Lit "t"; Lit "s"; Lit ":";
      Lit "l"; Lit "i"; Lit "s"; Lit "t"; Lit ":"; Star])%char.
  simpl. apply matches_star.
Qed.

Lemma product_key_not_list s : glob_match "products:list:*" ("product:" +:+ s) = false.
Proof. reflexivity. Qed.

Lemma product_key_ne_list pid k :
  glob_match "products:list:*" k = true -> "product:" +:+ str pid <> k.
Proof. intros H <-. now rewrite product_key_not_list in H. Qed.

Lemma cache_delete_pattern_eq now pattern (r : keyspace) :
  exists keys, cache_delete_pattern now pattern r = (Ok JNull, delete_all keys r) /\
    NoDup keys /\ (forall k, k ∈ keys <-> scanned now pattern r k).
Proof.
  destruct (scan_iter_eq now pattern r) as (keys & Hscan & Hnd & Hkeys).
  exists keys. split; [|split; assumption].
  unfold cache_delete_pattern. rewrite run_bind, Hscan.
  rewrite run_bind, for_each_delete. reflexivity.
Qed.

Lemma invalidate_product_eq now product_id (r : keyspace) :
  let key := "product:" +:+ str product_id in
  exists keys,
    invalidate_product now product_id r
    = (Ok (key :: keys, Z.of_nat (length keys)), delete_all keys (delete key r)) /\
    NoDup keys /\
    (forall k, k ∈ keys <-> scanned now "products:list:*" (delete key r) k).
Proof.
  intros key.
  destruct (scan_iter_eq now "products:list:*" (delete key r))
    as (keys & Hscan & Hnd & Hkeys).
  exists keys. split; [|split; assumption].
  unfold invalidate_product. rewrite run_bind.
  unfold cache_delete. rewrite run_bind. unfold redis_delete at 1.
  mrun. fold key. rewrite Hscan. mrun. now rewrite delete_scanned_eq.
Qed.

(** C7, counterexample: [cache_delete_pattern] removes the two list keys
    and answers [None], not the number 2. *)
Lemma C7_pattern_delete_answers_none :
  ~ returns_removed_count 0 "products:list:*" cached_lists.
Proof. vm_compute. discriminate. Qed.

(** C7, amended: for every pattern and keyspace,
    [cache_delete_pattern(pattern)] removes exactly the keys that are not
    expired and match the pattern, leaves every other key as it is, and
    returns [None]; the number of removed keys is counted only by the loop
    of [delete_product_with_cache_invalidation], whose [count] is the number
    of keys it removed (the keys [keys] that are not expired and match
    ["products:list:*"], expired entries not being counted) and whose
    [invalidated] lists the product key and then those keys. *)
Theorem C7_delete_matching now (r : keyspace) :
  (forall pattern,
      exists r', cache_delete_pattern now pattern r = (Ok JNull, r') /\
        (forall k, scanned now pattern r k -> r' !! k = None) /\
        (forall k, ~ scanned now pattern r k -> r' !! k = r !! k)) /\
  (forall product_id,
      let key := "product:" +:+ str product_id in
      exists keys r',
        invalidate_product now product_id r
          = (Ok (key :: keys, Z.of_nat (length keys)), r') /\
        NoDup keys /\
        (forall k, k ∈ keys <-> scanned now "products:list:*" r k) /\
        (forall k, r' !! k = if decide (k = key \/ k ∈ keys) then None else r !! k) /\
        length keys = (size (delete key r) - size r')%nat).
Proof.
  split.
  - intros pattern.
    destruct (cache_delete_pattern_eq now pattern r) as (keys & Hrun & _ & Hkeys).
    exists (delete_all keys r). split; [exact Hrun|].
    split; intros k Hk; rewrite delete_all_lookup;
      destruct (decide (k ∈ keys)) as [H|H]; try reflexivity.
    + exfalso. apply H, Hkeys, Hk.
    + exfalso. apply Hk, Hkeys, H.
  - intros product_id key.
    destruct (invalidate_product_eq now product_id r) as (keys & Hrun & Hnd & Hkeys).
    fold key in Hrun, Hkeys.
    assert (Hsame : forall k, scanned now "products:list:*" (delete key r) k
                              <-> scanned now "products:list:*" r k).
    { intros k. unfold scanned, live. split; intros [Hl Hm]; split; try exact Hm.
      - now rewrite lookup_delete_ne in Hl by (now apply product_key_ne_list).
      - now rewrite lookup_delete_ne by (now apply product_key_ne_list). }
    exists keys, (delete_all keys (delete key r)).
    split; [exact Hrun|split; [exact Hnd|split; [|split]]].
    + intros k. now rewrite Hkeys, Hsame.
    + intros k. rewrite delete_all_lookup.
      destruct (decide (k ∈ keys)) as [H1|H1],
               (decide (k = key \/ k ∈ keys)) as [H2|H2]; try reflexivity.
      * exfalso. apply H2. now right.
      * destruct H2 as [->|?]; [apply lookup_delete_eq|contradiction].
      * apply lookup_delete_ne. intros ->. apply H2. now left.
    + rewrite delete_all_size; [|exact Hnd|].
      * assert (length keys <= size (delete key r))%nat; [|lia].
        rewrite <- (length_map_to_list (delete key r)).
        rewrite <- (length_fmap fst (map_to_list (delete key r))).
        apply submseteq_length, NoDup_submseteq; [exact Hnd|].
        intros k Hk. apply Hkeys, scanned_present in Hk as [e He].
        apply list_elem_of_fmap. exists (k, e). split; [reflexivity|].
        now apply elem_of_map_to_list.
      * intros k Hk. eapply scanned_present, Hkeys, Hk.
Qed.

Lemma C7_delete_matching_witness :
  exists r',
    cache_delete_pattern 0 "products:list:*" cached_lists = (Ok JNull, r') /\
    r' !! "products:list:all:page1:limit10" = None /\
    r' !! "product:1" = cached_lists !! "product:1".
Proof.
  destruct (proj1 (C7_delete_matching 0 cached_lists) "products:list:*")
    as (r' & Hrun & Hgone & Hkept).
  exists r'. split; [exact Hrun|]. split.
  - apply Hgone. split; [eexists; reflexivity|reflexivity].
  - apply Hkept. intros [_ Hm]. discriminate Hm.
Defined.

(** ** The request counter and the rate limiter *)

(** C9: for every key and value, [cache_set] with a [ttl_seconds] that is
    zero or negative raises the client's error for an invalid expire time
    and leaves the keyspace as it is: no entry is written and the time is
    not replaced by another one. *)
Theorem C9_invalid_ttl now key v ttl (r : keyspace) :
  ttl <= 0 ->
  cache_set now key v ttl r
  = (Raise (ResponseError "invalid expire time in setex"), r).
Proof.
  intros H. unfold cache_set. rewrite run_bind. unfold redis_setex.
  destruct (Z.leb_spec ttl 0); [reflexivity|lia].
Qed.

Lemma C9_invalid_ttl_witness :
  (0 <= 0 /\ -5 <= 0) /\
  cache_set 7 "product:1" (JDict [("id", JInt 1)]) 0 cached_lists
  = (Raise (ResponseError "invalid expire time in setex"), cached_lists) /\
  cache_set 7 "product:1" (JDict [("id", JInt 1)]) (-5) cached_lists
  = (Raise (ResponseError "invalid expire time in setex"), cached_lists).
Proof.
  split; [lia|]. split; apply C9_invalid_ttl; lia.
Defined.

Lemma incr_absent now key (r : keyspace) :
  live now r key = None ->
  redis_incr now key r = (Ok 1, <[key := Entry "1" None]> r).
Proof. intros H. unfold redis_incr. now rewrite H. Qed.

Lemma incr_present now key (r : keyspace) e n :
  live now r key = Some e -> int_of_text (value e) = Some n ->
  INT64_MIN <= n < INT64_MAX ->
  redis_incr now key r = (Ok (n + 1), <[key := Entry (str (n + 1)) (expires_at e)]> r).
Proof.
  intros H Hn Hr. unfold redis_incr. rewrite H, Hn.
  destruct (Z.leb_spec INT64_MIN n); [|lia].
  destruct (Z.leb_spec n INT64_MAX); [|lia].
  destruct (Z.ltb_spec n INT64_MAX); [|lia]. reflexivity.
Qed.

Lemma expire_present now key window (r : keyspace) e :
  0 < window -> live now r key = Some e ->
  redis_expire now key window r
  = (Ok true, <[key := Entry (value e) (Some (now + window * 1000))]> r).
Proof.
  intros Hw H. unfold redis_expire. rewrite H.
  destruct (Z.leb_spec window 0); [lia|reflexivity].
Qed.

Lemma live_not_expired now (r : keyspace) key e :
  live now r key = Some e -> expired now e = false.
Proof.
  unfold live. destruct (r !! key) as [e'|]; [|discriminate].
  destruct (expired now e') eqn:E; [discriminate|]. now intros [= <-].
Qed.

Lemma count_request_absent now key window (r : keyspace) :
  0 < window -> live now r key = None ->
  count_request now key window r
  = (Ok 1, <[key := Entry "1" (Some (now + window * 1000))]> r).
Proof.
  intros Hw H. unfold count_request. rewrite run_bind, incr_absent by assumption.
  simpl. mrun.
  rewrite (expire_present now key window _ (Entry "1" None)); [|assumption|].
  - mrun. simpl. now rewrite insert_insert_eq.
  - now rewrite live_insert_eq.
Qed.

Lemma count_request_present now key window (r : keyspace) e n :
  0 < window ->
  live now r key = Some e -> int_of_text (value e) = Some n ->
  INT64_MIN <= n < INT64_MAX ->
  count_request now key window r
  = (Ok (n + 1),
     <[key := Entry (str (n + 1))
                (if (n + 1 =? 1)%Z then Some (now + window * 1000)
                 else expires_at e)]> r).
Proof.
  intros Hw H Hn Hr. unfold count_request.
  rewrite run_bind, (incr_present now key r e n) by assumption.
  destruct (Z.eqb_spec (n + 1) 1) as [E|E]; mrun; [|reflexivity].
  rewrite (expire_present now key window _ (Entry (str (n + 1)) (expires_at e)));
    [|assumption|].
  - mrun. simpl. now rewrite insert_insert_eq.
  - rewrite live_insert_eq.
    apply live_not_expired in H. unfold expired in *. simpl. now rewrite H.
Qed.

(** C6: for every key and positive window, the counter step ([INCR], then
    [EXPIRE] when the count is 1) starts an absent counter from 0, returns
    the count after the increment, sets the expiry of the entry when that
    count is 1, and on the later increments of the window leaves the expiry
    as it was. *)
Theorem C6_increment now key window (r : keyspace) :
  0 < window ->
  (live now r key = None ->
   count_request now key window r
   = (Ok 1, <[key := Entry "1" (Some (now + window * 1000))]> r)) /\
  (forall e n,
      live now r key = Some e -> int_of_text (value e) = Some n ->
      INT64_MIN <= n < INT64_MAX ->
      count_request now key window r
      = (Ok (n + 1),
         <[key := Entry (str (n + 1))
                    (if (n + 1 =? 1)%Z then Some (now + window * 1000)
                     else expires_at e)]> r)).
Proof.
  intros Hw. split.
  - now apply count_request_absent.
  - intros e n. now apply count_request_present.
Qed.

Lemma C6_increment_witness :
  0 < 60 /\
  count_request 1000 "rate:ip1:0" 60 ∅
  = (Ok 1, <["rate:ip1:0" := Entry "1" (Some (1000 + 60 * 1000))]> ∅) /\
  count_request 2000 "rate:ip1:0" 60 (<["rate:ip1:0" := Entry "1" (Some 61000)]> ∅)
  = (Ok 2, <["rate:ip1:0" := Entry "2" (Some 61000)]>
             (<["rate:ip1:0" := Entry "1" (Some 61000)]> ∅)).
Proof.
  split; [lia|]. split.
  - apply (C6_increment 1000 "rate:ip1:0" 60 ∅); [lia|reflexivity].
  - apply (proj2 (C6_increment 2000 "rate:ip1:0" 60
                    (<["rate:ip1:0" := Entry "1" (Some 61000)]> ∅) ltac:(lia))
             (Entry "1" (Some 61000)) 1);
      [reflexivity | reflexivity | unfold INT64_MIN, INT64_MAX; lia].
Defined.

Lemma redis_ttl_live now key (r : keyspace) e t :
  live now r key = Some e -> expires_at e = Some t ->
  redis_ttl now key r = (Ok (round_seconds (t - now)), r).
Proof.
  intros H Ht. unfold redis_ttl. rewrite H, Ht. f_equal.
  unfold reap. unfold live in H. destruct (r !! key) as [e'|]; [|reflexivity].
  destruct (expired now e'); [discriminate|reflexivity].
Qed.

Lemma same_minute_key t t0 ip :
  Z.quot t 60000 = Z.quot t0 60000 -> rate_key_of t ip = rate_key_of t0 ip.
Proof. unfold rate_key_of. now intros ->. Qed.

Lemma same_minute_before t t0 :
  0 <= t -> 0 <= t0 -> Z.quot t 60000 = Z.quot t0 60000 -> t < t0 + 60000.
Proof.
  intros Ht Ht0. rewrite !Z.quot_div_nonneg by lia. intros E.
  pose proof (Z.div_mod t 60000 ltac:(lia)).
  pose proof (Z.div_mod t0 60000 ltac:(lia)).
  pose proof (Z.mod_pos_bound t 60000 ltac:(lia)).
  pose proof (Z.mod_pos_bound t0 60000 ltac:(lia)).
  lia.
Qed.

Lemma search_first t ip query (r : keyspace) :
  live t r (rate_key_of t ip) = None ->
  rate_limited_search t ip query r
  = (search_outcome query 1 (window_ttl t t),
     <[rate_key_of t ip := Entry "1" (Some (t + 60000))]> r).
Proof.
  intros H. unfold rate_limited_search.
  rewrite run_bind, count_request_absent by (lia || assumption).
  change (60 * 1000) with 60000. mrun. change (RATE_LIMIT <? 1)%Z with false. mrun.
  rewrite (redis_ttl_live t _ _ (Entry "1" (Some (t + 60000))) (t + 60000));
    [|rewrite live_insert_eq; unfold expired; simpl;
      destruct (Z.ltb_spec (t + 60000) t); [lia|reflexivity] | reflexivity].
  reflexivity.
Qed.

Lemma search_next t0 t ip query (r : keyspace) n :
  0 <= t0 -> 0 <= t -> Z.quot t 60000 = Z.quot t0 60000 ->
  r !! rate_key_of t0 ip = Some (Entry (str n) (Some (t0 + 60000))) ->
  1 <= n < INT64_MAX ->
  rate_limited_search t ip query r
  = (search_outcome query (n + 1) (window_ttl t0 t),
     <[rate_key_of t0 ip := Entry (str (n + 1)) (Some (t0 + 60000))]> r).
Proof.
  intros Ht0 Ht Hm Hr Hn. unfold rate_limited_search.
  rewrite (same_minute_key t t0 ip Hm).
  pose proof (same_minute_before t t0 Ht Ht0 Hm) as Hlt.
  assert (Hlive : live t r (rate_key_of t0 ip)
                  = Some (Entry (str n) (Some (t0 + 60000)))).
  { unfold live. rewrite Hr. unfold expired; simpl.
    destruct (Z.ltb_spec (t0 + 60000) t); [lia|reflexivity]. }
  rewrite run_bind.
  rewrite (count_request_present t _ 60 r _ n ltac:(lia) Hlive);
    [|apply int_of_text_str|unfold INT64_MIN in *; lia].
  destruct (Z.eqb_spec (n + 1) 1) as [E|_]; [lia|]. simpl expires_at. mrun.
  unfold search_outcome.
  destruct (Z.ltb_spec RATE_LIMIT (n + 1)), (Z.leb_spec (n + 1) RATE_LIMIT);
    try lia; mrun;
    rewrite (redis_ttl_live t _ _ (Entry (str (n + 1)) (Some (t0 + 60000)))
               (t0 + 60000));
    try reflexivity;
    rewrite live_insert_eq; unfold expired; simpl;
    destruct (Z.ltb_spec (t0 + 60000) t); (lia || reflexivity).
Qed.

Lemma serve_searches_next t0 ip query times : forall (r : keyspace) n,
  0 <= t0 ->
  Forall (fun t => 0 <= t /\ Z.quot t 60000 = Z.quot t0 60000) times ->
  r !! rate_key_of t0 ip = Some (Entry (str n) (Some (t0 + 60000))) ->
  1 <= n -> n + Z.of_nat (length times) <= INT64_MAX ->
  fst (serve_searches times ip query r) = search_outcomes t0 query (n + 1) times.
Proof.
  induction times as [|t times IH]; intros r n Ht0 Hall Hr Hn Hmax; [reflexivity|].
  apply Forall_cons in Hall as [[Ht Hm] Hall].
  simpl length in Hmax. simpl.
  rewrite (search_next t0 t ip query r n) by (assumption || lia).
  specialize (IH (<[rate_key_of t0 ip := Entry (str (n + 1)) (Some (t0 + 60000))]> r)
                (n + 1) Ht0 Hall (lookup_insert_eq _ _ _) ltac:(lia) ltac:(lia)).
  destruct (serve_searches times ip query _) as [os r2]. simpl in *. now rewrite IH.
Qed.

Lemma search_outcomes_lookup t0 query times : forall n i t,
  times !! i = Some t ->
  search_outcomes t0 query n times !! i
  = Some (search_outcome query (n + Z.of_nat i) (window_ttl t0 t)).
Proof.
  induction times as [|t' times IH]; intros n i t H; [discriminate|].
  destruct i as [|i]; simpl in *.
  - injection H as ->. now rewrite Z.add_0_r.
  - rewrite (IH (n + 1) i t H). do 2 f_equal. lia.
Qed.

(** C5, counterexample: of six requests in immediate succession from a
    fresh counter, the sixth is allowed too. *)
Lemma C5_sixth_request_allowed :
  ~ sixth_refused (fst (serve_searches [0; 0; 0; 0; 0; 0] "ip1" "test" ∅)).
Proof. vm_compute. discriminate. Qed.

(** C5, amended: the limit is the constant [RATE_LIMIT = 10] of the handler,
    not an argument.  From a fresh counter, the requests of one client that
    fall in the same minute get the counts 1, 2, 3, ...: the request with
    count [n] is allowed exactly when [n <= RATE_LIMIT], and an allowed
    request reports [remaining = RATE_LIMIT - n].  So the first 10 requests
    are allowed, [remaining] is 0 after the 10th, and the 11th is refused
    with status 429. *)
Theorem C5_rate_limit t1 rest ip query (r : keyspace) :
  0 <= t1 ->
  Forall (fun t => 0 <= t /\ Z.quot t 60000 = Z.quot t1 60000) rest ->
  live t1 r (rate_key_of t1 ip) = None ->
  Z.of_nat (length rest) < INT64_MAX ->
  forall i t, (t1 :: rest) !! i = Some t ->
    exists o, fst (serve_searches (t1 :: rest) ip query r) !! i = Some o /\
      (exists ttl, o = search_outcome query (Z.of_nat i + 1) ttl) /\
      allowed o = (Z.of_nat i + 1 <=? RATE_LIMIT)%Z /\
      (allowed o = true -> remaining o = Some (RATE_LIMIT - (Z.of_nat i + 1))) /\
      (allowed o = false -> exists detail headers, o = Raise (HTTPException 429 detail headers)).
Proof.
  intros Ht1 Hall Hfresh Hmax i t Hi.
  assert (Hrun : fst (serve_searches (t1 :: rest) ip query r)
                 = search_outcomes t1 query 1 (t1 :: rest)).
  { simpl. rewrite search_first by assumption.
    pose proof (serve_searches_next t1 ip query rest
                  (<[rate_key_of t1 ip := Entry "1" (Some (t1 + 60000))]> r) 1
                  Ht1 Hall (lookup_insert_eq _ _ _) ltac:(lia) ltac:(lia)) as H.
    destruct (serve_searches rest ip query _) as [os r2]. simpl in *. now rewrite H. }
  rewrite Hrun, (search_outcomes_lookup _ _ _ 1 i t Hi).
  replace (1 + Z.of_nat i) with (Z.of_nat i + 1) by lia.
  eexists. split; [reflexivity|]. split; [eexists; reflexivity|].
  unfold search_outcome.
  destruct (Z.leb_spec (Z.of_nat i + 1) RATE_LIMIT); simpl.
  - split; [reflexivity|]. split; [reflexivity|discriminate].
  - split; [reflexivity|]. split; [discriminate|].
    intros _. unfold too_many_requests. do 2 eexists. reflexivity.
Qed.

Lemma C5_rate_limit_witness :
  (0 <= 0 /\ live 0 ∅ (rate_key_of 0 "ip1") = None) /\
  exists o, fst (serve_searches [0; 0; 0; 0; 0; 0; 0; 0; 0; 0; 0] "ip1" "test" ∅) !! 10%nat
            = Some o /\
    (exists ttl, o = search_outcome "test" (Z.of_nat 10 + 1) ttl) /\
    allowed o = (Z.of_nat 10 + 1 <=? RATE_LIMIT)%Z /\
    (allowed o = true -> remaining o = Some (RATE_LIMIT - (Z.of_nat 10 + 1))) /\
    (allowed o = false -> exists detail headers, o = Raise (HTTPException 429 detail headers)).
Proof.
  split; [split; [lia|reflexivity]|].
  apply (C5_rate_limit 0 [0; 0; 0; 0; 0; 0; 0; 0; 0; 0] "ip1" "test" ∅) with (t := 0).
  - lia.
  - repeat (constructor; [split; [lia|reflexivity]|]). constructor.
  - reflexivity.
  - unfold INT64_MAX. simpl. lia.
  - reflexivity.
Defined.

(** ** Cache aside *)

Lemma run_on_cache {A : Type} (m : M keyspace A) (w : world) :
  on_cache m w = (fst (m (cache w)), World (db w) (snd (m (cache w)))).
Proof. unfold on_cache. now destruct (m (cache w)). Qed.

Lemma run_on_db {A : Type} (m : M database A) (w : world) :
  on_db m w = (fst (m (db w)), World (snd (m (db w))) (cache w)).
Proof. unfold on_db. now destruct (m (db w)). Qed.

Lemma live_mono now now' (r : keyspace) k e :
  now <= now' -> live now' r k = Some e -> live now r k = Some e.
Proof.
  intros Hle. unfold live. destruct (r !! k) as [e'|]; [|discriminate].
  unfold expired. destruct (expires_at e') as [t|]; [|trivial].
  destruct (Z.ltb_spec t now'); [discriminate|].
  destruct (Z.ltb_spec t now); [lia|trivial].
Qed.

Lemma reap_live now (r : keyspace) k e : live now r k = Some e -> reap now r k = r.
Proof.
  unfold live, reap. destruct (r !! k) as [e'|]; [|discriminate].
  now destruct (expired now e').
Qed.

Lemma insert_reap now (r : keyspace) k e : <[k := e]> (reap now r k) = <[k := e]> r.
Proof.
  unfold reap. destruct (r !! k) as [e'|]; [|reflexivity].
  destruct (expired now e'); [apply insert_delete_eq|reflexivity].
Qed.

(** A miss stays a miss while nothing is written. *)
Lemma miss_later now now' (r : keyspace) k :
  now <= now' -> decode (live now r k) = Miss ->
  decode (live now' (reap now r k) k) = Miss.
Proof.
  intros Hle H. rewrite live_reap by assumption.
  destruct (live now' r k) as [e|] eqn:E; [|reflexivity].
  now rewrite (live_mono now now' r k e Hle E) in H.
Qed.



(** The handler, by cases on the cache and on the loader. *)
Lemma cache_aside_hit now product_id (w : world) e v :
  live now (cache w) (product_key product_id) = Some e ->
  decode (Some e) = Ok v -> truthy v = true ->
  get_product_cache_aside now product_id w = (Ok (cache_hit_response v), w).
Proof.
  intros Hl Hd Hv. unfold get_product_cache_aside. fold (product_key product_id).
  rewrite run_bind, run_on_cache, cache_get_eq, Hl, Hd. simpl fst; simpl snd.
  cbv beta iota. rewrite Hv, (reap_live _ _ _ _ Hl). now destruct w.
Qed.

Lemma cache_aside_miss now product_id (w : world) v :
  decode (live now (cache w) (product_key product_id)) = Ok v -> truthy v = false ->
  get_product_cache_aside now product_id w =
  let key := product_key product_id in
  let d' := snd (query_first product_id (db w)) in
  match fst (query_first product_id (db w)) with
  | Ok (Some p) =>
      if validates p then
        (Ok (cache_miss_response (product_dict p)),
         World d' (<[key := Entry (dumps (product_dict p)) (Some (setex_time now 3600))]>
                     (cache w)))
      else (Raise ValidationError, World d' (reap now (cache w) key))
  | Ok None =>
      (Raise (HTTPException 404 "Product not found" []),
       World d' (reap now (cache w) key))
  | Raise e => (Raise e, World d' (reap now (cache w) key))
  end.
Proof.
  intros Hd Hv. unfold get_product_cache_aside. fold (product_key product_id).
  rewrite run_bind, run_on_cache, cache_get_eq, Hd. simpl fst; simpl snd.
  cbv beta iota. rewrite Hv.
  rewrite run_bind, run_on_db. simpl db; simpl cache.
  destruct (query_first product_id (db w)) as [[[p|]|e] d']; simpl; try reflexivity.
  rewrite run_bind, run_lift. unfold from_orm.
  destruct (validates p); [|reflexivity].
  rewrite run_bind, run_on_cache. simpl db; simpl cache.
  rewrite cache_set_eq by lia. simpl. now rewrite insert_reap.
Qed.

(** C3: when the product is not cached and the loader fails (the query
    raises, or finds no product and the handler raises 404), the handler
    raises that failure and writes nothing to the cache: every key reads as
    before, and a later [cache_get] of the product still answers a miss. *)
Theorem C3_failed_load_not_cached now product_id (w : world) o d' :
  fst (cache_get now (product_key product_id) (cache w)) = Miss ->
  query_first product_id (db w) = (o, d') ->
  o = Ok None \/ (exists e, o = Raise e) ->
  exists e w',
    get_product_cache_aside now product_id w = (Raise e, w') /\
    (o = Ok None -> e = HTTPException 404 "Product not found" []) /\
    (forall e', o = Raise e' -> e = e') /\
    db w' = d' /\
    (forall now' k, now <= now' -> live now' (cache w') k = live now' (cache w) k) /\
    (forall now', now <= now' ->
       fst (cache_get now' (product_key product_id) (cache w')) = Miss).
Proof.
  intros Hmiss Hq Ho. rewrite cache_get_eq in Hmiss. simpl in Hmiss.
  pose proof (cache_aside_miss now product_id w JNull Hmiss eq_refl) as H.
  rewrite Hq in H. simpl in H.
  assert (Hlater : forall now', now <= now' ->
            fst (cache_get now' (product_key product_id)
                   (reap now (cache w) (product_key product_id))) = Miss).
  { intros now' Hle. rewrite cache_get_eq. simpl. now apply miss_later. }
  destruct Ho as [->|[e ->]]; eexists _, _; (split; [exact H|]); simpl;
    (split; [congruence|]); (split; [congruence|]); (split; [reflexivity|]);
    (split; [|assumption]); intros now' k Hle; now apply live_reap.
Qed.

Lemma C3_failed_load_not_cached_witness :
  (exists e w',
      get_product_cache_aside 0 9 seeded = (Raise e, w') /\
      e = HTTPException 404 "Product not found" [] /\
      fst (cache_get 1 (product_key 9) (cache w')) = Miss) /\
  (exists e w',
      get_product_cache_aside 0 2 failing = (Raise e, w') /\
      e = DatabaseError "database round trip failed" /\
      fst (cache_get 1 (product_key 2) (cache w')) = Miss).
Proof.
  split.
  - destruct (C3_failed_load_not_cached 0 9 seeded (Ok None)
                (Database seed_products 1 [] no_text) eq_refl eq_refl (or_introl eq_refl))
      as (e & w' & Hrun & H404 & _ & _ & _ & Hmiss).
    exists e, w'. split; [exact Hrun|]. split; [exact (H404 eq_refl)|].
    apply Hmiss. lia.
  - destruct (C3_failed_load_not_cached 0 2 failing
                (Raise (DatabaseError "database round trip failed"))
                (Database seed_products 1 [] no_text) eq_refl eq_refl
                (or_intror (ex_intro _ _ eq_refl)))
      as (e & w' & Hrun & _ & Hraise & _ & _ & Hmiss).
    exists e, w'. split; [exact Hrun|]. split; [exact (Hraise _ eq_refl)|].
    apply Hmiss. lia.
Defined.








(** ** Write through *)

Lemma cache_get_fst_lookup now k (r r' : keyspace) :
  r !! k = r' !! k -> fst (cache_get now k r) = fst (cache_get now k r').
Proof. intros H. rewrite !cache_get_eq. unfold live. simpl. now rewrite H. Qed.

Lemma add_commit_refresh_ok product (d d' : database) p :
  add_commit_refresh product d = (Ok p, d') ->
  p = {| id := next_id (products d); name := TEXT (new_name product);
         description := TEXT (new_description product);
         price := INTEGER (new_price product);
         category := TEXT (new_category product) |} /\
  products d' = (products d ++ [p])%list.
Proof.
  unfold add_commit_refresh, round_trip, rows, set_rows, bind, ret.
  destruct d as [l q fs rd]. cbn [faults products queries reads].
  destruct fs as [|[] [|[] fs']]; cbn [faults products queries reads];
    intros H; try discriminate; injection H as <- <-; auto.
Qed.

Lemma created_validates product (d d' : database) p :
  add_commit_refresh product d = (Ok p, d') -> validates p = true.
Proof. intros H. apply add_commit_refresh_ok in H as [-> _]. reflexivity. Qed.

Lemma create_eq now product (w : world) :
  create_product_write_through now product w =
  match add_commit_refresh product (db w) with
  | (Raise e, d') => (Raise e, World d' (cache w))
  | (Ok p, d') =>
      (Ok (JDict [("strategy", JStr "WRITE THROUGH");
                  ("product", product_dict p);
                  ("cache_updated", JBool true);
                  ("note", JStr "Database AND cache updated simultaneously")]),
       World d'
         (snd (cache_delete_pattern now "products:list:*"
                 (<[product_key (id p) := Entry (dumps (product_dict p))
                                            (Some (setex_time now 3600))]> (cache w)))))
  end.
Proof.
  unfold create_product_write_through. rewrite run_bind, run_on_db.
  destruct (add_commit_refresh product (db w)) as [[p|e] d'] eqn:Hadd; cbn [fst snd];
    [|reflexivity].
  rewrite run_bind, run_lift, (from_orm_valid p (created_validates _ _ _ _ Hadd)).
  fold (product_key (id p)).
  rewrite run_bind, run_on_cache. cbn [db cache].
  rewrite cache_set_eq by lia. cbn [fst snd].
  rewrite run_bind, run_on_cache. cbn [db cache].
  destruct (cache_delete_pattern_eq now "products:list:*"
              (<[product_key (id p) := Entry (dumps (product_dict p))
                                         (Some (setex_time now 3600))]> (cache w)))
    as (keys & -> & _). reflexivity.
Qed.

Lemma update_eq now product_id updates (w : world) :
  update_product_write_through now product_id updates w =
  match query_first product_id (db w) with
  | (Raise e, d1) => (Raise e, World d1 (cache w))
  | (Ok None, d1) => (Raise (HTTPException 404 "Product not found" []), World d1 (cache w))
  | (Ok (Some old), d1) =>
      match commit_refresh old (apply_updates (loaded old) updates) d1 with
      | (Raise e, d2) => (Raise e, World d2 (cache w))
      | (Ok p', d2) =>
          if validates p' then
            (Ok (JDict [("strategy", JStr "WRITE THROUGH");
                        ("product", product_dict p');
                        ("cache_updated", JBool true)]),
             World d2 (<[product_key product_id := Entry (dumps (product_dict p'))
                                                     (Some (setex_time now 3600))]> (cache w)))
          else (Raise ValidationError, World d2 (cache w))
      end
  end.
Proof.
  unfold update_product_write_through. rewrite run_bind, run_on_db.
  fold (product_key product_id).
  destruct (query_first product_id (db w)) as [[[old|]|e] d1]; cbn [fst snd];
    try reflexivity.
  rewrite run_bind, run_on_db. cbn [db cache].
  destruct (commit_refresh old (apply_updates (loaded old) updates) d1) as [[p'|e] d2];
    cbn [fst snd]; [|reflexivity].
  rewrite run_bind, run_lift. unfold from_orm.
  destruct (validates p'); [|reflexivity].
  rewrite run_bind, run_on_cache. cbn [db cache].
  rewrite cache_set_eq by lia. reflexivity.
Qed.


Lemma In_insert_row p l : In p (insert_row p l).
Proof.
  induction l as [|q l IH]; simpl; [auto|].
  destruct (id p <? id q)%Z; simpl; auto.
Qed.

Lemma commit_refresh_ok old o (d1 d2 : database) p :
  commit_refresh old o d1 = (Ok p, d2) ->
  flushed (reads d1) o = Some p /\
  products d2 = replace_row (id old) p (products d1).
Proof.
  unfold commit_refresh.
  destruct (flushed (reads d1) o) as [p'|]; [|discriminate].
  unfold round_trip, rows, set_rows, bind, ret, raise.
  destruct d1 as [l q fs rd]. cbn [faults products queries reads].
  destruct fs as [|[] fs]; cbn [faults products queries reads]; try discriminate;
    destruct (negb _ && _); try discriminate;
    cbn [faults products queries reads].
  - intros H. injection H as <- <-. auto.
  - destruct fs as [|[] fs]; intros H; try discriminate; injection H as <- <-; auto.
Qed.



(** ** Updates and the cached lists *)

Lemma list_cache_key_matches c page limit :
  glob_match "products:list:*" (list_cache_key c page limit) = true.
Proof. unfold list_cache_key. apply list_key_matches. Qed.

Lemma scanned_deleted now pattern keys (r : keyspace) k :
  (forall k, k ∈ keys <-> scanned now pattern r k) ->
  glob_match pattern k = true ->
  live now (delete_all keys r) k = None.
Proof.
  intros Hkeys Hm. unfold live. rewrite delete_all_lookup.
  destruct (decide (k ∈ keys)) as [Hin|Hin]; [reflexivity|].
  destruct (r !! k) as [e|] eqn:E; [|reflexivity].
  destruct (expired now e) eqn:Ex; [reflexivity|].
  exfalso. apply Hin, Hkeys. split; [|exact Hm].
  unfold live. rewrite E, Ex. eauto.
Qed.

Lemma delete_eq now product_id (w : world) resp w' :
  delete_product_with_cache_invalidation now product_id w = (Ok resp, w') ->
  exists r, cache w' = snd (invalidate_product now product_id r).
Proof.
  unfold delete_product_with_cache_invalidation. rewrite run_bind, run_on_db.
  destruct (query_first product_id (db w)) as [[[old|]|e] d1]; cbn [fst snd];
    try discriminate.
  rewrite run_bind, run_on_db. cbn [db cache].
  destruct (delete_commit old d1) as [[[]|e] d2]; cbn [fst snd]; try discriminate.
  rewrite run_bind, run_on_cache. cbn [db cache].
  destruct (invalidate_product now product_id (cache w)) as [[res|e] r'] eqn:E;
    cbn [fst snd]; try discriminate.
  intros [= _ <-]. exists (cache w). now rewrite E.
Qed.

Lemma get_products_hit now c page limit (w : world) items :
  1 <= page -> 1 <= limit <= 100 ->
  fst (cache_get now (list_cache_key c page limit) (cache w)) = Ok (JDict items) ->
  items <> [] ->
  fst (get_products_with_cache now c page limit w)
  = Ok (with_source "🟢 CACHE HIT - No database query!" items).
Proof.
  intros Hp Hl Hget Hne. unfold get_products_with_cache.
  destruct (Z.leb_spec 1 page); [|lia].
  destruct (Z.leb_spec 1 limit); [|lia].
  destruct (Z.leb_spec limit 100); [|lia].
  cbn [andb negb]. rewrite run_bind, run_on_cache.
  destruct (cache_get now (list_cache_key c page limit) (cache w)) as [o r'].
  cbn [fst snd] in *. subst o.
  destruct items as [|kv items]; [congruence|]. reflexivity.
Qed.

(** C10: a write-through update that succeeds leaves every key that matches
    ["products:list:*"] as it was, so a product list that was cached before
    the update is still served from the cache, with the rows it had before
    the update, until it expires; the cached lists are removed by the
    create and delete handlers, after which no such key is readable. *)
Theorem C10_update_keeps_list_caches now (w : world) :
  (forall product_id updates resp w',
      update_product_write_through now product_id updates w = (Ok resp, w') ->
      (forall k, glob_match "products:list:*" k = true ->
                 cache w' !! k = cache w !! k) /\
      (forall now' c page limit items,
          1 <= page -> 1 <= limit <= 100 ->
          fst (cache_get now' (list_cache_key c page limit) (cache w))
          = Ok (JDict items) ->
          items <> [] ->
          fst (get_products_with_cache now' c page limit w')
          = Ok (with_source "🟢 CACHE HIT - No database query!" items))) /\
  (forall product resp w',
      create_product_write_through now product w = (Ok resp, w') ->
      forall k, glob_match "products:list:*" k = true ->
                live now (cache w') k = None) /\
  (forall product_id resp w',
      delete_product_with_cache_invalidation now product_id w = (Ok resp, w') ->
      forall k, glob_match "products:list:*" k = true ->
                live now (cache w') k = None).
Proof.
  split; [|split].
  - intros product_id updates resp w' H.
    assert (Hkeep : forall k, glob_match "products:list:*" k = true ->
                              cache w' !! k = cache w !! k).
    { intros k Hk. rewrite update_eq in H.
      destruct (query_first product_id (db w)) as [[[old|]|e] d1]; try discriminate.
      destruct (commit_refresh old (apply_updates (loaded old) updates) d1)
        as [[p'|e] d2]; try discriminate.
      destruct (validates p'); try discriminate.
      injection H as _ <-. cbn [cache]. apply lookup_insert_ne.
      now apply product_key_ne_list. }
    split; [exact Hkeep|].
    intros now' c page limit items Hp Hl Hget Hne.
    apply get_products_hit; try assumption.
    rewrite <- Hget. apply cache_get_fst_lookup, Hkeep, list_cache_key_matches.
  - intros product resp w' H k Hk. rewrite create_eq in H.
    destruct (add_commit_refresh product (db w)) as [[p|e] d']; try discriminate.
    destruct (cache_delete_pattern_eq now "products:list:*"
                (<[product_key (id p) := Entry (dumps (product_dict p))
                                           (Some (setex_time now 3600))]> (cache w)))
      as (keys & Hrun & _ & Hkeys).
    rewrite Hrun in H. injection H as _ <-. cbn [cache snd].
    now apply (scanned_deleted now "products:list:*").
  - intros product_id resp w' H k Hk.
    destruct (delete_eq now product_id w resp w' H) as [r ->].
    destruct (invalidate_product_eq now product_id r) as (keys & -> & _ & Hkeys).
    cbn [snd]. now apply (scanned_deleted now "products:list:*").
Qed.

Lemma C10_update_keeps_list_caches_witness :
  let w := snd (get_products_with_cache 0 None 1 2 seeded) in
  let w' := snd (update_product_write_through 7 1 [("price", JInt 5)] w) in
  fst (update_product_write_through 7 1 [("price", JInt 5)] w)
  = Ok (JDict [("strategy", JStr "WRITE THROUGH");
               ("product", product_dict {| id := 1; name := TEXT "MacBook Pro";
                                           description := TEXT "Apple laptop";
                                           price := INTEGER 5;
                                           category := TEXT "electronics" |});
               ("cache_updated", JBool true)]) /\
  cache w' !! list_cache_key None 1 2 = cache w !! list_cache_key None 1 2.
Proof.
  intros w w'. split; [vm_compute; reflexivity|].
  refine (proj1 (proj1 (C10_update_keeps_list_caches 7 w) 1 [("price", JInt 5)]
                   _ w' _) _ _).
  - vm_compute. reflexivity.
  - apply list_cache_key_matches.
Defined.

(** ** The handlers on the seed data *)

Example dumps_seed_product :
  dumps (product_dict {| id := 3; name := TEXT "Python Book";
                         description := TEXT "Learn Python";
                         price := INTEGER 3999; category := TEXT "books" |})
  = String "{" (String quote "id") +:+ String quote ": 3, "
    +:+ String quote "name" +:+ String quote ": "
    +:+ String quote "Python Book" +:+ String quote ", "
    +:+ String quote "description" +:+ String quote ": "
    +:+ String quote "Learn Python" +:+ String quote ", "
    +:+ String quote "price" +:+ String quote ": 3999, "
    +:+ String quote "category" +:+ String quote ": "
    +:+ String quote "books" +:+ String quote "}".
Proof. reflexivity. Qed.

Example loads_with_blanks : loads " [1, -20 ,{ } , null ] " = Some (JList [JInt 1; JInt (-20); JDict []; JNull]).
Proof. reflexivity. Qed.

Example loads_rejects_trailing_text : loads "{} x" = None.
Proof. reflexivity. Qed.

Example glob_examples :
  glob_match "products:list:*" "products:list:books:page1:limit10" = true /\
  glob_match "products:list:*" "product:1" = false /\
  glob_match "h[a-c]ll?" "hbllo" = true /\
  glob_match "h[^a-c]ll?" "hbllo" = false /\
  glob_match "a\*" "ab" = false.
Proof. repeat split. Qed.

(** A product is read at times 0, 5 and 3599999 (hits after the first
    read), and again once its entry has expired. *)
Example cache_aside_hits :
  is_hit <$> fst (serve_products [0; 5; 3599999; 3600001; 3600002] 1 seeded)
  = [false; true; true; false; true] /\
  queries (db (snd (serve_products [0; 5; 3599999; 3600001; 3600002] 1 seeded))) = 2%nat.
Proof. split; vm_compute; reflexivity. Qed.

Example eleven_searches :
  allowed <$> fst (serve_searches [0; 1; 2; 3; 4; 5; 6; 7; 8; 9; 10] "ip1" "test" ∅)
  = [true; true; true; true; true; true; true; true; true; true; false] /\
  remaining <$> fst (serve_searches [0; 1; 2; 3; 4; 5; 6; 7; 8; 9] "ip1" "test" ∅)
  = Some <$> [9; 8; 7; 6; 5; 4; 3; 2; 1; 0].
Proof. split; vm_compute; reflexivity. Qed.

(** A cached list survives an update and is removed by a create. *)
Example list_cache_after_writes :
  let w := snd (get_products_with_cache 0 None 1 2 seeded) in
  let updated := snd (update_product_write_through 7 1 [("price", JInt 5)] w) in
  let created :=
    snd (create_product_write_through 7
           {| new_name := "Pen"; new_description := "Blue pen";
              new_price := 150; new_category := "office" |} w) in
  is_Some (cache w !! "products:list:all:page1:limit2") /\
  cache updated !! "products:list:all:page1:limit2"
  = cache w !! "products:list:all:page1:limit2" /\
  cache created !! "products:list:all:page1:limit2" = None /\
  fst (cache_get 8 "product:5" (cache created))
  = Ok (product_dict {| id := 5; name := TEXT "Pen"; description := TEXT "Blue pen";
                        price := INTEGER 150; category := TEXT "office" |}).
Proof. repeat split; vm_compute; eauto. Qed.

(** An entry that is set at 999 ms for one second expires with the second:
    it is read at 1000 ms and gone at 1500 ms. *)
Example setex_whole_seconds :
  let r := snd (cache_set 999 "k" (JDict [("a", JInt 1)]) 1 ∅) in
  r !! "k" = Some (Entry (dumps (JDict [("a", JInt 1)])) (Some 1000)) /\
  fst (cache_get 999 "k" r) = Ok (JDict [("a", JInt 1)]) /\
  fst (cache_get 1500 "k" r) = Ok JNull.
Proof. repeat split. Qed.

(** The remaining time is rounded to the even second at a half. *)
Example ttl_half_to_even :
  window_ttl 0 1500 = 58 /\ window_ttl 0 500 = 60 /\ window_ttl 0 2500 = 58 /\
  window_ttl 0 1499 = 59 /\ window_ttl 0 1501 = 58.
Proof. repeat split. Qed.

(** Updates with values of another type than the column's: a text of digits
    for the price is stored as the integer; a text that is no number is
    stored as it is, and the handler raises after the commit; a number for
    the name is stored as its text; a list is refused and nothing is
    written. *)
Example update_other_types :
  let book price name :=
    {| id := 3; name := name; description := TEXT "Learn Python";
       price := price; category := TEXT "books" |} in
  let run updates := update_product_write_through 0 3 updates seeded in
  fst (run [("price", JStr "5")])
  = Ok (update_response (book (INTEGER 5) (TEXT "Python Book"))) /\
  (fst (run [("price", JStr "abc")]) = Raise ValidationError /\
   In (book (TEXT "abc") (TEXT "Python Book")) (products (db (snd (run [("price", JStr "abc")])))) /\
   cache (snd (run [("price", JStr "abc")])) = cache seeded) /\
  fst (run [("name", JInt 7)])
  = Ok (update_response (book (INTEGER 3999) (TEXT "7"))) /\
  (fst (run [("name", JNull)]) = Raise ValidationError) /\
  (fst (run [("price", JList [])]) = Raise (DatabaseError "the update is refused") /\
   products (db (snd (run [("price", JList [])]))) = seed_products).
Proof. repeat split; vm_compute; auto 10. Qed.

(** A row whose id changes moves to the place of its new id. *)
Example update_id_moves_row :
  id <$> products (db (snd (update_product_write_through 0 1 [("id", JInt 10)] seeded)))
  = [2; 3; 4; 10].
Proof. reflexivity. Qed.


(** Of the items of a text that repeats a key, [loads] keeps the last. *)
Example loads_repeated_key :
  loads (dumps (JDict [("a", JInt 1); ("b", JInt 2); ("a", JInt 3)]))
  = Some (JDict [("a", JInt 3); ("b", JInt 2)]).
Proof. reflexivity. Qed.

(** After an update has stored a price that is no number, the handlers that
    read the row through [ProductResponse] raise: the read with an ETag and
    the list of the page of the row. *)
Example unvalidated_row_is_not_served :
  let w := snd (update_product_write_through 0 3 [("price", JStr "abc")] seeded) in
  fst (get_product_with_etag plain_digest 3 None w) = Raise ValidationError /\
  fst (get_products_with_cache 0 None 1 10 w) = Raise ValidationError /\
  fst (get_product_cache_aside 0 4 w)
  = Ok (cache_miss_response
          (product_dict {| id := 4; name := TEXT "FastAPI Guide";
                           description := TEXT "Learn FastAPI";
                           price := INTEGER 2999; category := TEXT "books" |})).
Proof. repeat split. Qed.

(** ** Further properties: the cache helpers *)

Lemma ttl_bounds t now seconds :
  0 <= seconds -> now <= t -> t <= now + seconds * 1000 ->
  0 <= round_seconds (t - now) <= seconds.
Proof. intros Hs H1 H2. apply round_seconds_bounds. lia. Qed.

Lemma cache_get_set_live now' key v t (r : keyspace) :
  distinct_keys v = true -> now' <= t ->
  cache_get now' key (<[key := Entry (dumps v) (Some t)]> r)
  = (Ok v, <[key := Entry (dumps v) (Some t)]> r).
Proof.
  intros Hd H. rewrite cache_get_eq.
  assert (Hl : live now' (<[key := Entry (dumps v) (Some t)]> r) key
               = Some (Entry (dumps v) (Some t))).
  { rewrite live_insert_eq. unfold expired. cbn [expires_at].
    destruct (Z.ltb_spec t now'); [lia|reflexivity]. }
  rewrite Hl, decode_dumps by exact Hd. f_equal. now apply (reap_live _ _ _ _ Hl).
Qed.

Lemma cache_get_set_expired now' key v t (r : keyspace) :
  t < now' ->
  cache_get now' key (<[key := Entry (dumps v) (Some t)]> r) = (Ok JNull, delete key r).
Proof.
  intros H. rewrite cache_get_eq. unfold live, reap. rewrite lookup_insert_eq.
  unfold expired. cbn [expires_at].
  destruct (Z.ltb_spec t now'); [|lia].
  now rewrite delete_insert_eq.
Qed.

(** X1: a value stored by [cache_set] replaces the entry of the key, value
    and expiry.  The expiry is [int(now + ttl_seconds)], in whole seconds:
    at most [ttl_seconds] after the call and less than a second before
    that.  Until the expiry the value is read back and nothing changes;
    after it [cache_get] answers [None] and removes the entry, so that a
    scan no longer finds the key. *)
Theorem cache_entry_expires now key v ttl (r : keyspace) :
  0 < ttl -> distinct_keys v = true ->
  let r' := snd (cache_set now key v ttl r) in
  let expiry := setex_time now ttl in
  (now + (ttl - 1) * 1000 < expiry <= now + ttl * 1000) /\
  (forall k, k <> key -> r' !! k = r !! k) /\
  (forall now', now' < expiry -> cache_get now' key r' = (Ok v, r')) /\
  (forall now', expiry < now' ->
     cache_get now' key r' = (Ok JNull, delete key r) /\
     forall pattern, key ∉ match fst (redis_scan_iter now' pattern r') with
                           | Ok keys => keys
                           | Raise _ => []
                           end).
Proof.
  intros Httl Hd r' expiry. subst r' expiry. rewrite cache_set_eq by assumption. cbn [snd].
  split; [|split; [|split]].
  - split; [apply setex_time_gt|apply setex_time_le].
  - intros k Hk. now apply lookup_insert_ne.
  - intros now' H. apply cache_get_set_live; [exact Hd|lia].
  - intros now' H. split; [now apply cache_get_set_expired|].
    intros pattern.
    destruct (scan_iter_eq now' pattern
                (<[key := Entry (dumps v) (Some (setex_time now ttl))]> r))
      as (keys & -> & _ & Hkeys).
    cbn [fst]. intros Hin. apply Hkeys in Hin as [[e He] _].
    rewrite live_insert_eq in He. unfold expired in He. cbn [expires_at] in He.
    destruct (Z.ltb_spec (setex_time now ttl) now'); [discriminate|lia].
Qed.

Lemma cache_entry_expires_witness :
  0 < 1 /\
  cache_get 999 "trending:topics"
    (snd (cache_set 999 "trending:topics" (JDict [("topics", JList [])]) 1 ∅))
  = (Ok (JDict [("topics", JList [])]),
     snd (cache_set 999 "trending:topics" (JDict [("topics", JList [])]) 1 ∅)) /\
  cache_get 1500 "trending:topics"
    (snd (cache_set 999 "trending:topics" (JDict [("topics", JList [])]) 1 ∅))
  = (Ok JNull, delete "trending:topics" ∅).
Proof.
  split; [lia|].
  destruct (cache_entry_expires 999 "trending:topics" (JDict [("topics", JList [])])
              1 ∅ ltac:(lia) eq_refl) as (_ & _ & Hlive & Hdead).
  split; [apply Hlive; vm_compute; reflexivity|apply Hdead; vm_compute; reflexivity].
Defined.

(** ** Further properties: sessions *)

Lemma login_ok sha now username password user_id role (r : keyspace) :
  credentials username password = Some (user_id, role) ->
  login_with_session sha now username password r
  = (Ok (login_response (new_session_token sha now username)),
     <[session_key (new_session_token sha now username)
       := Entry (dumps (session_data now user_id username role))
            (Some (setex_time now 1800))]> r).
Proof.
  intros H. unfold login_with_session. rewrite H. rewrite run_bind.
  unfold redis_setex. destruct (Z.leb_spec 1800 0); [lia|reflexivity].
Qed.

Lemma session_user_live now token (r : keyspace) v t :
  distinct_keys v = true ->
  live now r (session_key token) = Some (Entry (dumps v) (Some t)) ->
  get_session_user now token r
  = (Ok (session_user_response v (round_seconds (t - now))), r).
Proof.
  intros Hd Hl. unfold get_session_user, redis_get. rewrite run_bind, Hl.
  rewrite (reap_live _ _ _ _ Hl). cbn [fmap option_fmap option_map value].
  destruct (String.eqb_spec (dumps v) EmptyString) as [E|_];
    [now destruct (dumps_nonempty v)|].
  rewrite loads_dumps by exact Hd. rewrite run_bind.
  now rewrite (redis_ttl_live now _ r _ t Hl eq_refl).
Qed.

Lemma session_user_absent now token (r : keyspace) :
  live now r (session_key token) = None ->
  get_session_user now token r = (Raise session_invalid, reap now r (session_key token)).
Proof.
  intros Hl. unfold get_session_user, redis_get. now rewrite run_bind, Hl.
Qed.

(** X2: a login with the password of the account stores the session
    under the key of a new token, with the expiry that [SETEX] gives for
    1800 seconds (whole seconds: at most 1800 seconds after the login and
    more than 1799), and returns the token; until that expiry
    [get_session_user] with that token returns the stored user ([user_id],
    [username], [role], [created_at]) and the seconds that remain, between
    0 and 1800, and changes nothing. *)
Theorem session_round_trip sha now now' username password user_id role
    (r : keyspace) :
  credentials username password = Some (user_id, role) ->
  now <= now' < setex_time now 1800 ->
  let token := new_session_token sha now username in
  now + 1799 * 1000 < setex_time now 1800 <= now + 1800 * 1000 /\
  exists r' ttl,
    login_with_session sha now username password r = (Ok (login_response token), r') /\
    get_session_user now' token r'
    = (Ok (session_user_response (session_data now user_id username role) ttl), r') /\
    0 <= ttl <= 1800.
Proof.
  intros Hc Hnow token. subst token.
  pose proof (setex_time_le now 1800). pose proof (setex_time_gt now 1800).
  split; [lia|]. do 2 eexists.
  split; [apply login_ok; exact Hc|]. split.
  - apply session_user_live; [reflexivity|]. rewrite live_insert_eq. unfold expired.
    cbn [expires_at]. destruct (Z.ltb_spec (setex_time now 1800) now'); [lia|reflexivity].
  - apply round_seconds_bounds. lia.
Qed.

Lemma session_round_trip_witness :
  let token := new_session_token plain_digest 1999 "admin" in
  (credentials "admin" "admin123" = Some (99, "admin") /\
   1999 <= 1800999 < setex_time 1999 1800) /\
  exists r' ttl,
    login_with_session plain_digest 1999 "admin" "admin123" ∅
    = (Ok (login_response token), r') /\
    get_session_user 1800999 token r'
    = (Ok (session_user_response (session_data 1999 99 "admin" "admin") ttl), r') /\
    0 <= ttl <= 1800.
Proof.
  intros token. split; [split; [reflexivity|vm_compute; split; [discriminate|reflexivity]]|].
  apply (session_round_trip plain_digest 1999 1800999 "admin" "admin123" 99 "admin" ∅);
    [reflexivity|vm_compute; split; [discriminate|reflexivity]].
Defined.

(** X3: a login is accepted for exactly two pairs, alice with password123
    (user 1, role user) and admin with admin123 (user 99, role admin); any
    other pair of username and password is refused with status 401 and
    writes nothing. *)
Theorem login_refused sha now username password (r : keyspace) :
  (credentials username password = None <->
   (username, password) <> ("alice", "password123") /\
   (username, password) <> ("admin", "admin123")) /\
  (credentials username password = None ->
   login_with_session sha now username password r
   = (Raise (HTTPException 401 "Invalid credentials" []), r)) /\
  (forall user_id role,
      credentials username password = Some (user_id, role) ->
      (user_id, role) = (1, "user") /\ username = "alice"
      \/ (user_id, role) = (99, "admin") /\ username = "admin").
Proof.
  unfold credentials.
  destruct (String.eqb_spec username "alice") as [Ha|Ha],
           (String.eqb_spec password "password123") as [Hp|Hp],
           (String.eqb_spec username "admin") as [Hb|Hb],
           (String.eqb_spec password "admin123") as [Hq|Hq];
    cbn [andb]; subst; try discriminate;
    (split; [split; [try discriminate; intros _; split; congruence
                    |try (intros [H1 H2]; congruence)]
            |split; [try discriminate; intros _;
                     unfold login_with_session, credentials;
                     repeat match goal with
                       | |- context [String.eqb ?a ?b] =>
                           destruct (String.eqb_spec a b); try congruence
                       end; reflexivity
                    |intros user_id role H; try discriminate;
                     injection H as <- <-; auto]]).
Qed.

Lemma live_expired_insert now key v t (r : keyspace) :
  t < now -> live now (<[key := Entry v (Some t)]> r) key = None.
Proof.
  intros H. rewrite live_insert_eq. unfold expired. cbn [expires_at].
  destruct (Z.ltb_spec t now); [reflexivity|lia].
Qed.

Lemma logout_eq now token (r : keyspace) :
  logout_session now token r
  = (match live now r (session_key token) with
     | Some _ => Ok logout_response
     | None => Raise session_not_found
     end, delete (session_key token) r).
Proof.
  unfold logout_session, redis_delete. rewrite run_bind.
  fold (session_key token). now destruct (live now r (session_key token)).
Qed.

(** X4: more than 1800 seconds after the login the token is worth nothing:
    [get_session_user] refuses it with status 401 and [logout_session]
    answers 404, and either call leaves the keyspace as it was before the
    login, without the session key. *)
Theorem session_expires sha now now' username password user_id role
    (r : keyspace) :
  credentials username password = Some (user_id, role) ->
  now + 1800 * 1000 < now' ->
  let token := new_session_token sha now username in
  let r' := snd (login_with_session sha now username password r) in
  get_session_user now' token r' = (Raise session_invalid, delete (session_key token) r) /\
  logout_session now' token r' = (Raise session_not_found, delete (session_key token) r).
Proof.
  intros Hc Hnow token r'. subst token r'. rewrite (login_ok _ _ _ _ _ _ _ Hc).
  pose proof (setex_time_le now 1800).
  cbn [snd]. split.
  - rewrite session_user_absent by (apply live_expired_insert; lia).
    f_equal. unfold reap. rewrite lookup_insert_eq. unfold expired. cbn [expires_at].
    destruct (Z.ltb_spec (setex_time now 1800) now'); [|lia].
    now rewrite delete_insert_eq.
  - rewrite logout_eq, live_expired_insert by lia.
    now rewrite delete_insert_eq.
Qed.

Lemma session_expires_witness :
  let token := new_session_token plain_digest 1000 "alice" in
  let r' := snd (login_with_session plain_digest 1000 "alice" "password123" ∅) in
  (credentials "alice" "password123" = Some (1, "user") /\ 1000 + 1800 * 1000 < 1801001) /\
  get_session_user 1801001 token r' = (Raise session_invalid, delete (session_key token) ∅) /\
  logout_session 1801001 token r' = (Raise session_not_found, delete (session_key token) ∅).
Proof.
  intros token r'. split; [split; [reflexivity|lia]|].
  apply (session_expires plain_digest 1000 1801001 "alice" "password123" 1 "user" ∅);
    [reflexivity|lia].
Defined.

(** X5: [logout_session] answers by whether the session was live: a live
    session is removed and the logout confirmed, a missing or expired one
    gives status 404.  In both cases no other key changes, and from then on
    the token is refused: [get_session_user] raises 401 and a second logout
    404, at any time, without changing the keyspace. *)
Theorem logout_revokes now token (r : keyspace) :
  let r' := snd (logout_session now token r) in
  fst (logout_session now token r)
  = (if bool_decide (is_Some (live now r (session_key token)))
     then Ok logout_response else Raise session_not_found) /\
  (forall k, k <> session_key token -> r' !! k = r !! k) /\
  forall now',
    get_session_user now' token r' = (Raise session_invalid, r') /\
    logout_session now' token r' = (Raise session_not_found, r').
Proof.
  intros r'. subst r'. rewrite logout_eq. cbn [fst snd].
  assert (Hl : forall now', live now' (delete (session_key token) r) (session_key token) = None)
    by (intros; apply live_delete_eq).
  split; [|split].
  - destruct (live now r (session_key token)) as [e|].
    + rewrite bool_decide_eq_true_2; eauto.
    + rewrite bool_decide_eq_false_2; [reflexivity|]. intros [e He]. discriminate.
  - intros k Hk. now apply lookup_delete_ne.
  - intros now'. split.
    + rewrite session_user_absent by apply Hl. f_equal.
      unfold reap. now rewrite lookup_delete_eq.
    + rewrite logout_eq, Hl. f_equal. apply delete_id, lookup_delete_eq.
Qed.

(** ** Further properties: trending topics and weather *)

Lemma live_fresh_insert now t key v (r : keyspace) :
  now <= t -> live now (<[key := Entry v (Some t)]> r) key = Some (Entry v (Some t)).
Proof.
  intros H. rewrite live_insert_eq. unfold expired. cbn [expires_at].
  destruct (Z.ltb_spec t now); [lia|reflexivity].
Qed.

Lemma reap_insert_expired now t key v (r : keyspace) :
  t < now -> reap now (<[key := Entry v (Some t)]> r) key = delete key r.
Proof.
  intros H. unfold reap. rewrite lookup_insert_eq. unfold expired. cbn [expires_at].
  destruct (Z.ltb_spec t now); [|lia]. apply delete_insert_eq.
Qed.

Lemma trending_miss_eq now (r : keyspace) :
  live now r "trending:topics" = None ->
  get_trending_topics now r
  = (Ok trending_miss,
     <["trending:topics" := Entry (dumps (trending_data (now + 100)))
                              (Some (setex_time (now + 100) 300))]> r).
Proof.
  intros Hl. unfold get_trending_topics.
  rewrite run_bind, cache_get_eq, Hl. cbn [decode truthy].
  rewrite run_bind. fold (trending_data (now + 100)).
  rewrite cache_set_eq by lia. now rewrite insert_reap.
Qed.

Lemma trending_hit_eq now (r : keyspace) items topics t :
  distinct_keys (JDict items) = true ->
  live now r "trending:topics" = Some (Entry (dumps (JDict items)) (Some t)) ->
  dict_get items "topics" = Some topics ->
  get_trending_topics now r = (Ok (trending_hit topics (round_seconds (t - now))), r).
Proof.
  intros Hd Hl Ht. unfold get_trending_topics.
  rewrite run_bind, cache_get_eq, Hl, decode_dumps, (reap_live _ _ _ _ Hl) by exact Hd.
  assert (truthy (JDict items) = true) as -> by (now destruct items).
  rewrite run_bind, (redis_ttl_live now _ r _ t Hl eq_refl).
  unfold lift, subscript. now rewrite run_bind, Ht.
Qed.

(** X6: when no topics are cached, [get_trending_topics] computes them and
    stores them with the expiry that [SETEX] gives for 300 seconds at the
    end of the computation (whole seconds: at most 300 seconds later and
    more than 299), touching no other key; every request from then until
    that expiry is answered from the cache with the same topics and the
    remaining seconds, between 0 and 300, without a write; the first
    request after the expiry computes and stores them again. *)
Theorem trending_cached_300s now (r : keyspace) :
  live now r "trending:topics" = None ->
  let expiry := setex_time (now + 100) 300 in
  now + 100 + 299 * 1000 < expiry <= now + 100 + 300 * 1000 /\
  exists r',
    get_trending_topics now r = (Ok trending_miss, r') /\
    (forall k, k <> "trending:topics" -> r' !! k = r !! k) /\
    (forall now', now + 100 <= now' < expiry ->
       exists ttl, 0 <= ttl <= 300 /\
         get_trending_topics now' r' = (Ok (trending_hit trending_topics ttl), r')) /\
    (forall now', expiry < now' ->
       get_trending_topics now' r'
       = (Ok trending_miss,
          <["trending:topics" := Entry (dumps (trending_data (now' + 100)))
                                   (Some (setex_time (now' + 100) 300))]> r)).
Proof.
  intros Hl expiry. subst expiry.
  pose proof (setex_time_le (now + 100) 300). pose proof (setex_time_gt (now + 100) 300).
  split; [lia|].
  eexists. split; [now apply trending_miss_eq|]. split; [|split].
  - intros k Hk. now apply lookup_insert_ne.
  - intros now' Hnow'. exists (round_seconds (setex_time (now + 100) 300 - now')).
    split; [apply round_seconds_bounds; lia|].
    unfold trending_data.
    eapply trending_hit_eq; [|apply live_fresh_insert; lia|]; reflexivity.
  - intros now' Hnow'. rewrite trending_miss_eq by (apply live_expired_insert; lia).
    now rewrite insert_insert_eq.
Qed.

Lemma trending_cached_300s_witness :
  let expiry := setex_time (0 + 100) 300 in
  live 0 (∅ : keyspace) "trending:topics" = None /\
  0 + 100 + 299 * 1000 < expiry <= 0 + 100 + 300 * 1000 /\
  exists r',
    get_trending_topics 0 ∅ = (Ok trending_miss, r') /\
    (forall k, k <> "trending:topics" -> r' !! k = (∅ : keyspace) !! k) /\
    (forall now', 0 + 100 <= now' < expiry ->
       exists ttl, 0 <= ttl <= 300 /\
         get_trending_topics now' r' = (Ok (trending_hit trending_topics ttl), r')) /\
    (forall now', expiry < now' ->
       get_trending_topics now' r'
       = (Ok trending_miss,
          <["trending:topics" := Entry (dumps (trending_data (now' + 100)))
                                   (Some (setex_time (now' + 100) 300))]> ∅)).
Proof. split; [reflexivity|]. apply (trending_cached_300s 0 ∅). reflexivity. Defined.

Lemma weather_miss_eq now city (r : keyspace) :
  live now r (weather_key city) = None ->
  get_weather now city r
  = (Ok (weather_miss city (weather_data now city)),
     <[weather_key city := Entry (dumps (weather_data now city))
                             (Some (setex_time now 600))]> r).
Proof.
  intros Hl. unfold get_weather.
  rewrite run_bind, cache_get_eq, Hl. cbn [decode truthy].
  rewrite run_bind, cache_set_eq by lia. now rewrite insert_reap.
Qed.

Lemma weather_hit_eq now city (r : keyspace) v t :
  distinct_keys v = true ->
  live now r (weather_key city) = Some (Entry (dumps v) (Some t)) ->
  truthy v = true ->
  get_weather now city r = (Ok (weather_hit city v (round_seconds (t - now))), r).
Proof.
  intros Hd Hl Hv. unfold get_weather.
  rewrite run_bind, cache_get_eq, Hl, decode_dumps, (reap_live _ _ _ _ Hl), Hv by exact Hd.
  now rewrite run_bind, (redis_ttl_live now _ r _ t Hl eq_refl).
Qed.

Lemma weather_key_inj a b : weather_key a = weather_key b <-> lower a = lower b.
Proof.
  unfold weather_key. split; [|now intros ->].
  cbn. intros H. now injection H.
Qed.

(** X7: the weather cache does not tell the spellings of a city apart: two
    names have the same key exactly when their lower-case forms are equal.
    After a miss for [city] (one simulated API call, stored with the expiry
    that [SETEX] gives for 600 seconds: whole seconds, at most 600 seconds
    later and more than 599) a request for any name with the same
    lower-case form is a hit until that expiry: it reports the name as
    asked, but the weather as it was stored, under the name of the first
    request, and writes nothing. *)
Theorem weather_shared_by_case now city (r : keyspace) :
  live now r (weather_key city) = None ->
  (forall city', weather_key city' = weather_key city <-> lower city' = lower city) /\
  now + 599 * 1000 < setex_time now 600 <= now + 600 * 1000 /\
  exists r',
    get_weather now city r = (Ok (weather_miss city (weather_data now city)), r') /\
    (forall k, k <> weather_key city -> r' !! k = r !! k) /\
    forall city' now',
      lower city' = lower city -> now <= now' < setex_time now 600 ->
      exists ttl, 0 <= ttl <= 600 /\
        get_weather now' city' r'
        = (Ok (weather_hit city' (weather_data now city) ttl), r').
Proof.
  intros Hl. split; [intros; apply weather_key_inj|].
  pose proof (setex_time_le now 600). pose proof (setex_time_gt now 600).
  split; [lia|].
  eexists. split; [now apply weather_miss_eq|]. split.
  - intros k Hk. now apply lookup_insert_ne.
  - intros city' now' Hc Hnow'. exists (round_seconds (setex_time now 600 - now')).
    split; [|apply weather_hit_eq].
    + apply round_seconds_bounds. lia.
    + reflexivity.
    + apply weather_key_inj in Hc. rewrite Hc. apply live_fresh_insert. lia.
    + reflexivity.
Qed.

Lemma weather_shared_by_case_witness :
  live 0 (∅ : keyspace) (weather_key "London") = None /\
  (forall city', weather_key city' = weather_key "London" <-> lower city' = lower "London") /\
  0 + 599 * 1000 < setex_time 0 600 <= 0 + 600 * 1000 /\
  exists r',
    get_weather 0 "London" ∅ = (Ok (weather_miss "London" (weather_data 0 "London")), r') /\
    (forall k, k <> weather_key "London" -> r' !! k = (∅ : keyspace) !! k) /\
    forall city' now',
      lower city' = lower "London" -> 0 <= now' < setex_time 0 600 ->
      exists ttl, 0 <= ttl <= 600 /\
        get_weather now' city' r'
        = (Ok (weather_hit city' (weather_data 0 "London") ttl), r').
Proof. split; [reflexivity|]. apply (weather_shared_by_case 0 "London" ∅). reflexivity. Defined.

(** ** Further properties: the keys of the cached lists *)

Lemma has_colon_app a b : has_colon (a +:+ b) = has_colon a || has_colon b.
Proof. induction a as [|c a IH]; simpl; [reflexivity|]. now rewrite IH, orb_assoc. Qed.

Lemma has_colon_uint d : has_colon (NilEmpty.string_of_uint d) = false.
Proof. induction d; simpl; auto. Qed.

Lemma has_colon_str n : has_colon (str n) = false.
Proof.
  destruct (Z_lt_le_dec n 0) as [Hneg|Hpos].
  - destruct n as [|p|p]; try lia. rewrite str_neg. simpl.
    destruct (str_nonneg (Z.pos p) ltac:(lia)) as (d & _ & ->). apply has_colon_uint.
  - destruct (str_nonneg n Hpos) as (d & _ & ->). apply has_colon_uint.
Qed.

Lemma str_inj n m : str n = str m -> n = m.
Proof.
  intros H. pose proof (int_of_text_str n) as Hn. rewrite H, int_of_text_str in Hn.
  congruence.
Qed.

(** A text is cut at its last colon in one way only. *)
Lemma split_last_colon s s' t t' :
  has_colon t = false -> has_colon t' = false ->
  s +:+ String ":" t = s' +:+ String ":" t' -> s = s' /\ t = t'.
Proof.
  intros Ht Ht'. revert s'.
  induction s as [|c s IH]; intros [|c' s']; simpl; intros H.
  - injection H as ->. auto.
  - injection H as <- ->. rewrite has_colon_app in Ht. simpl in Ht.
    now rewrite orb_true_r in Ht.
  - injection H as -> <-. rewrite has_colon_app in Ht'. simpl in Ht'.
    now rewrite orb_true_r in Ht'.
  - injection H as -> H. destruct (IH _ H) as [-> ->]. auto.
Qed.

Lemma list_cache_key_eq c page limit :
  list_cache_key c page limit
  = "products:list:" +:+
    (category_text c +:+ String ":" ("page" +:+ str page)) +:+ String ":" ("limit" +:+ str limit).
Proof.
  rewrite (append_assoc _ (String ":" _) _). reflexivity.
Qed.

Lemma list_cache_key_inj c c' page page' limit limit' :
  list_cache_key c page limit = list_cache_key c' page' limit' <->
  category_text c = category_text c' /\ page = page' /\ limit = limit'.
Proof.
  rewrite !list_cache_key_eq. split.
  - intros H. simpl in H. injection H as H.
    apply split_last_colon in H; [|simpl; apply has_colon_str..].
    destruct H as [H Hl]. simpl in Hl. injection Hl as Hl.
    apply split_last_colon in H; [|simpl; apply has_colon_str..].
    destruct H as [Hc Hp]. simpl in Hp. injection Hp as Hp.
    auto using str_inj.
  - now intros (-> & -> & ->).
Qed.

Lemma category_text_cases c :
  category_text c = "all" <-> c = None \/ c = Some EmptyString \/ c = Some "all".
Proof.
  unfold category_text. destruct c as [s|]; [|intuition].
  destruct (String.eqb_spec s EmptyString) as [->|Hs].
  - intuition.
  - split; [intros ->; auto|]. intros [H|[H|H]]; congruence.
Qed.

(** X8: the key of a cached list tells the requests apart by the text of
    the category, the page and the limit, whatever characters the category
    holds: two requests share a cache entry exactly when these three agree.
    The text of the category is [all] for a request without category, with
    an empty one, and with the category named [all]: these three share
    their entries, although the last one filters its query and the others
    do not. *)
Theorem list_cache_key_shared c c' page page' limit limit' :
  (list_cache_key c page limit = list_cache_key c' page' limit' <->
   category_text c = category_text c' /\ page = page' /\ limit = limit') /\
  (category_text c = "all" <-> c = None \/ c = Some EmptyString \/ c = Some "all") /\
  (forall s, s <> EmptyString -> category_text (Some s) = s) /\
  category_filter (Some "all") = Some "all" /\
  category_filter None = None /\ category_filter (Some EmptyString) = None.
Proof.
  split; [apply list_cache_key_inj|]. split; [apply category_text_cases|].
  split; [|auto]. intros s Hs. unfold category_text.
  now destruct (String.eqb_spec s EmptyString).
Qed.

(** ** Further properties: the key a handler works on *)

Lemma touches_ret {A : Type} key (a : A) : touches_only key (ret a).
Proof. intros r. split; [reflexivity|]. intros r' H. now split. Qed.

Lemma touches_raise {A : Type} key e : touches_only key (@raise keyspace A e).
Proof. intros r. split; [reflexivity|]. intros r' H. now split. Qed.

Lemma touches_lift {A : Type} key (o : outcome A) : touches_only key (lift o).
Proof. intros r. split; [reflexivity|]. intros r' H. now split. Qed.

Lemma touches_bind {A B : Type} key (m : M keyspace A) (f : A -> M keyspace B) :
  touches_only key m -> (forall a, touches_only key (f a)) ->
  touches_only key (bind m f).
Proof.
  intros Hm Hf r. unfold bind. destruct (Hm r) as [Hm1 Hm2]. split.
  - intros k Hk. specialize (Hm1 k Hk).
    destruct (m r) as [[a|e] r1]; cbn [snd] in *; [|assumption].
    destruct (Hf a r1) as [Hf1 _]. now rewrite Hf1.
  - intros r' H. destruct (Hm2 r' H) as [H1 H2].
    destruct (m r) as [[a|e] r1], (m r') as [[a'|e'] r1']; cbn [fst snd] in *;
      try discriminate.
    + injection H1 as <-. destruct (Hf a r1) as [_ Hf2]. now apply Hf2.
    + injection H1 as <-. auto.
Qed.

Ltac one_key :=
  intros r; split;
  [ intros k Hk
  | intros r' H; unfold live, reap; rewrite <- ?H ];
  try unfold live, reap;
  try (destruct (r !! _) as [e|] eqn:E); cbn [fst snd fmap option_fmap option_map];
  repeat match goal with
    | |- context [if ?b then _ else _] => destruct b; cbn [fst snd]
    | |- context [match ?x with Some _ => _ | None => _ end] => destruct x; cbn [fst snd]
    end;
  repeat match goal with |- _ /\ _ => split end;
  rewrite ?lookup_insert_eq, ?lookup_delete_eq;
  rewrite ?lookup_insert_ne, ?lookup_delete_ne by congruence;
  congruence.

Lemma touches_redis_get now key : touches_only key (redis_get now key).
Proof. unfold redis_get. one_key. Qed.

Lemma touches_redis_setex now key seconds v :
  touches_only key (redis_setex now key seconds v).
Proof. unfold redis_setex. one_key. Qed.

Lemma touches_redis_delete now key : touches_only key (redis_delete now key).
Proof. unfold redis_delete. one_key. Qed.

Lemma touches_redis_incr now key : touches_only key (redis_incr now key).
Proof. unfold redis_incr. one_key. Qed.

Lemma touches_redis_expire now key seconds :
  touches_only key (redis_expire now key seconds).
Proof. unfold redis_expire. one_key. Qed.

Lemma touches_redis_ttl now key : touches_only key (redis_ttl now key).
Proof. unfold redis_ttl. one_key. Qed.

Ltac touches :=
  repeat first
    [ apply touches_ret | apply touches_raise | apply touches_lift
    | apply touches_redis_get | apply touches_redis_setex
    | apply touches_redis_delete | apply touches_redis_incr
    | apply touches_redis_expire | apply touches_redis_ttl
    | apply touches_bind; [|intros ?]
    | match goal with
      | |- touches_only _ (if ?b then _ else _) => destruct b
      | |- touches_only _ (match ?x with _ => _ end) => destruct x
      end ].

Lemma touches_cache_get now key : touches_only key (cache_get now key).
Proof. unfold cache_get. touches. Qed.

Lemma touches_cache_set now key v ttl : touches_only key (cache_set now key v ttl).
Proof. unfold cache_set. touches. Qed.

Lemma touches_cache_delete now key : touches_only key (cache_delete now key).
Proof. unfold cache_delete. touches. Qed.

Lemma touches_search now ip query :
  touches_only (rate_key_of now ip) (rate_limited_search now ip query).
Proof. unfold rate_limited_search, count_request. touches. Qed.

Lemma touches_weather now city : touches_only (weather_key city) (get_weather now city).
Proof. unfold get_weather, cache_get, cache_set. touches. Qed.

Lemma touches_trending now : touches_only "trending:topics" (get_trending_topics now).
Proof. unfold get_trending_topics, cache_get, cache_set. touches. Qed.

Lemma touches_login sha now username password :
  touches_only (session_key (new_session_token sha now username))
    (login_with_session sha now username password).
Proof. unfold login_with_session. touches. Qed.

Lemma touches_session_user now token :
  touches_only (session_key token) (get_session_user now token).
Proof. unfold get_session_user. touches. Qed.

Lemma touches_logout now token :
  touches_only (session_key token) (logout_session now token).
Proof. unfold logout_session. fold (session_key token). touches. Qed.

(** X9: each of the handlers that work on the keyspace alone reads and
    writes one key: the counter of the client and minute for a search, the
    key of the lower-case city for the weather, [trending:topics], and the
    key of the token for login, me and logout.  It leaves every other key
    as it is, and neither its answer nor what it leaves under its key
    depends on the rest of the keyspace. *)
Theorem handlers_touch_one_key :
  (forall now ip query,
      touches_only (rate_key_of now ip) (rate_limited_search now ip query)) /\
  (forall now city, touches_only (weather_key city) (get_weather now city)) /\
  (forall now, touches_only "trending:topics" (get_trending_topics now)) /\
  (forall sha now username password,
      touches_only (session_key (new_session_token sha now username))
        (login_with_session sha now username password)) /\
  (forall now token, touches_only (session_key token) (get_session_user now token)) /\
  (forall now token, touches_only (session_key token) (logout_session now token)).
Proof.
  split; [exact touches_search|]. split; [exact touches_weather|].
  split; [exact touches_trending|]. split; [exact touches_login|].
  split; [exact touches_session_user|exact touches_logout].
Qed.

(** ** Further properties: rate limiting *)

Lemma rate_key_inj t t' ip ip' :
  rate_key_of t ip = rate_key_of t' ip' <->
  ip = ip' /\ Z.quot t 60000 = Z.quot t' 60000.
Proof.
  unfold rate_key_of. split.
  - intros H. simpl in H. injection H as H.
    apply split_last_colon in H; [|apply has_colon_str..].
    destruct H as [-> H]. auto using str_inj.
  - now intros [-> ->].
Qed.

(** X10: the counter of a search is named by the client and the minute, and
    by nothing else, whatever characters the address of the client holds
    (colons as well).  So a request of another client, or of another minute,
    changes neither the counter nor the answer of this one: a client cannot
    use up the allowance of another. *)
Theorem rate_limit_per_client t t' ip ip' :
  (rate_key_of t ip = rate_key_of t' ip' <->
   ip = ip' /\ Z.quot t 60000 = Z.quot t' 60000) /\
  (rate_key_of t ip <> rate_key_of t' ip' ->
   forall query query' (r : keyspace),
     let r' := snd (rate_limited_search t' ip' query' r) in
     r' !! rate_key_of t ip = r !! rate_key_of t ip /\
     fst (rate_limited_search t ip query r') = fst (rate_limited_search t ip query r)).
Proof.
  split; [apply rate_key_inj|]. intros Hne query query' r r'. subst r'.
  destruct (touches_search t' ip' query' r) as [Hframe _].
  specialize (Hframe _ Hne). split; [exact Hframe|].
  destruct (touches_search t ip query (snd (rate_limited_search t' ip' query' r)))
    as [_ Hlocal].
  now apply Hlocal.
Qed.

Lemma serve_fresh t1 rest ip query (r : keyspace) :
  0 <= t1 ->
  Forall (fun t => 0 <= t /\ Z.quot t 60000 = Z.quot t1 60000) rest ->
  live t1 r (rate_key_of t1 ip) = None ->
  Z.of_nat (length rest) < INT64_MAX ->
  fst (serve_searches (t1 :: rest) ip query r) = search_outcomes t1 query 1 (t1 :: rest).
Proof.
  intros Ht1 Hall Hfresh Hmax. simpl. rewrite search_first by assumption.
  pose proof (serve_searches_next t1 ip query rest
                (<[rate_key_of t1 ip := Entry "1" (Some (t1 + 60000))]> r) 1
                Ht1 Hall (lookup_insert_eq _ _ _) ltac:(lia) ltac:(lia)) as H.
  destruct (serve_searches rest ip query _) as [os r2]. simpl in *. now rewrite H.
Qed.

Lemma serve_searches_app l1 l2 ip query : forall r : keyspace,
  fst (serve_searches (l1 ++ l2) ip query r)
  = (fst (serve_searches l1 ip query r)
     ++ fst (serve_searches l2 ip query (snd (serve_searches l1 ip query r))))%list.
Proof.
  induction l1 as [|t l1 IH]; intros r; [reflexivity|]. simpl.
  destruct (rate_limited_search t ip query r) as [o r1]. specialize (IH r1).
  destruct (serve_searches (l1 ++ l2) ip query r1) as [os r2].
  destruct (serve_searches l1 ip query r1) as [os1 r3]. simpl in *. now rewrite IH.
Qed.

Lemma serve_searches_frame t0 ip query times k : forall r : keyspace,
  Forall (fun t => 0 <= t /\ Z.quot t 60000 = Z.quot t0 60000) times ->
  k <> rate_key_of t0 ip ->
  snd (serve_searches times ip query r) !! k = r !! k.
Proof.
  induction times as [|t times IH]; intros r Hall Hk; [reflexivity|].
  apply Forall_cons in Hall as [[_ Ht] Hall]. simpl.
  destruct (touches_search t ip query r) as [Hframe _].
  rewrite (same_minute_key t t0 ip Ht) in Hframe. specialize (Hframe k Hk).
  destruct (rate_limited_search t ip query r) as [o r1].
  specialize (IH r1 Hall Hk).
  destruct (serve_searches times ip query r1) as [os r2]. simpl in *. congruence.
Qed.

Lemma search_outcomes_allowed t0 query times : forall n,
  n + Z.of_nat (length times) <= RATE_LIMIT + 1 ->
  Forall (fun o => allowed o = true) (search_outcomes t0 query n times).
Proof.
  induction times as [|t times IH]; intros n Hn; simpl; [constructor|].
  simpl length in Hn. constructor.
  - unfold search_outcome. destruct (Z.leb_spec n RATE_LIMIT); [reflexivity|lia].
  - apply IH. lia.
Qed.

(** X11: the count starts again with the minute.  When the requests of a
    client fall in two different minutes, those of the second minute are
    answered as if the first had not been: the count is 1 again, even if the
    client had been refused.  So up to 10 requests at the end of one minute
    and up to 10 more at the start of the next are all allowed. *)
Theorem rate_window_restarts t1 rest1 t2 rest2 ip query (r : keyspace) :
  0 <= t1 -> 0 <= t2 -> Z.quot t1 60000 <> Z.quot t2 60000 ->
  Forall (fun t => 0 <= t /\ Z.quot t 60000 = Z.quot t1 60000) rest1 ->
  Forall (fun t => 0 <= t /\ Z.quot t 60000 = Z.quot t2 60000) rest2 ->
  live t1 r (rate_key_of t1 ip) = None ->
  live t2 r (rate_key_of t2 ip) = None ->
  Z.of_nat (length rest1) < INT64_MAX -> Z.of_nat (length rest2) < INT64_MAX ->
  let outs := fst (serve_searches ((t1 :: rest1) ++ t2 :: rest2) ip query r) in
  outs = (search_outcomes t1 query 1 (t1 :: rest1)
          ++ search_outcomes t2 query 1 (t2 :: rest2))%list /\
  ((length rest1 < 10)%nat -> (length rest2 < 10)%nat ->
   Forall (fun o => allowed o = true) outs).
Proof.
  intros Ht1 Ht2 Hne Hall1 Hall2 Hf1 Hf2 Hm1 Hm2 outs.
  assert (Houts : outs = (search_outcomes t1 query 1 (t1 :: rest1)
                          ++ search_outcomes t2 query 1 (t2 :: rest2))%list).
  { subst outs. rewrite serve_searches_app.
    rewrite serve_fresh by assumption. f_equal.
    apply serve_fresh; try assumption.
    unfold live. rewrite (serve_searches_frame t1).
    - exact Hf2.
    - constructor; [split; [lia|reflexivity]|assumption].
    - intros H. apply rate_key_inj in H as [_ H]. congruence. }
  split; [exact Houts|]. intros Hl1 Hl2. rewrite Houts.
  apply Forall_app. split; apply search_outcomes_allowed; unfold RATE_LIMIT;
    simpl length; lia.
Qed.

Lemma rate_window_restarts_witness :
  let early := [59000; 59100; 59200; 59300; 59400; 59500; 59600; 59700; 59800] in
  let late := [60100; 60200; 60300; 60400; 60500; 60600; 60700; 60800; 60900] in
  let outs := fst (serve_searches ((58900 :: early) ++ 60000 :: late) "ip1" "test" ∅) in
  (Z.quot 58900 60000 <> Z.quot 60000 60000 /\
   live 58900 ∅ (rate_key_of 58900 "ip1") = None) /\
  outs = (search_outcomes 58900 "test" 1 (58900 :: early)
          ++ search_outcomes 60000 "test" 1 (60000 :: late))%list /\
  ((length early < 10)%nat -> (length late < 10)%nat ->
   Forall (fun o => allowed o = true) outs).
Proof.
  intros early late outs. split; [split; [discriminate|reflexivity]|].
  apply (rate_window_restarts 58900 early 60000 late "ip1" "test" ∅).
  - lia.
  - lia.
  - discriminate.
  - repeat (constructor; [split; [lia|reflexivity]|]). constructor.
  - repeat (constructor; [split; [lia|reflexivity]|]). constructor.
  - reflexivity.
  - reflexivity.
  - unfold INT64_MAX. simpl. lia.
  - unfold INT64_MAX. simpl. lia.
Defined.

Lemma search_outcomes_length t0 query times : forall n,
  length (search_outcomes t0 query n times) = length times.
Proof. induction times as [|t times IH]; intros n; simpl; [reflexivity|]. now rewrite IH. Qed.

(** X22: from a fresh counter, for requests of one client in one minute
    that come no earlier than the first, every answer reports a time to the
    reset between 0 and 60 seconds; from the 11th on the answer is the
    status 429 whose detail and [Retry-After] header carry that time. *)
Theorem retry_after_bounds t1 rest ip query (r : keyspace) :
  0 <= t1 ->
  Forall (fun t => t1 <= t /\ Z.quot t 60000 = Z.quot t1 60000) rest ->
  live t1 r (rate_key_of t1 ip) = None ->
  Z.of_nat (length rest) < INT64_MAX ->
  forall i o, fst (serve_searches (t1 :: rest) ip query r) !! i = Some o ->
    exists ttl, 0 <= ttl <= 60 /\
      o = search_outcome query (Z.of_nat i + 1) ttl /\
      ((10 <= i)%nat ->
       o = Raise (HTTPException 429
                    ("Rate limit exceeded. Try again in " +:+ str ttl +:+ " seconds.")
                    [("Retry-After", str ttl)])).
Proof.
  intros Ht1 Hall Hfresh Hmax i o Hi.
  assert (Hall' : Forall (fun t => 0 <= t /\ Z.quot t 60000 = Z.quot t1 60000) rest).
  { eapply Forall_impl; [exact Hall|]. simpl. intros t [H1 H2]. split; [lia|exact H2]. }
  rewrite serve_fresh in Hi by assumption.
  assert (Hlt : (i < length (t1 :: rest))%nat).
  { apply lookup_lt_Some in Hi. now rewrite search_outcomes_length in Hi. }
  apply lookup_lt_is_Some_2 in Hlt as [t Ht].
  rewrite (search_outcomes_lookup _ _ _ 1 i t Ht) in Hi. injection Hi as <-.
  assert (Hin : t1 <= t /\ Z.quot t 60000 = Z.quot t1 60000).
  { destruct i as [|i]; [injection Ht as <-; split; [lia|reflexivity]|].
    simpl in Ht. eapply Forall_lookup_1 in Hall; [exact Hall|exact Ht]. }
  destruct Hin as [Hle Hmin].
  pose proof (same_minute_before t t1 ltac:(lia) Ht1 Hmin) as Hbefore.
  exists (window_ttl t1 t). split; [|split].
  - unfold window_ttl. apply ttl_bounds; lia.
  - f_equal. lia.
  - intros H10. unfold search_outcome.
    destruct (Z.leb_spec (1 + Z.of_nat i) RATE_LIMIT) as [H|_]; [unfold RATE_LIMIT in H; lia|].
    reflexivity.
Qed.

Lemma retry_after_bounds_witness :
  let rest := [100; 200; 300; 400; 500; 600; 700; 800; 900; 59000] in
  (0 <= 0 /\ live 0 ∅ (rate_key_of 0 "ip1") = None) /\
  exists o ttl,
    fst (serve_searches (0 :: rest) "ip1" "test" ∅) !! 10%nat = Some o /\
    0 <= ttl <= 60 /\
    o = search_outcome "test" (Z.of_nat 10 + 1) ttl /\
    ((10 <= 10)%nat ->
     o = Raise (HTTPException 429
                  ("Rate limit exceeded. Try again in " +:+ str ttl +:+ " seconds.")
                  [("Retry-After", str ttl)])).
Proof.
  intros rest. split; [split; [lia|reflexivity]|].
  eexists.
  destruct (retry_after_bounds 0 rest "ip1" "test" ∅) with (i := 10%nat)
    (o := search_outcome "test" 11 1) as (ttl & Hb & Ho & H429).
  - lia.
  - repeat (constructor; [split; [lia|reflexivity]|]). constructor.
  - reflexivity.
  - unfold INT64_MAX. simpl. lia.
  - vm_compute. reflexivity.
  - exists ttl. split; [vm_compute; reflexivity|]. auto.
Defined.

(** ** Further properties: cached lists *)

Lemma query_count_ok c (d : database) :
  faults d = [] ->
  query_count c d
  = (Ok (Z.of_nat (length (List.filter (in_category c) (products d)))),
     Database (products d) (S (queries d)) [] (reads d)).
Proof.
  intros H. unfold query_count, count_query, round_trip, rows, bind, ret.
  cbn [faults products queries]. now rewrite H.
Qed.

Lemma query_all_ok c offset limit (d : database) :
  faults d = [] ->
  query_all c offset limit d
  = (Ok (take (Z.to_nat limit)
           (drop (Z.to_nat offset) (List.filter (in_category c) (products d)))),
     Database (products d) (S (queries d)) [] (reads d)).
Proof.
  intros H. unfold query_all, count_query, round_trip, rows, bind, ret.
  cbn [faults products queries]. now rewrite H.
Qed.

Lemma list_guard page limit :
  1 <= page -> 1 <= limit <= 100 ->
  negb ((1 <=? page)%Z && (1 <=? limit)%Z && (limit <=? 100)%Z) = false.
Proof.
  intros Hp Hl.
  destruct (Z.leb_spec 1 page), (Z.leb_spec 1 limit), (Z.leb_spec limit 100);
    (reflexivity || lia).
Qed.

Lemma from_orm_all_eq l :
  from_orm_all l
  = if forallb validates l then Ok (List.map product_dict l) else Raise ValidationError.
Proof.
  induction l as [|p l IH]; [reflexivity|]. cbn [from_orm_all forallb List.map].
  unfold from_orm. destruct (validates p); [|reflexivity].
  rewrite IH. now destruct (forallb validates l).
Qed.

Lemma list_miss_eq now c page limit (w : world) :
  1 <= page -> 1 <= limit <= 100 ->
  faults (db w) = [] ->
  live now (cache w) (list_cache_key c page limit) = None ->
  get_products_with_cache now c page limit w
  = if forallb validates (page_rows c page limit (products (db w))) then
      (Ok (with_source "🔴 CACHE MISS - Queried database"
             (list_result now c page limit (products (db w)))),
       World (Database (products (db w)) (S (S (queries (db w)))) [] (reads (db w)))
         (<[list_cache_key c page limit
            := Entry (dumps (JDict (list_result now c page limit (products (db w)))))
                 (Some (setex_time now 300))]> (cache w)))
    else
      (Raise ValidationError,
       World (Database (products (db w)) (S (S (queries (db w)))) [] (reads (db w)))
         (reap now (cache w) (list_cache_key c page limit))).
Proof.
  intros Hp Hlim Hf Hl. unfold get_products_with_cache.
  rewrite list_guard by assumption.
  rewrite run_bind, run_on_cache, cache_get_eq, Hl. cbn [decode fst snd truthy].
  fold (category_filter c).
  rewrite run_bind, run_on_db. cbn [db cache].
  rewrite query_count_ok by assumption. cbn [fst snd].
  rewrite run_bind, run_on_db. cbn [db cache].
  rewrite query_all_ok by reflexivity. cbn [fst snd products queries reads].
  rewrite run_bind, run_lift, from_orm_all_eq. fold (page_rows c page limit (products (db w))).
  destruct (forallb validates (page_rows c page limit (products (db w)))); [|reflexivity].
  rewrite run_bind, run_on_cache. cbn [db cache].
  rewrite cache_set_eq by lia. cbn [fst snd]. now rewrite insert_reap.
Qed.

Lemma list_result_distinct now c page limit l :
  distinct_keys (JDict (list_result now c page limit l)) = true.
Proof.
  unfold list_result. cbn -[product_dict page_rows]. rewrite !andb_true_r.
  apply forallb_forall. intros x Hx. apply in_map_iff in Hx as (p & <- & _).
  apply product_dict_distinct.
Qed.

Lemma list_hit_eq now c page limit (w : world) items t :
  1 <= page -> 1 <= limit <= 100 ->
  live now (cache w) (list_cache_key c page limit)
  = Some (Entry (dumps (JDict items)) (Some t)) ->
  distinct_keys (JDict items) = true ->
  items <> [] ->
  get_products_with_cache now c page limit w
  = (Ok (with_source "🟢 CACHE HIT - No database query!" items), w).
Proof.
  intros Hp Hlim Hl Hd Hne. unfold get_products_with_cache.
  rewrite list_guard by assumption.
  rewrite run_bind, run_on_cache, cache_get_eq, Hl, decode_dumps, (reap_live _ _ _ _ Hl)
    by exact Hd.
  cbn [fst snd].
  assert (truthy (JDict items) = true) as -> by (now destruct items).
  now destruct w.
Qed.

(** X12: a list request that finds nothing under its key runs two queries
    (count and page) and, when [ProductResponse] accepts the rows of the
    page, answers with at most [limit] rows and the total, and stores the
    answer with the expiry that [SETEX] gives for 300 seconds (whole
    seconds: at most 300 seconds later and more than 299), touching no
    other key and no row.  Until that expiry, every request with the same
    category text, page and limit is answered with the stored list and no
    query, whatever the table holds by then: also a request for the
    category named [all], after a request without category stored the
    unfiltered list. *)
Theorem list_page_cached now c page limit (w : world) :
  1 <= page -> 1 <= limit <= 100 -> (page - 1) * limit <= INT64_MAX ->
  faults (db w) = [] ->
  live now (cache w) (list_cache_key c page limit) = None ->
  forallb validates (page_rows c page limit (products (db w))) = true ->
  let result := list_result now c page limit (products (db w)) in
  now + 299 * 1000 < setex_time now 300 <= now + 300 * 1000 /\
  exists w',
    get_products_with_cache now c page limit w
    = (Ok (with_source "🔴 CACHE MISS - Queried database" result), w') /\
    products (db w') = products (db w) /\
    queries (db w') = S (S (queries (db w))) /\
    (forall k, k <> list_cache_key c page limit -> cache w' !! k = cache w !! k) /\
    (length (page_rows c page limit (products (db w))) <= Z.to_nat limit)%nat /\
    forall c' now' d',
      category_text c' = category_text c -> now' < setex_time now 300 ->
      get_products_with_cache now' c' page limit (World d' (cache w'))
      = (Ok (with_source "🟢 CACHE HIT - No database query!" result),
         World d' (cache w')).
Proof.
  intros Hp Hlim _ Hf Hl Hv result.
  pose proof (setex_time_le now 300). pose proof (setex_time_gt now 300).
  split; [lia|].
  eexists. split; [rewrite list_miss_eq, Hv by assumption; reflexivity|].
  cbn [db cache products queries].
  split; [reflexivity|]. split; [reflexivity|]. split; [|split].
  - intros k Hk. now apply lookup_insert_ne.
  - unfold page_rows. rewrite length_take. lia.
  - intros c' now' d' Hc Hnow'.
    assert (Hk : list_cache_key c' page limit = list_cache_key c page limit)
      by (now apply list_cache_key_inj).
    eapply list_hit_eq; try assumption; [|apply list_result_distinct|discriminate].
    cbn [cache]. rewrite Hk. apply live_fresh_insert. lia.
Qed.

Lemma list_page_cached_witness :
  let result := list_result 0 None 1 2 seed_products in
  (1 <= 1 /\ 1 <= 2 <= 100 /\ faults (db seeded) = [] /\
   live 0 (cache seeded) (list_cache_key None 1 2) = None) /\
  0 + 299 * 1000 < setex_time 0 300 <= 0 + 300 * 1000 /\
  exists w',
    get_products_with_cache 0 None 1 2 seeded
    = (Ok (with_source "🔴 CACHE MISS - Queried database" result), w') /\
    products (db w') = products (db seeded) /\
    queries (db w') = S (S (queries (db seeded))) /\
    (forall k, k <> list_cache_key None 1 2 -> cache w' !! k = cache seeded !! k) /\
    (length (page_rows None 1 2 (products (db seeded))) <= Z.to_nat 2)%nat /\
    forall c' now' d',
      category_text c' = category_text None -> now' < setex_time 0 300 ->
      get_products_with_cache now' c' 1 2 (World d' (cache w'))
      = (Ok (with_source "🟢 CACHE HIT - No database query!" result),
         World d' (cache w')).
Proof.
  intros result. split; [repeat split; lia|].
  apply (list_page_cached 0 None 1 2 seeded); (reflexivity || lia || (vm_compute; discriminate)).
Defined.

Lemma page_of_ok c limit (d : database) n :
  faults d = [] -> 0 <= limit ->
  page_of c limit d (Z.of_nat (S n))
  = take (Z.to_nat limit)
      (drop (n * Z.to_nat limit) (List.filter (in_category c) (products d))).
Proof.
  intros Hf Hl. unfold page_of. rewrite query_all_ok by assumption. cbn [fst].
  do 2 f_equal. rewrite Nat2Z.inj_succ. replace (Z.succ (Z.of_nat n) - 1) with (Z.of_nat n) by lia.
  rewrite Z2Nat.inj_mul by lia. now rewrite Nat2Z.id.
Qed.

(** X13: paging loses and repeats nothing.  With a working database and a
    limit of 1 or more, the pages 1 to [n] of a category, one after the
    other, are the first [n * limit] rows of the category in the order of
    the table; so they are all its rows, each once, as soon as [n * limit]
    reaches the total that the count query reports, and every later page
    is empty. *)
Theorem pages_partition c limit (d : database) n :
  faults d = [] -> 1 <= limit ->
  let matching := List.filter (in_category c) (products d) in
  pages_upto c limit d n = take (n * Z.to_nat limit) matching /\
  fst (query_count c d) = Ok (Z.of_nat (length matching)) /\
  (Z.of_nat (length matching) <= Z.of_nat n * limit ->
   pages_upto c limit d n = matching /\
   forall page, Z.of_nat n < page -> page_of c limit d page = []).
Proof.
  intros Hf Hl matching.
  assert (Hpages : forall m, pages_upto c limit d m = take (m * Z.to_nat limit) matching).
  { unfold pages_upto. induction m as [|m IH]; [reflexivity|].
    rewrite seq_S, map_app, concat_app, IH. cbn [List.map concat].
    rewrite app_nil_r. change (1 + m)%nat with (S m).
    rewrite page_of_ok by (assumption || lia). fold matching.
    rewrite take_take_drop. f_equal. lia. }
  split; [apply Hpages|]. split; [now rewrite query_count_ok|].
  intros Hn. split.
  - rewrite Hpages. apply take_ge. nia.
  - intros page Hpage. unfold page_of. rewrite query_all_ok by assumption.
    cbn [fst]. fold matching. rewrite drop_ge; [apply take_nil|]. nia.
Qed.

Lemma pages_partition_witness :
  let d := Database seed_products 0 [] no_text in
  let matching := List.filter (in_category (Some "books")) (products d) in
  (faults d = [] /\ 1 <= 1 /\ Z.of_nat (length matching) <= Z.of_nat 2 * 1) /\
  pages_upto (Some "books") 1 d 2 = take (2 * Z.to_nat 1) matching /\
  fst (query_count (Some "books") d) = Ok (Z.of_nat (length matching)) /\
  (Z.of_nat (length matching) <= Z.of_nat 2 * 1 ->
   pages_upto (Some "books") 1 d 2 = matching /\
   forall page, Z.of_nat 2 < page -> page_of (Some "books") 1 d page = []).
Proof.
  intros d matching. split; [split; [reflexivity|split; [lia|vm_compute; discriminate]]|].
  apply (pages_partition (Some "books") 1 d 2); [reflexivity|lia].
Defined.

(** ** Further properties: writes, deletes and reads of one product *)



Lemma cache_aside_fresh t now' product_id p (w : world) :
  cache w !! product_key product_id = Some (Entry (dumps (product_dict p)) (Some t)) ->
  now' <= t ->
  get_product_cache_aside now' product_id w
  = (Ok (cache_hit_response (product_dict p)), w).
Proof.
  intros Hk Hnow'. eapply cache_aside_hit.
  - unfold live. rewrite Hk. unfold expired. cbn [expires_at].
    destruct (Z.ltb_spec t now'); [lia|reflexivity].
  - apply decode_dumps, product_dict_distinct.
  - reflexivity.
Qed.



Lemma query_first_ok product_id (d : database) :
  faults d = [] ->
  query_first product_id d
  = (Ok (List.find (fun p => (id p =? product_id)%Z) (products d)),
     Database (products d) (S (queries d)) [] (reads d)).
Proof.
  intros H. unfold query_first, count_query, round_trip, rows, bind, ret.
  cbn [faults products queries]. now rewrite H.
Qed.

Lemma query_first_found product_id (d d1 : database) old :
  query_first product_id d = (Ok (Some old), d1) ->
  id old = product_id /\ In old (products d) /\ products d1 = products d.
Proof.
  unfold query_first, count_query, round_trip, rows, bind, ret.
  destruct d as [l q fs rd]. cbn [faults products queries reads].
  destruct fs as [|[] fs]; intros H; try discriminate;
    injection H as H <-; apply find_some in H as [Hin Hid];
    (split; [lia|split; [assumption|reflexivity]]).
Qed.

Lemma delete_commit_ok old (d1 d2 : database) :
  delete_commit old d1 = (Ok tt, d2) ->
  products d2 = List.filter (fun p => negb (id p =? id old)%Z) (products d1).
Proof.
  unfold delete_commit, round_trip, rows, set_rows, bind, ret.
  destruct d1 as [l q fs rd]. cbn [faults products queries reads].
  destruct fs as [|[] fs]; intros H; try discriminate; now injection H as <-.
Qed.

Lemma delete_ok now product_id (w w' : world) resp :
  delete_product_with_cache_invalidation now product_id w = (Ok resp, w') ->
  exists old d1 keys,
    query_first product_id (db w) = (Ok (Some old), d1) /\
    delete_commit old d1 = (Ok tt, db w') /\
    cache w' = delete_all keys (delete (product_key product_id) (cache w)) /\
    (forall k, k ∈ keys <->
               scanned now "products:list:*" (delete (product_key product_id) (cache w)) k).
Proof.
  unfold delete_product_with_cache_invalidation. rewrite run_bind, run_on_db.
  destruct (query_first product_id (db w)) as [[[old|]|e] d1] eqn:Hq; cbn [fst snd];
    try discriminate.
  rewrite run_bind, run_on_db. cbn [db cache].
  destruct (delete_commit old d1) as [[[]|e] d2] eqn:Hd; cbn [fst snd]; [|discriminate].
  rewrite run_bind, run_on_cache. cbn [db cache].
  destruct (invalidate_product_eq now product_id (cache w)) as (keys & -> & _ & Hkeys).
  cbn [fst snd]. intros H. injection H as _ <-. exists old, d1, keys.
  split; [reflexivity|split; [exact Hd|split; [reflexivity|exact Hkeys]]].
Qed.

Lemma find_absent product_id (l : list ProductModel) :
  Forall (fun p => id p <> product_id) l ->
  List.find (fun p => (id p =? product_id)%Z) l = None.
Proof.
  induction 1 as [|p l Hp _ IH]; [reflexivity|]. simpl.
  destruct (Z.eqb_spec (id p) product_id); [contradiction|assumption].
Qed.

(** X15: after a delete that succeeds the product is gone from both
    places: the table holds no row with that id and keeps every row with
    another id, and the cache holds no entry under the key of the product.
    With a working database, a read, a conditional read, an update and a
    second delete of that id are all answered 404 from then on, never from
    a stale cache entry. *)
Theorem deleted_product_is_gone now product_id (w w' : world) resp :
  delete_product_with_cache_invalidation now product_id w = (Ok resp, w') ->
  Forall (fun p => id p <> product_id) (products (db w')) /\
  (forall p, id p <> product_id -> In p (products (db w')) <-> In p (products (db w))) /\
  cache w' !! product_key product_id = None /\
  (faults (db w') = [] ->
   forall now',
     fst (get_product_cache_aside now' product_id w') = Raise product_not_found /\
     (forall md5 if_none_match,
         fst (get_product_with_etag md5 product_id if_none_match w')
         = Raise product_not_found) /\
     (forall updates,
         fst (update_product_write_through now' product_id updates w')
         = Raise product_not_found) /\
     fst (delete_product_with_cache_invalidation now' product_id w')
     = Raise product_not_found).
Proof.
  intros H. destruct (delete_ok _ _ _ _ _ H) as (old & d1 & keys & Hq & Hd & Hc & _).
  apply query_first_found in Hq as (Hid & _ & Hrows1).
  apply delete_commit_ok in Hd. rewrite Hrows1, Hid in Hd.
  assert (Hgone : Forall (fun p => id p <> product_id) (products (db w'))).
  { rewrite Hd. apply List.Forall_forall. intros p Hp.
    apply filter_In in Hp as [_ Hp]. destruct (Z.eqb_spec (id p) product_id);
      [discriminate|assumption]. }
  assert (Hkey : cache w' !! product_key product_id = None).
  { rewrite Hc, delete_all_lookup. destruct (decide _); [reflexivity|].
    apply lookup_delete_eq. }
  split; [exact Hgone|]. split; [|split; [exact Hkey|]].
  - intros p Hp. rewrite Hd, filter_In.
    destruct (Z.eqb_spec (id p) product_id); [contradiction|]. simpl. tauto.
  - intros Hf now'.
    assert (Hfind : query_first product_id (db w')
                    = (Ok None, Database (products (db w')) (S (queries (db w'))) [] (reads (db w'))))
      by (now rewrite query_first_ok, find_absent).
    split; [|split; [|split]].
    + rewrite (cache_aside_miss now' product_id w' JNull).
      * now rewrite Hfind.
      * unfold live. now rewrite Hkey.
      * reflexivity.
    + intros md5 inm. unfold get_product_with_etag.
      now rewrite run_bind, run_on_db, Hfind.
    + intros updates. now rewrite update_eq, Hfind.
    + unfold delete_product_with_cache_invalidation.
      now rewrite run_bind, run_on_db, Hfind.
Qed.

Lemma deleted_product_is_gone_witness :
  exists resp w',
    delete_product_with_cache_invalidation 0 2 seeded = (Ok resp, w') /\
    Forall (fun p => id p <> 2) (products (db w')) /\
    cache w' !! product_key 2 = None /\
    fst (get_product_cache_aside 1000 2 w') = Raise product_not_found.
Proof.
  eexists _, _. split; [vm_compute; reflexivity|].
  destruct (deleted_product_is_gone 0 2 seeded _ _ eq_refl) as (Hgone & _ & Hkey & Hafter).
  split; [exact Hgone|]. split; [exact Hkey|].
  destruct (Hafter eq_refl 1000) as [Hget _]. exact Hget.
Defined.

(** ** Further properties: reads, ETags and the seed *)

Lemma no_row_ret {A : Type} (a : A) : changes_no_row (ret a).
Proof. intros w. reflexivity. Qed.

Lemma no_row_raise {A : Type} e : changes_no_row (@raise world A e).
Proof. intros w. reflexivity. Qed.

Lemma no_row_bind {A B : Type} (m : M world A) (f : A -> M world B) :
  changes_no_row m -> (forall a, changes_no_row (f a)) -> changes_no_row (bind m f).
Proof.
  intros Hm Hf w. unfold bind. specialize (Hm w).
  destruct (m w) as [[a|e] w1]; cbn [snd] in *; [|assumption].
  now rewrite Hf.
Qed.

Lemma no_row_on_cache {A : Type} (m : M keyspace A) : changes_no_row (on_cache m).
Proof. intros w. unfold on_cache. now destruct (m (cache w)). Qed.

Lemma no_row_on_db {A : Type} (m : M database A) :
  (forall d, products (snd (m d)) = products d) -> changes_no_row (on_db m).
Proof. intros H w. unfold on_db. specialize (H (db w)). now destruct (m (db w)). Qed.

Lemma query_first_rows product_id d : products (snd (query_first product_id d)) = products d.
Proof.
  unfold query_first, count_query, round_trip, rows, bind, ret.
  destruct d as [l q fs rd]. cbn [faults products queries reads]. now destruct fs as [|[] fs].
Qed.

Lemma query_count_rows c d : products (snd (query_count c d)) = products d.
Proof.
  unfold query_count, count_query, round_trip, rows, bind, ret.
  destruct d as [l q fs rd]. cbn [faults products queries reads]. now destruct fs as [|[] fs].
Qed.

Lemma query_all_rows c offset limit d :
  products (snd (query_all c offset limit d)) = products d.
Proof.
  unfold query_all, count_query, round_trip, rows, bind, ret.
  destruct d as [l q fs rd]. cbn [faults products queries reads]. now destruct fs as [|[] fs].
Qed.

Lemma no_row_lift {A : Type} (o : outcome A) : changes_no_row (lift o).
Proof. intros w. reflexivity. Qed.

Ltac no_row :=
  repeat first
    [ apply no_row_ret | apply no_row_raise | apply no_row_lift | apply no_row_on_cache
    | apply no_row_on_db;
      first [apply query_first_rows | apply query_count_rows | apply query_all_rows]
    | apply no_row_bind; [|intros ?]
    | match goal with
      | |- changes_no_row (if ?b then _ else _) => destruct b
      | |- changes_no_row (match ?x with _ => _ end) => destruct x
      end ].

Lemma no_row_cache_aside now product_id :
  changes_no_row (get_product_cache_aside now product_id).
Proof. unfold get_product_cache_aside, not_found. no_row. Qed.

Lemma no_row_list now c page limit :
  changes_no_row (get_products_with_cache now c page limit).
Proof. unfold get_products_with_cache. no_row. Qed.

Lemma no_row_etag md5 product_id if_none_match :
  changes_no_row (get_product_with_etag md5 product_id if_none_match).
Proof. unfold get_product_with_etag, not_found. no_row. Qed.

Lemma cache_aside_frame now product_id (w : world) k :
  k <> product_key product_id ->
  cache (snd (get_product_cache_aside now product_id w)) !! k = cache w !! k.
Proof.
  intros Hk. unfold get_product_cache_aside. fold (product_key product_id).
  rewrite run_bind, run_on_cache.
  destruct (touches_cache_get now (product_key product_id) (cache w)) as [Hg _].
  specialize (Hg k Hk).
  destruct (cache_get now (product_key product_id) (cache w)) as [[v|e] r1];
    cbn [fst snd] in *; [|exact Hg].
  destruct (truthy v); [exact Hg|].
  rewrite run_bind, run_on_db. cbn [db cache].
  destruct (query_first product_id (db w)) as [[[p|]|e] d1]; cbn [fst snd];
    try exact Hg.
  rewrite run_bind, run_lift. unfold from_orm.
  destruct (validates p); [|exact Hg].
  rewrite run_bind, run_on_cache. cbn [db cache].
  destruct (touches_cache_set now (product_key product_id) (product_dict p) 3600 r1)
    as [Hs _].
  specialize (Hs k Hk).
  destruct (cache_set now (product_key product_id) (product_dict p) 3600 r1)
    as [[v'|e] r2]; unfold ret; cbn [fst snd cache] in *; congruence.
Qed.

Lemma list_frame now c page limit (w : world) k :
  k <> list_cache_key c page limit ->
  cache (snd (get_products_with_cache now c page limit w)) !! k = cache w !! k.
Proof.
  intros Hk. unfold get_products_with_cache.
  destruct (negb _); [reflexivity|].
  rewrite run_bind, run_on_cache.
  destruct (touches_cache_get now (list_cache_key c page limit) (cache w)) as [Hg _].
  specialize (Hg k Hk).
  destruct (cache_get now (list_cache_key c page limit) (cache w)) as [[v|e] r1];
    cbn [fst snd] in *; [|exact Hg].
  destruct (truthy v); [now destruct v|].
  rewrite run_bind, run_on_db. cbn [db cache].
  destruct (query_count _ (db w)) as [[total|e] d1]; cbn [fst snd]; [|exact Hg].
  rewrite run_bind, run_on_db. cbn [db cache].
  destruct (query_all _ _ _ d1) as [[rows|e] d2]; cbn [fst snd]; [|exact Hg].
  rewrite run_bind, run_lift.
  destruct (from_orm_all rows) as [data|e]; [|exact Hg].
  rewrite run_bind, run_on_cache. cbn [db cache].
  match goal with
  | |- context [cache_set now ?key ?v 300 r1] =>
      destruct (touches_cache_set now key v 300 r1) as [Hs _];
      specialize (Hs k Hk);
      destruct (cache_set now key v 300 r1) as [[v'|e] r2]
  end; unfold ret; cbn [fst snd cache] in *; congruence.
Qed.

Lemma etag_cache md5 product_id if_none_match (w : world) :
  cache (snd (get_product_with_etag md5 product_id if_none_match w)) = cache w.
Proof.
  unfold get_product_with_etag. rewrite run_bind, run_on_db.
  destruct (query_first product_id (db w)) as [[[p|]|e] d1]; cbn [fst snd];
    try reflexivity.
  rewrite run_bind, run_lift. destruct (from_orm p) as [data|e]; [|reflexivity].
  now destruct (bool_decide _).
Qed.

(** X16: the three read handlers never change a row of the products table,
    whatever the cache and the database answer.  [get_product_cache_aside]
    and [get_products_with_cache] touch no cache key but their own, and
    [get_product_with_etag] does not touch the cache at all. *)
Theorem reads_change_no_row :
  (forall now product_id, changes_no_row (get_product_cache_aside now product_id)) /\
  (forall now c page limit, changes_no_row (get_products_with_cache now c page limit)) /\
  (forall md5 product_id if_none_match,
      changes_no_row (get_product_with_etag md5 product_id if_none_match)) /\
  (forall now product_id (w : world) k,
      k <> product_key product_id ->
      cache (snd (get_product_cache_aside now product_id w)) !! k = cache w !! k) /\
  (forall now c page limit (w : world) k,
      k <> list_cache_key c page limit ->
      cache (snd (get_products_with_cache now c page limit w)) !! k = cache w !! k) /\
  (forall md5 product_id if_none_match (w : world),
      cache (snd (get_product_with_etag md5 product_id if_none_match w)) = cache w).
Proof.
  split; [exact no_row_cache_aside|]. split; [exact no_row_list|].
  split; [exact no_row_etag|]. split; [exact cache_aside_frame|].
  split; [exact list_frame|exact etag_cache].
Qed.

Lemma sort_keys_product p :
  sort_keys (product_dict p)
  = JDict [("category", cell_value (category p));
           ("description", cell_value (description p));
           ("id", JInt (id p)); ("name", cell_value (name p));
           ("price", cell_value (price p))].
Proof. destruct p as [i [] [] [] []]; reflexivity. Qed.

Lemma dumps_inj v v' :
  distinct_keys v = true -> distinct_keys v' = true -> dumps v = dumps v' -> v = v'.
Proof.
  intros Hd Hd' H. pose proof (loads_dumps v Hd) as Hv.
  rewrite H, loads_dumps in Hv by exact Hd'. congruence.
Qed.

Lemma sort_keys_product_distinct p : distinct_keys (sort_keys (product_dict p)) = true.
Proof.
  rewrite sort_keys_product. cbn -[cell_value]. now rewrite !cell_value_distinct.
Qed.

Lemma cell_value_inj c c' : cell_value c = cell_value c' -> c = c'.
Proof. destruct c, c'; simpl; congruence. Qed.

Lemma product_dict_inj p p' : product_dict p = product_dict p' -> p = p'.
Proof.
  unfold product_dict. intros H. injection H as Hi Hn Hd Hp Hc.
  apply cell_value_inj in Hn, Hd, Hp, Hc.
  destruct p, p'. cbn [category description id name price] in *. congruence.
Qed.

Lemma etag_text_inj p p' : etag_text p = etag_text p' -> p = p'.
Proof.
  unfold etag_text. intros H.
  apply dumps_inj in H; try apply sort_keys_product_distinct.
  rewrite !sort_keys_product in H.
  injection H as Hc Hd Hi Hn Hp.
  apply cell_value_inj in Hc, Hd, Hn, Hp.
  destruct p, p'. cbn [category description id name price] in *. congruence.
Qed.

Lemma etag_of_inj md5 p p' :
  etag_of md5 (product_dict p) = etag_of md5 (product_dict p') <->
  md5 (etag_text p) = md5 (etag_text p').
Proof.
  unfold etag_of. fold (etag_text p) (etag_text p'). split; [|now intros ->].
  intros H. injection H as H. revert H.
  generalize (md5 (etag_text p)) (md5 (etag_text p')). intros a.
  induction a as [|c a IH]; intros [|c' b]; simpl; intros H; try discriminate.
  - reflexivity.
  - injection H as _ H. now destruct b.
  - injection H as _ H. now destruct a.
  - injection H as -> H. f_equal. now apply IH.
Qed.

(** X17: for a product that the query finds and [ProductResponse] accepts,
    [get_product_with_etag] always sends the current ETag, the quoted
    digest of the product written with sorted keys; it answers 304 with an
    empty body exactly when the If-None-Match of the request is that ETag,
    and otherwise 200 with the product.  Two products that differ in any
    field have different texts under the digest, so a 304 for a changed
    product takes a collision of the digest.  For a row that
    [ProductResponse] does not accept the handler raises the validation
    error. *)
Theorem etag_revalidation md5 product_id if_none_match (w : world) p d' :
  query_first product_id (db w) = (Ok (Some p), d') ->
  let etag := etag_of md5 (product_dict p) in
  (validates p = true ->
   exists resp,
     get_product_with_etag md5 product_id if_none_match w = (Ok resp, World d' (cache w)) /\
     In ("ETag", etag) (headers resp) /\
     (if_none_match = Some etag ->
      status_code resp = 304 /\ content resp = EmptyString) /\
     (if_none_match <> Some etag ->
      status_code resp = 200 /\ content resp = dumps (etag_body (product_dict p) etag)) /\
     forall p', p' <> p ->
       etag_text p' <> etag_text p /\
       (etag_of md5 (product_dict p') = etag -> md5 (etag_text p') = md5 (etag_text p))) /\
  (validates p = false ->
   get_product_with_etag md5 product_id if_none_match w
   = (Raise ValidationError, World d' (cache w))).
Proof.
  intros Hq etag. unfold get_product_with_etag.
  rewrite run_bind, run_on_db, Hq. cbn [fst snd]. rewrite run_bind, run_lift.
  unfold from_orm. split; intros Hv; rewrite Hv; [|reflexivity]. fold etag.
  assert (Hother : forall p', p' <> p ->
            etag_text p' <> etag_text p /\
            (etag_of md5 (product_dict p') = etag -> md5 (etag_text p') = md5 (etag_text p))).
  { intros p' Hp'. split.
    - intros H. now apply etag_text_inj in H.
    - apply etag_of_inj. }
  destruct (bool_decide_reflect (if_none_match = Some etag)) as [He|He];
    eexists; (split; [reflexivity|]); cbn [headers status_code content];
    (split; [now left|]); (split; [|split; [|exact Hother]]);
    try (intros _; split; reflexivity); intros H; contradiction.
Qed.

Lemma etag_revalidation_witness :
  let book := {| id := 3; name := TEXT "Python Book"; description := TEXT "Learn Python";
                 price := INTEGER 3999; category := TEXT "books" |} in
  let etag := etag_of plain_digest (product_dict book) in
  exists resp,
    get_product_with_etag plain_digest 3 (Some etag) seeded
    = (Ok resp, World (Database seed_products 1 [] no_text) ∅) /\
    status_code resp = 304 /\ content resp = EmptyString /\ In ("ETag", etag) (headers resp).
Proof.
  intros book etag.
  destruct (proj1 (etag_revalidation plain_digest 3 (Some etag) seeded book
                     (Database seed_products 1 [] no_text) eq_refl) eq_refl)
    as (resp & Hrun & Hhdr & H304 & _).
  exists resp. destruct (H304 eq_refl) as [Hs Hc]. auto.
Defined.

Lemma seed_eq (d : database) :
  faults d = [] ->
  seed d
  = (Ok tt,
     Database (match products d with [] => seed_products | _ => products d end)
       (S (queries d)) [] (reads d)).
Proof.
  intros Hf. unfold seed. rewrite run_bind, query_count_ok by assumption.
  cbn [in_category]. destruct d as [l q fs rd]. cbn [faults products queries reads] in *. subst fs.
  destruct l as [|p l]; [reflexivity|].
  cbn [List.filter length].
  destruct (Z.eqb_spec (Z.of_nat (S (length (List.filter (fun _ => true) l)))) 0);
    [lia|reflexivity].
Qed.

(** X18: with a working database, the start-up seed fills an empty products
    table with the four products of the lecture, with the ids 1 to 4, and
    leaves a table that holds any row exactly as it is; so running it again
    adds nothing. *)
Theorem seed_only_fills_empty_table (d : database) :
  faults d = [] ->
  fst (seed d) = Ok tt /\
  (products d = [] -> products (snd (seed d)) = seed_products) /\
  (products d <> [] -> products (snd (seed d)) = products d) /\
  products (snd (seed (snd (seed d)))) = products (snd (seed d)).
Proof.
  intros Hf. rewrite seed_eq by assumption. cbn [fst snd products].
  split; [reflexivity|]. split; [now intros ->|]. split.
  - now destruct (products d).
  - rewrite seed_eq by reflexivity. cbn [snd products].
    now destruct (products d).
Qed.

Lemma seed_only_fills_empty_table_witness :
  let d := Database [] 0 [] no_text in
  faults d = [] /\
  fst (seed d) = Ok tt /\
  (products d = [] -> products (snd (seed d)) = seed_products) /\
  (products d <> [] -> products (snd (seed d)) = products d) /\
  products (snd (seed (snd (seed d)))) = products (snd (seed d)).
Proof.
  intros d. split; [reflexivity|].
  apply (seed_only_fills_empty_table d). reflexivity.
Defined.

(** ** Further properties: updates, and the families of keys *)

Lemma In_insert_row_other p q l : In q l -> In q (insert_row p l).
Proof.
  induction l as [|x l IH]; simpl; [tauto|].
  destruct (id p <? id x)%Z; simpl; tauto.
Qed.

Lemma replace_row_other old_id p' l q :
  id q <> old_id -> In q l -> In q (replace_row old_id p' l).
Proof.
  intros Hq Hin. unfold replace_row. apply In_insert_row_other, filter_In.
  split; [assumption|]. destruct (Z.eqb_spec (id q) old_id); [contradiction|reflexivity].
Qed.

Lemma query_first_reads product_id (d : database) :
  reads (snd (query_first product_id d)) = reads d.
Proof.
  unfold query_first, count_query, round_trip, rows, bind, ret.
  destruct d as [l q fs rd]. cbn [faults products queries reads]. now destruct fs as [|[] fs].
Qed.

(** X19: an update that succeeds found a row [old] with the id of the
    request and wrote in its place the row that the database makes of the
    assigned values (a number for a text column as its text, a text of
    digits for the price as the integer), a row that [ProductResponse]
    accepts: the new row is in the table, at the place of its id, and every
    row with another id is kept.  The answer carries the new row, and it is
    stored under the id of the request with the expiry that [SETEX] gives
    for 3600 seconds (whole seconds: at most 3600 seconds later and more
    than 3599); until that expiry [get_product_cache_aside] of that id
    answers with the row from the cache, without a query. *)
Theorem updated_product_read_back now product_id updates (w w' : world) resp :
  update_product_write_through now product_id updates w = (Ok resp, w') ->
  now + 3599 * 1000 < setex_time now 3600 <= now + 3600 * 1000 /\
  exists old p,
    In old (products (db w)) /\ id old = product_id /\
    flushed (reads (db w)) (apply_updates (loaded old) updates) = Some p /\
    validates p = true /\
    resp = update_response p /\
    products (db w') = replace_row product_id p (products (db w)) /\
    In p (products (db w')) /\
    (forall q, id q <> product_id -> In q (products (db w)) -> In q (products (db w'))) /\
    forall now' d', now' < setex_time now 3600 ->
      get_product_cache_aside now' product_id (World d' (cache w'))
      = (Ok (cache_hit_response (product_dict p)), World d' (cache w')).
Proof.
  pose proof (setex_time_le now 3600). pose proof (setex_time_gt now 3600).
  rewrite update_eq.
  pose proof (query_first_reads product_id (db w)) as Hreads.
  destruct (query_first product_id (db w)) as [[[old|]|e] d1] eqn:Hq; try discriminate.
  cbn [snd] in Hreads.
  destruct (commit_refresh old (apply_updates (loaded old) updates) d1) as [[p|e] d2] eqn:Hc;
    [|discriminate].
  destruct (validates p) eqn:Hv; [|discriminate].
  intros Hrun. injection Hrun as <- <-.
  apply query_first_found in Hq as (Hid & Hin & Hrows1).
  apply commit_refresh_ok in Hc as [Hp Hrows2]. rewrite Hrows1, Hid in Hrows2.
  rewrite Hreads in Hp.
  split; [lia|]. exists old, p. cbn [db cache].
  split; [exact Hin|]. split; [exact Hid|]. split; [exact Hp|].
  split; [exact Hv|]. split; [reflexivity|]. split; [exact Hrows2|]. rewrite Hrows2.
  split; [apply In_insert_row|].
  split; [intros q Hq Hq'; now apply replace_row_other|].
  intros now' d' Hnow'.
  apply cache_aside_fresh with (t := setex_time now 3600); [|lia].
  apply lookup_insert_eq.
Qed.

Lemma updated_product_read_back_witness :
  exists resp w' p,
    update_product_write_through 999 3 [("price", JStr "2999")] seeded = (Ok resp, w') /\
    resp = update_response p /\
    price p = INTEGER 2999 /\ name p = TEXT "Python Book" /\
    get_product_cache_aside 3599999 3 (World (db w') (cache w'))
    = (Ok (cache_hit_response (product_dict p)), World (db w') (cache w')).
Proof.
  destruct (updated_product_read_back 999 3 [("price", JStr "2999")] seeded
              (snd (update_product_write_through 999 3 [("price", JStr "2999")] seeded))
              (update_response {| id := 3; name := TEXT "Python Book";
                                  description := TEXT "Learn Python";
                                  price := INTEGER 2999; category := TEXT "books" |}))
    as (_ & old & p & _ & _ & Hp & _ & Hresp & _ & _ & _ & Hread).
  - vm_compute. reflexivity.
  - eexists _, _, p. split; [vm_compute; reflexivity|]. split; [exact Hresp|].
    assert (Hp' : p = {| id := 3; name := TEXT "Python Book";
                         description := TEXT "Learn Python";
                         price := INTEGER 2999; category := TEXT "books" |}).
    { symmetry. apply product_dict_inj. unfold update_response in Hresp. congruence. }
    split; [now rewrite Hp'|]. split; [now rewrite Hp'|].
    apply Hread. vm_compute. reflexivity.
Defined.

(** X20: the keys of the handlers fall into six families that never meet:
    no product key, list key, weather key, session key or counter key is
    the key of another family or [trending:topics], whatever the city, the
    token, the address or the category is.  As each handler works on its own key
    alone, the handlers of one family neither read nor change the entries
    of another. *)
Theorem key_families_disjoint product_id c page limit city token now ip :
  let keys := [product_key product_id; list_cache_key c page limit;
               "trending:topics"; weather_key city; session_key token;
               rate_key_of now ip] in
  NoDup keys.
Proof.
  intros keys. subst keys.
  unfold product_key, list_cache_key, weather_key, session_key, rate_key_of.
  repeat (constructor; [rewrite ?elem_of_cons, elem_of_nil; simpl; intuition discriminate|]).
  constructor.
Qed.



